(** * MoonFit: payment verification and order settlement

    A shallow embedding of the payment core of the MoonFit storefront bot:
    [ton_payments.py] (ledger client and payment matcher), [utils.py]
    ([calculate_discount]) and the order, cart, discount and session
    operations of the two generations of the application
    ([main.py]/[database.py]/[cart_manager.py] and the files suffixed
    [_1753438860...]).

    Conventions of the embedding:
    - decoded JSON data is a [pyval]; a Python exception is the [Raise]
      branch of the [res] monad, and every [try ... except Exception] of
      the source that the properties depend on is an explicit [catch];
    - a Python float that carries money or a TON amount is the rational
      it stands for ([Q]); what the payment matcher and the discount
      computation do to floats (the division of the nano amount, the
      difference to the expected amount, the percentage of a subtotal) is
      rounded as binary64 arithmetic rounds it ([F64]); the totals of
      carts and orders are kept as sums, products and differences of
      rationals, and the properties about them depend only on the order
      and the equality of amounts;
    - wall-clock time is an integer number of microseconds supplied by the
      environment of the polling loop;
    - a table whose key is unique ([users], [products], [user_sessions])
      is a finite map ([gmap Z]); a table that only grows is the list of
      its rows in rowid order ([orders], [discount_usage], and [carts] of
      the first generation, which has no uniqueness on its user);
    - SQLite statements and Telegram calls are taken to succeed unless a
      definition says otherwise; Telegram calls do not touch the store. *)

From Stdlib Require Import ZArith QArith Qabs Qminmax Lqa String List Bool Lia.
From Stdlib Require Floats.SpecFloat.
From stdpp Require Import base option gmap.
Import ListNotations.

Local Open Scope string_scope.
Local Open Scope list_scope.
Local Open Scope Z_scope.

(** ** Python values and exceptions *)

Module Py.

Inductive exc : Set :=
| AttributeError
| TypeError
| ValueError
| OverflowError
| KeyError
| ClientError
| JSONDecodeError.

(** Result of evaluating Python code that may raise. *)
Inductive res (A : Type) : Type :=
| Ok (a : A)
| Raise (e : exc).
Arguments Ok {A} a.
Arguments Raise {A} e.

Definition bind {A B} (m : res A) (k : A -> res B) : res B :=
  match m with
  | Ok a => k a
  | Raise e => Raise e
  end.

(** [try: body / except Exception: return default]. *)
Definition catch {A} (body : res A) (default : A) : A :=
  match body with
  | Ok a => a
  | Raise _ => default
  end.

Definition raises {A} (m : res A) : bool :=
  match m with
  | Ok _ => false
  | Raise _ => true
  end.

Inductive pyfloat : Set :=
| Fin (q : Q)
| PosInf
| NegInf
| NaN.

Set Warnings "-register-all".

(** What [json.loads] produces: None, bool, int, float, str, list, dict.
    A dict is kept as its items, one entry per key. *)
Inductive pyval : Type :=
| PNone
| PBool (b : bool)
| PInt (z : Z)
| PFloat (f : pyfloat)
| PStr (s : string)
| PList (l : list pyval)
| PDict (d : list (string * pyval)).

Definition Qnonzero (q : Q) : bool := negb (Qeq_bool q 0).

(** Truth value of an object, as tested by [if x:] and [not x]. *)
Definition truthy (v : pyval) : bool :=
  match v with
  | PNone => false
  | PBool b => b
  | PInt z => negb (z =? 0)%Z
  | PFloat (Fin q) => Qnonzero q
  | PFloat _ => true
  | PStr s => negb (String.eqb s "")
  | PList l => match l with [] => false | _ :: _ => true end
  | PDict d => match d with [] => false | _ :: _ => true end
  end.

Fixpoint lookup_key (k : string) (d : list (string * pyval)) : option pyval :=
  match d with
  | [] => None
  | (k', v) :: rest => if String.eqb k k' then Some v else lookup_key k rest
  end.

(** [obj.get(key, default)]: only a dict has the method. *)
Definition get (obj : pyval) (key : string) (default : pyval) : res pyval :=
  match obj with
  | PDict d => Ok (match lookup_key key d with Some v => v | None => default end)
  | _ => Raise AttributeError
  end.

(** [obj == s] for a str [s]: only an equal str compares equal. *)
Definition eq_str (obj : pyval) (s : string) : bool :=
  match obj with
  | PStr t => String.eqb t s
  | _ => false
  end.

Definition Qtruncate (q : Q) : Z := Z.quot (Qnum q) (Zpos (Qden q)).

(** [int(x)]. The conversion of a str is Python's built-in parser, taken as
    the parameter [int_of_str] ([None] when it raises ValueError). *)
Definition int (int_of_str : string -> option Z) (v : pyval) : res Z :=
  match v with
  | PInt z => Ok z
  | PBool b => Ok (if b then 1 else 0)
  | PFloat (Fin q) => Ok (Qtruncate q)
  | PFloat NaN => Raise ValueError
  | PFloat _ => Raise OverflowError
  | PStr s => match int_of_str s with Some z => Ok z | None => Raise ValueError end
  | _ => Raise TypeError
  end.

Fixpoint chars (s : string) : list pyval :=
  match s with
  | EmptyString => []
  | String c rest => PStr (String c EmptyString) :: chars rest
  end.

(** The items a [for x in obj] loop visits. *)
Definition iter (obj : pyval) : res (list pyval) :=
  match obj with
  | PList l => Ok l
  | PStr s => Ok (chars s)
  | PDict d => Ok (map (fun kv => PStr (fst kv)) d)
  | _ => Raise TypeError
  end.

End Py.

Import Py.

Notation "'let*' x ':=' m 'in' k" := (Py.bind m (fun x => k))
  (at level 10, x name, m at level 100, k at level 200).

Definition Qltb (a b : Q) : bool := negb (Qle_bool b a).

(** ** Python floats

    A float is an IEEE 754 binary64 number, kept as the exact rational it
    stands for ([Fin]), an infinity or a NaN; every operation returns the
    float nearest to the exact result, ties to the even significand. The
    sign of a zero is not kept: nothing here divides by a float, prints
    one or takes its sign. *)

Module F64.

(** [2 ** 1074]: floats are counted in units of [2 ** -1074], the smallest
    positive one. *)
Definition units : positive := Pos.pow 2 1074.

(** The float nearest to [n / d]. With [N / d] the number in units, [e] is
    the exponent of its last place (53 significant bits, or the unit
    itself for a subnormal), [m] the significand rounded down and [r] what
    is left over. A result of [2 ** 1024] or more is an overflow. *)
Definition round_pos (n d : positive) : pyfloat :=
  let N := Zpos n * Zpos units in
  let e := Z.max 0 (Z.log2 (N / Zpos d) - 52) in
  let D := Zpos d * 2 ^ e in
  let m := N / D in
  let r := N mod D in
  let m' := if (D <? 2 * r) || ((2 * r =? D) && Z.odd m) then m + 1 else m in
  if 2 ^ 1024 * Zpos units <=? m' * 2 ^ e then PosInf
  else Fin (Qred (m' * 2 ^ e # units)).

Definition neg (a : pyfloat) : pyfloat :=
  match a with
  | Fin q => Fin (- q)
  | PosInf => NegInf
  | NegInf => PosInf
  | NaN => NaN
  end.

(** The float nearest to [q]. *)
Definition round (q : Q) : pyfloat :=
  match Qnum q with
  | Z0 => Fin 0
  | Zpos n => round_pos n (Qden q)
  | Zneg n => neg (round_pos n (Qden q))
  end.

Definition is_zero (q : Q) : bool := Qeq_bool q 0.

Definition is_negative (a : pyfloat) : bool :=
  match a with
  | Fin q => Qltb q 0
  | NegInf => true
  | _ => false
  end.

(** [a * b] *)
Definition mul (a b : pyfloat) : pyfloat :=
  match a, b with
  | NaN, _ | _, NaN => NaN
  | Fin x, Fin y => round (x * y)
  | Fin x, _ | _, Fin x =>
      if is_zero x then NaN
      else if xorb (is_negative a) (is_negative b) then NegInf else PosInf
  | _, _ => if xorb (is_negative a) (is_negative b) then NegInf else PosInf
  end.

(** [a - b] *)
Definition sub (a b : pyfloat) : pyfloat :=
  match a, b with
  | NaN, _ | _, NaN => NaN
  | Fin x, Fin y => round (x - y)
  | PosInf, PosInf | NegInf, NegInf => NaN
  | PosInf, _ | _, NegInf => PosInf
  | NegInf, _ | _, PosInf => NegInf
  end.

(** [x / n] for a finite float [x] and a positive int literal [n] below
    [2 ** 53], which converts to a float as it is. *)
Definition div_int (x : Q) (n : positive) : pyfloat :=
  round (x / (Zpos n # 1)).

(** [abs(a)] *)
Definition abs (a : pyfloat) : pyfloat :=
  match a with
  | Fin q => Fin (Qabs q)
  | NegInf => PosInf
  | _ => a
  end.

(** [a < b]: false as soon as a NaN is compared. *)
Definition lt (a b : pyfloat) : bool :=
  match a, b with
  | NaN, _ | _, NaN => false
  | Fin x, Fin y => Qltb x y
  | NegInf, NegInf | PosInf, _ | _, NegInf => false
  | NegInf, _ | _, PosInf => true
  end.

(** Python's [min(a, b)]: [b] when [b < a], else [a]. *)
Definition min (a b : pyfloat) : pyfloat := if lt b a then b else a.

(** The same quotient as the Standard Library's specification of IEEE 754
    division computes it, to compare with [round_pos]. *)
Definition of_spec (f : SpecFloat.spec_float) : pyfloat :=
  match f with
  | SpecFloat.S754_zero _ => Fin 0
  | SpecFloat.S754_infinity s => if s then NegInf else PosInf
  | SpecFloat.S754_nan => NaN
  | SpecFloat.S754_finite s m e =>
      let v := if 0 <=? e then Zpos m * 2 ^ e # 1
               else Zpos m # Z.to_pos (2 ^ (- e)) in
      Fin (Qred (if s then - v else v))
  end.

Definition spec_quotient (n d : positive) : pyfloat :=
  of_spec (SpecFloat.SFdiv 53 1024 (SpecFloat.S754_finite false n 0)
             (SpecFloat.S754_finite false d 0)).

Definition same_float (a b : pyfloat) : bool :=
  match a, b with
  | Fin x, Fin y => (Qnum x =? Qnum y) && Pos.eqb (Qden x) (Qden y)
  | PosInf, PosInf | NegInf, NegInf | NaN, NaN => true
  | _, _ => false
  end.

(** Quotients to compare on: plain ones, ties, subnormals, the largest
    floats and an overflow. *)
Definition probes : list (positive * positive) :=
  ((1, 1000) :: (59999000000, 1000000000) :: (7, 100) :: (1, 3) :: (2, 3)
   :: (1, 10) :: (123456789012345678901234567890, 1)
   :: (1, Pos.pow 2 1074) :: (1, Pos.pow 2 1075) :: (3, Pos.pow 2 1075)
   :: (1, Pos.pow 2 1076) :: (Pos.pow 2 1024, 1) :: (Pos.pow 2 1024 - 1, 1)
   :: (Pos.pow 2 1024 - Pos.pow 2 970, 1)
   :: (Pos.pow 2 1024 - Pos.pow 2 970 - 1, 1)
   :: (9007199254740993, 1) :: (9007199254740995, 1)
   :: (9007199254740991, 2) :: (4503599627370497, Pos.pow 2 1075)
   :: (4503599627370495, Pos.pow 2 1127) :: (1, 7) :: (10, 3)
   :: (Pos.pow 10 400, Pos.pow 10 95)
   :: (314159, 100000 * Pos.pow 2 1030) :: nil)%positive.

(** What [round_pos] chooses: the exponent [e] of the last place and the
    significand [m'], the nearest to [n / d] in units of [2 ** e]. *)
Record chosen (n d : positive) (e m' : Z) : Prop := {
  chosen_exponent :
    e = Z.max 0 (Z.log2 (Zpos n * 2 ^ 1074 / Zpos d) - 52);
  chosen_floor :
    Zpos n * 2 ^ 1074 / (Zpos d * 2 ^ e) <= m';
  chosen_nearest :
    2 * Z.abs (m' * (Zpos d * 2 ^ e) - Zpos n * 2 ^ 1074) <= Zpos d * 2 ^ e
}.

(** Half a unit in the last place of [x], at least: what one rounding can
    be off by. *)
Definition half_ulp (x : Q) : Q :=
  Qmax (Qabs x * (1 # Pos.pow 2 53)) (1 # Pos.pow 2 1075).

(** [y] is [x] after one rounding. *)
Definition close_to (x y : Q) : Prop := (Qabs (y - x) <= half_ulp x)%Q.

(** [x] is a float, given by any fraction that stands for it. *)
Definition is_float (x : Q) : Prop :=
  exists y, round x = Fin y /\ (y == x)%Q.

End F64.

(** ** ton_payments.py *)

Module Ton.

Section Processor.

(** [TON_WALLET_ADDRESS] and [MIN_TON_AMOUNT] of config.py (read from the
    process environment), and Python's [int] on a str. *)
Variable wallet_address : string.
Variable MIN_TON_AMOUNT : Q.
Variable int_of_str : string -> option Z.

Definition _is_incoming_transaction_body (tx : pyval) : res bool :=
  let* in_msg := Py.get tx "in_msg" (PDict []) in
  if negb (truthy in_msg) then Ok false
  else
    let* destination := Py.get in_msg "destination" PNone in
    Ok (eq_str destination wallet_address).

Definition _is_incoming_transaction (tx : pyval) : bool :=
  catch (_is_incoming_transaction_body tx) false.

Definition nano : Q := 1000000000 # 1.

(** [value / 1_000_000_000] divides an int by an int: the quotient is
    rounded once, and one too large for a float raises OverflowError. *)
Definition _get_transaction_amount_body (tx : pyval) : res Q :=
  let* in_msg := Py.get tx "in_msg" (PDict []) in
  let* raw := Py.get in_msg "value" (PStr "0") in
  let* value := Py.int int_of_str raw in
  match F64.round (inject_Z value / nano) with
  | Fin amount => Ok amount
  | _ => Raise OverflowError
  end.

Definition _get_transaction_amount (tx : pyval) : Q :=
  catch (_get_transaction_amount_body tx) 0%Q.

Definition _get_transaction_comment_body (tx : pyval) : res pyval :=
  let* in_msg := Py.get tx "in_msg" (PDict []) in
  let* msg_data := Py.get in_msg "msg_data" (PDict []) in
  let* ty := Py.get msg_data "@type" PNone in
  let* text := (if eq_str ty "msg.dataText"
           then Py.get msg_data "text" (PStr "")
           else Ok (PStr "")) in
  if eq_str ty "msg.dataText" && truthy text then Ok text
  else
    let* body := Py.get in_msg "message" (PStr "") in
    if truthy body then Ok body else Ok (PStr "").

Definition _get_transaction_comment (tx : pyval) : pyval :=
  catch (_get_transaction_comment_body tx) (PStr "").

(** [tx.get('transaction_id', {}).get('hash', '')]. *)
Definition transaction_hash (tx : pyval) : res pyval :=
  let* tid := Py.get tx "transaction_id" (PDict []) in
  Py.get tid "hash" (PStr "").

(** [0.001], the float: a little more than a thousandth. *)
Definition amount_tolerance : Q := 1152921504606847 # 1152921504606846976.

(** [abs(tx_amount - expected_amount) < 0.001] *)
Definition amount_close (tx_amount expected_amount : Q) : bool :=
  F64.lt (F64.abs (F64.sub (Fin tx_amount) (Fin expected_amount)))
    (Fin amount_tolerance).

(** One iteration of the [for tx in transactions] loop of [verify_payment]:
    [Ok (Some h)] when it executes [return True, tx_hash], [Ok None] when
    it goes on to the next transaction. *)
Definition check_transaction (expected_amount : Q) (comment : string)
    (tx : pyval) : res (option pyval) :=
  if negb (_is_incoming_transaction tx) then Ok None
  else
    let tx_amount := _get_transaction_amount tx in
    let tx_comment := _get_transaction_comment tx in
    let* tx_hash := transaction_hash tx in
    if amount_close tx_amount expected_amount
       && eq_str tx_comment comment
    then Ok (Some tx_hash)
    else Ok None.

Fixpoint scan_transactions (expected_amount : Q) (comment : string)
    (txs : list pyval) : res (option pyval) :=
  match txs with
  | [] => Ok None
  | tx :: rest =>
      let* found := check_transaction expected_amount comment tx in
      match found with
      | Some h => Ok (Some h)
      | None => scan_transactions expected_amount comment rest
      end
  end.

(** What one request to the ledger service does. *)
Inductive http_body : Type :=
| BodyJson (data : pyval)
| BodyUndecodable.

Inductive fetch_event : Type :=
| ConnectionFailed
| Response (status : Z) (body : http_body).

Definition get_transaction_history_body (ev : fetch_event) : res pyval :=
  match ev with
  | ConnectionFailed => Raise ClientError
  | Response status body =>
      if (status =? 200)%Z then
        let* data := match body with
                | BodyJson d => Ok d
                | BodyUndecodable => Raise JSONDecodeError
                end in
        let* ok := Py.get data "ok" PNone in
        if truthy ok then Py.get data "result" (PList [])
        else Ok (PList [])
      else Ok (PList [])
  end.

Definition get_transaction_history (ev : fetch_event) : pyval :=
  catch (get_transaction_history_body ev) (PList []).

(** The body of the [try] block of one polling round, up to the sleep. *)
Definition poll_round (expected_amount : Q) (comment : string)
    (ev : fetch_event) : res (option pyval) :=
  let* transactions := Py.iter (get_transaction_history ev) in
  scan_transactions expected_amount comment transactions.

(** ** The polling loop of [verify_payment]

    The environment of the loop gives, for each round, what the request to
    the ledger does and how long the round takes: the request lasts
    [fetch_us] microseconds and [asyncio.sleep(check_interval)] returns
    after at least ten seconds ([oversleep_us] more). *)
Record round : Type := {
  fetch : fetch_event;
  fetch_us : N;
  oversleep_us : N
}.

Definition check_interval_us : Z := 10 * 1000000.

Definition round_us (r : round) : Z :=
  Z.of_N (fetch_us r) + check_interval_us + Z.of_N (oversleep_us r).

(** How a call of [verify_payment] ends: the tuple it returns, the clock
    (microseconds since [start_time]) and the number of rounds started
    before that. *)
Record verdict : Type := {
  success : bool;
  tx_hash : pyval;
  ended_at : Z;
  rounds_before : nat
}.

(** [while datetime.now() - start_time < timedelta(seconds=timeout)], with
    [fuel] bounding the number of loop tests; [None] is fuel exhaustion. *)
Fixpoint poll (expected_amount : Q) (comment : string) (timeout : Z)
    (env : nat -> round) (fuel : nat) (k : nat) (elapsed : Z)
    : option verdict :=
  match fuel with
  | O => None
  | S fuel' =>
      if elapsed <? timeout * 1000000 then
        match poll_round expected_amount comment (fetch (env k)) with
        | Ok (Some h) =>
            Some {| success := true; tx_hash := h;
                    ended_at := elapsed + Z.of_N (fetch_us (env k));
                    rounds_before := S k |}
        | Ok None | Raise _ =>
            poll expected_amount comment timeout env fuel' (S k)
              (elapsed + round_us (env k))
        end
      else
        Some {| success := false; tx_hash := PNone;
                ended_at := elapsed; rounds_before := k |}
  end.

(** Every round lasts at least [check_interval_us], so this many loop
    tests are enough for any environment. *)
Definition enough_fuel (timeout : Z) : nat :=
  S (Z.to_nat (timeout * 1000000 / check_interval_us + 1)).

Definition verify_payment (expected_amount : Q) (comment : string)
    (timeout : Z) (env : nat -> round) : option verdict :=
  poll expected_amount comment timeout env (enough_fuel timeout) O 0.

(** [validate_amount]; the first message stands for the f-string that
    also prints the minimum. *)
Definition validate_amount (amount : Q) : bool * string :=
  if Qltb amount MIN_TON_AMOUNT then (false, "Minimum payment amount")
  else if Qltb (1000 # 1) amount then (false, "Payment amount too large")
  else (true, "Valid amount").

(** [f"ORDER_{order_id}_{user_id}"], with the decimal rendering of an int
    taken as the parameter [str_of_int]. *)
Definition order_comment (str_of_int : Z -> string) (order_id user_id : Z)
    : string :=
  ("ORDER_" ++ str_of_int order_id ++ "_" ++ str_of_int user_id)%string.

(** *** Vocabulary of the statements about the matcher *)

(** The three tests that make a loop iteration return [True, h]. *)
Definition is_match (expected_amount : Q) (comment : string) (tx h : pyval)
    : Prop :=
  _is_incoming_transaction tx = true /\
  (Qabs (_get_transaction_amount tx - expected_amount) < amount_tolerance)%Q /\
  _get_transaction_comment tx = PStr comment /\
  transaction_hash tx = Ok h.

(** A transaction without a memo: the decoder found no comment text. *)
Definition memo_absent (tx : pyval) : Prop :=
  _get_transaction_comment tx = PStr "".

(** A round, or a scan, that does not end the call. *)
Definition no_match (r : res (option pyval)) : Prop :=
  match r with
  | Ok (Some _) => False
  | _ => True
  end.

Definition is_list (v : pyval) : bool :=
  match v with
  | PList _ => true
  | _ => false
  end.

(** A failed fetch: no connection, a status other than 200, a body that
    is not JSON, or a payload that is no object with a truthy [ok] and a
    list under [result]. *)
Definition fetch_failure (ev : fetch_event) : bool :=
  match ev with
  | ConnectionFailed => true
  | Response status body =>
      negb (status =? 200) ||
      match body with
      | BodyUndecodable => true
      | BodyJson (PDict d) =>
          match lookup_key "ok" d, lookup_key "result" d with
          | Some ok, Some result => negb (truthy ok) || negb (is_list result)
          | Some ok, None => negb (truthy ok)
          | None, _ => true
          end
      | BodyJson _ => true
      end
  end.

End Processor.

End Ton.

(** ** utils.py *)

Module Utils.

(** Python's [min(a, b)]: [b] when [b < a], else [a]. *)
Definition min (a b : Q) : Q := if Qltb b a then b else a.

Definition calculate_discount (total_amount : Q) (discount_type : string)
    (discount_value : Q) : pyfloat :=
  let discount :=
    if String.eqb discount_type "percentage"
    then F64.mul (Fin total_amount) (F64.div_int discount_value 100)
    else Fin discount_value in
  F64.min discount (Fin total_amount).

(** The discount amount in the words of the specification: the percentage
    of the subtotal or the fixed value, at most the subtotal and at least
    zero. *)
Definition spec_discount (subtotal : Q) (discount_type : string)
    (value : Q) : Q :=
  Qmax 0 (Qmin (if String.eqb discount_type "percentage"
                then subtotal * value / (100 # 1)
                else value) subtotal)%Q.

(** What the percentage of a subtotal comes to before it is clamped: the
    rate is the rounded hundredth of the value, and the product is rounded
    once more, or overflows. *)
Definition percentage_of (subtotal value raw : Q) : Prop :=
  exists rate,
    F64.div_int value 100 = Fin rate /\
    F64.close_to (value / (100 # 1)) rate /\
    F64.mul (Fin subtotal) (Fin rate) = Fin raw /\
    F64.close_to (subtotal * rate) raw.

End Utils.

(** Order status, the five values the [CHECK] constraint of both [orders]
    tables admits. *)
Inductive order_status : Set :=
| pending
| paid
| shipped
| delivered
| cancelled.

(** ** First generation: database.py, cart_manager.py, main.py *)

Module Gen1.

Record product : Type := {
  name : string;
  type : string;
  price : Q;
  stock_quantity : Z
}.

(** A value of the cart dict: [{'product_id', 'quantity', 'added_at'}]. *)
Record cart_entry : Type := {
  product_id : Z;
  quantity : Z
}.

(** [cart_data]: the dict from product key to entry, in insertion order. *)
Definition cart : Type := list (string * cart_entry).

(** A row of [carts]. The table has its own AUTOINCREMENT [id] and no
    UNIQUE constraint on [user_id]. *)
Record cart_row : Type := {
  row_user_id : Z;
  cart_data : cart
}.

Record item : Type := {
  item_product_id : Z;
  item_name : string;
  item_type : string;
  item_price : Q;
  item_quantity : Z;
  available_quantity : Z;
  total_price : Q;
  in_stock : bool;
  stock_available : Z
}.

Record order : Type := {
  user_id : Z;
  order_data : list item;
  total_amount : Q;
  discount_code : option string;
  discount_amount : Q;
  status : order_status;
  payment_hash : option string
}.

(** The tables the checkout touches. Rows of [carts] and [orders] are in
    rowid order; the order with id [n] is row [n - 1] (nothing deletes from
    [orders]). *)
Record db : Type := {
  products : gmap Z product;
  carts : list cart_row;
  orders : list order
}.

Definition get_product (d : db) (pid : Z) : option product :=
  products d !! pid.

(** [SELECT cart_data FROM carts WHERE user_id = ?] followed by
    [fetchone()]: the first row of the user in rowid order. *)
Definition get_cart (d : db) (user : Z) : cart :=
  match List.find (fun r => row_user_id r =? user) (carts d) with
  | Some r => cart_data r
  | None => []
  end.

(** [INSERT OR REPLACE INTO carts (user_id, cart_data, updated_at)]: no
    uniqueness constraint can be violated, so a row is always added, and
    [cursor.rowcount > 0] is [True]. *)
Definition update_cart (d : db) (user : Z) (c : cart) : db * bool :=
  ({| products := products d;
      carts := carts d ++ [{| row_user_id := user; cart_data := c |}];
      orders := orders d |}, true).

Definition db_clear_cart (d : db) (user : Z) : db * bool :=
  update_cart d user [].

Definition create_order (d : db) (user : Z) (items : list item)
    (total : Q) : db * Z :=
  ({| products := products d;
      carts := carts d;
      orders := orders d ++
        [{| user_id := user; order_data := items; total_amount := total;
            discount_code := None; discount_amount := 0%Q;
            status := pending; payment_hash := None |}] |},
   Z.of_nat (S (length (orders d)))).

Definition get_order (d : db) (order_id : Z) : option order :=
  if 0 <? order_id then orders d !! Z.to_nat (order_id - 1) else None.

Definition set_status (st : order_status) (h : option string) (o : order)
    : order :=
  {| user_id := user_id o; order_data := order_data o;
     total_amount := total_amount o; discount_code := discount_code o;
     discount_amount := discount_amount o; status := st;
     payment_hash := match h with Some _ => h | None => payment_hash o end |}.

(** [UPDATE orders SET status = ? (, payment_hash = ?) WHERE id = ?]; the
    hash is written when it is truthy. Returns [cursor.rowcount > 0]. *)
Definition update_order_status (d : db) (order_id : Z) (st : order_status)
    (h : option string) : db * bool :=
  match get_order d order_id with
  | Some _ =>
      let h' := match h with
                | Some s => if String.eqb s "" then None else Some s
                | None => None
                end in
      ({| products := products d; carts := carts d;
          orders := alter (set_status st h') (Z.to_nat (order_id - 1))
                      (orders d) |}, true)
  | None => (d, false)
  end.

Definition Zmin (a b : Z) : Z := if b <? a then b else a.

(** [CartManager.get_cart_items]: an entry whose product is gone is left
    out. *)
Fixpoint cart_items (d : db) (c : cart) : list item :=
  match c with
  | [] => []
  | (_, e) :: rest =>
      match get_product d (product_id e) with
      | Some p =>
          let avail := Zmin (quantity e) (stock_quantity p) in
          {| item_product_id := product_id e;
             item_name := name p;
             item_type := type p;
             item_price := price p;
             item_quantity := quantity e;
             available_quantity := avail;
             total_price := (price p * inject_Z (quantity e))%Q;
             in_stock := avail =? quantity e;
             stock_available := stock_quantity p |} :: cart_items d rest
      | None => cart_items d rest
      end
  end.

Definition get_cart_items (d : db) (user : Z) : list item :=
  cart_items d (get_cart d user).

Definition get_cart_total (d : db) (user : Z) : Q :=
  fold_left (fun acc i => if in_stock i then (acc + total_price i)%Q else acc)
    (get_cart_items d user) 0%Q.

(** [CartManager.clear_cart]: the success flag of the reply. *)
Definition clear_cart (d : db) (user : Z) : db * bool :=
  db_clear_cart d user.

Inductive reply : Type :=
| CartIsEmpty
| FailedToCreateOrder
| SendFailed
| PaymentInstructions (ton_amount : Q) (order_id : Z) (comment : string).

Section Bot.

(** [TON_CONVERSION_RATE] of config.py and the decimal rendering of an int
    in an f-string. *)
Variable TON_CONVERSION_RATE : Q.
Variable str_of_int : Z -> string.

(** [MoonFitBot.start_checkout]. [sent] tells whether
    [query.edit_message_text] returns; when it raises, the handler is left
    before its last statement. *)
Definition start_checkout (d : db) (user : Z) (sent : bool) : db * reply :=
  let items := get_cart_items d user in
  match items with
  | [] => (d, CartIsEmpty)
  | _ :: _ =>
      let total := get_cart_total d user in
      let '(d1, order_id) := create_order d user items total in
      if order_id =? 0 then (d1, FailedToCreateOrder)
      else
        let ton_amount := (total * TON_CONVERSION_RATE)%Q in
        let comment := Ton.order_comment str_of_int order_id user in
        if sent then
          let '(d2, _) := clear_cart d1 user in
          (d2, PaymentInstructions ton_amount order_id comment)
        else (d1, SendFailed)
  end.

End Bot.

End Gen1.

(** ** Second generation: database_1753438860626.py,
    cart_manager_1753438860467.py, discount_manager_1753438860741.py,
    admin_panel_1753438860393.py, main_1753438860935.py *)

Module Gen2.

Record product : Type := {
  name : string;
  type : string;
  price : Q;
  stock_quantity : Z;
  active : bool
}.

(** An element of the cart list kept in [users.cart_data]. *)
Record cart_item : Type := {
  product_id : Z;
  item_name : string;
  item_type : string;
  item_price : Q;
  quantity : Z;
  total_price : Q
}.

Record order : Type := {
  user_id : Z;
  order_products : list cart_item;
  total_amount : Q;
  discount_code : option string;
  discount_amount : Q;
  final_amount : Q;
  status : order_status;
  payment_hash : option pyval
}.

Record discount : Type := {
  id : Z;
  code : string;
  discount_type : string;
  discount_value : Q;
  usage_limit : option Z;
  used_count : Z;
  expiry_date : option Z;
  code_active : bool
}.

(** A row of [discount_usage]. *)
Record usage : Type := {
  code_id : Z;
  usage_user_id : Z;
  usage_order_id : Z
}.

(** The keys of a session's [data] dict that the checkout reads or
    writes; [None] is a missing key. *)
Record state_data : Type := {
  sd_order_id : option Z;
  sd_amount : option Q;
  sd_comment : option string;
  sd_discount_code : option string;
  sd_discount_amount : option Q
}.

Definition no_data : state_data :=
  {| sd_order_id := None; sd_amount := None; sd_comment := None;
     sd_discount_code := None; sd_discount_amount := None |}.

Record session : Type := {
  state : string;
  data : state_data
}.

(** [users] (primary key [user_id]; only [cart_data] is kept),
    [products], [orders] (row [n - 1] holds the order with id [n]),
    [discount_codes], [discount_usage] and [user_sessions] (primary key
    [user_id]). *)
Record db : Type := {
  users : gmap Z (list cart_item);
  products : gmap Z product;
  orders : list order;
  discount_codes : list discount;
  discount_usage : list usage;
  user_sessions : gmap Z session
}.

Definition with_users (d : db) (u : gmap Z (list cart_item)) : db :=
  {| users := u; products := products d; orders := orders d;
     discount_codes := discount_codes d; discount_usage := discount_usage d;
     user_sessions := user_sessions d |}.

Definition with_orders (d : db) (o : list order) : db :=
  {| users := users d; products := products d; orders := o;
     discount_codes := discount_codes d; discount_usage := discount_usage d;
     user_sessions := user_sessions d |}.

Definition with_sessions (d : db) (s : gmap Z session) : db :=
  {| users := users d; products := products d; orders := orders d;
     discount_codes := discount_codes d; discount_usage := discount_usage d;
     user_sessions := s |}.

Definition get_user_cart (d : db) (user : Z) : list cart_item :=
  match users d !! user with
  | Some c => c
  | None => []
  end.

(** [UPDATE users SET cart_data = ? WHERE user_id = ?]. *)
Definition update_user_cart (d : db) (user : Z) (c : list cart_item) : db :=
  with_users d (alter (fun _ => c) user (users d)).

Definition clear_user_cart (d : db) (user : Z) : db :=
  update_user_cart d user [].

(** [SELECT * FROM products WHERE id = ? AND active = TRUE]. *)
Definition get_product (d : db) (pid : Z) : option product :=
  match products d !! pid with
  | Some p => if active p then Some p else None
  | None => None
  end.

Definition create_order (d : db) (user : Z) (items : list cart_item)
    (total : Q) (dcode : option string) (damount : Q) (final : Q) : db * Z :=
  (with_orders d
     (orders d ++
        [{| user_id := user; order_products := items; total_amount := total;
            discount_code := dcode; discount_amount := damount;
            final_amount := final; status := pending;
            payment_hash := None |}]),
   Z.of_nat (S (length (orders d)))).

Definition get_order (d : db) (order_id : Z) : option order :=
  if 0 <? order_id then orders d !! Z.to_nat (order_id - 1) else None.

Definition set_status (st : order_status) (h : option pyval) (o : order)
    : order :=
  {| user_id := user_id o; order_products := order_products o;
     total_amount := total_amount o; discount_code := discount_code o;
     discount_amount := discount_amount o; final_amount := final_amount o;
     status := st;
     payment_hash := match h with Some _ => h | None => payment_hash o end |}.

(** [if payment_hash:] the hash is written only when it is truthy. *)
Definition keep_hash (h : option pyval) : option pyval :=
  match h with
  | Some v => if truthy v then Some v else None
  | None => None
  end.

(** [UPDATE orders SET status = ? (, payment_hash = ?) WHERE id = ?].
    Nothing here reads the status the order had. *)
Definition update_order_status (d : db) (order_id : Z) (st : order_status)
    (h : option pyval) : db :=
  if 0 <? order_id
  then with_orders d
         (alter (set_status st (keep_hash h)) (Z.to_nat (order_id - 1))
            (orders d))
  else d.

(** [SELECT * FROM discount_codes WHERE code = ? AND active = TRUE]. *)
Definition get_discount_code (d : db) (c : string) : option discount :=
  List.find (fun r => String.eqb (code r) c && code_active r)
    (discount_codes d).

Inductive verdict : Set :=
| NotFoundOrInactive
| Expired
| UsageLimitReached
| AlreadyUsed
| ValidCode.

Definition limit_reached (r : discount) : bool :=
  match usage_limit r with
  | Some l => negb (l =? 0) && (l <=? used_count r)
  | None => false
  end.

(** [datetime.now() > expiry], for a code that has an expiry date. *)
Definition expired (r : discount) (now : Z) : bool :=
  match expiry_date r with
  | Some expiry => expiry <? now
  | None => false
  end.

Definition used_by (d : db) (cid user : Z) : bool :=
  existsb (fun r => (code_id r =? cid) && (usage_user_id r =? user))
    (discount_usage d).

(** [Database.validate_discount_code], evaluated at time [now]. *)
Definition validate_discount_code (d : db) (now : Z) (c : string) (user : Z)
    : bool * verdict * option discount :=
  match get_discount_code d c with
  | None => (false, NotFoundOrInactive, None)
  | Some r =>
      if expired r now then (false, Expired, None)
      else if limit_reached r then (false, UsageLimitReached, None)
      else if used_by d (id r) user then (false, AlreadyUsed, None)
      else (true, ValidCode, Some r)
  end.

Definition bump (cid : Z) (r : discount) : discount :=
  if id r =? cid
  then {| id := id r; code := code r; discount_type := discount_type r;
          discount_value := discount_value r; usage_limit := usage_limit r;
          used_count := used_count r + 1; expiry_date := expiry_date r;
          code_active := code_active r |}
  else r.

(** [Database.use_discount_code]: one more usage row and
    [used_count = used_count + 1] on the code. *)
Definition use_discount_code (d : db) (cid user order_id : Z) : db :=
  {| users := users d; products := products d; orders := orders d;
     discount_codes := map (bump cid) (discount_codes d);
     discount_usage := discount_usage d ++
       [{| code_id := cid; usage_user_id := user;
           usage_order_id := order_id |}];
     user_sessions := user_sessions d |}.

(** [INSERT OR REPLACE INTO user_sessions]. *)
Definition set_user_state (d : db) (user : Z) (st : string)
    (sd : state_data) : db :=
  with_sessions d (<[user := {| state := st; data := sd |}]> (user_sessions d)).

Definition get_user_state (d : db) (user : Z) : option string * state_data :=
  match user_sessions d !! user with
  | Some s => (Some (state s), data s)
  | None => (None, no_data)
  end.

Definition clear_user_state (d : db) (user : Z) : db :=
  with_sessions d (delete user (user_sessions d)).

(** *** cart_manager *)

Record cart_summary : Type := {
  items : list cart_item;
  total_items : Z;
  total_price_sum : Q;
  is_empty : bool
}.

Definition get_cart_summary (d : db) (user : Z) : cart_summary :=
  match get_user_cart d user with
  | [] => {| items := []; total_items := 0; total_price_sum := 0%Q;
             is_empty := true |}
  | c =>
      {| items := c;
         total_items := fold_left (fun acc i => acc + quantity i) c 0;
         total_price_sum := fold_left (fun acc i => (acc + total_price i)%Q) c 0%Q;
         is_empty := false |}
  end.

Definition clear_cart (d : db) (user : Z) : db := clear_user_cart d user.

Inductive cart_error : Set :=
| NoLongerAvailable
| Discontinued
| QuantityReduced
| OutOfStock
| PriceUpdated.

(** The three accumulators of the loop of [validate_cart]. *)
Record validation : Type := {
  updated_cart : list cart_item;
  errors : list cart_error;
  cart_modified : bool
}.

Definition dropped (acc : validation) (e : cart_error) : validation :=
  {| updated_cart := updated_cart acc; errors := errors acc ++ [e];
     cart_modified := true |}.

Definition with_quantity (i : cart_item) (q : Z) : cart_item :=
  {| product_id := product_id i; item_name := item_name i;
     item_type := item_type i; item_price := item_price i; quantity := q;
     total_price := (inject_Z q * item_price i)%Q |}.

Definition with_price (i : cart_item) (p : Q) : cart_item :=
  {| product_id := product_id i; item_name := item_name i;
     item_type := item_type i; item_price := p; quantity := quantity i;
     total_price := (inject_Z (quantity i) * p)%Q |}.

Definition price_tolerance : Q := 1 # 1000.

Definition validate_item (d : db) (acc : validation) (i : cart_item)
    : validation :=
  match get_product d (product_id i) with
  | None => dropped acc NoLongerAvailable
  | Some p =>
      if negb (active p) then dropped acc Discontinued
      else if (stock_quantity p <? quantity i) && negb (0 <? stock_quantity p)
      then dropped acc OutOfStock
      else
        let acc1 :=
          if stock_quantity p <? quantity i
          then (with_quantity i (stock_quantity p),
                errors acc ++ [QuantityReduced], true)
          else (i, errors acc, cart_modified acc) in
        let '(i1, errs1, m1) := acc1 in
        let acc2 :=
          if Qltb price_tolerance (Qabs (price p - item_price i1))
          then (with_price i1 (price p), errs1 ++ [PriceUpdated], true)
          else (i1, errs1, m1) in
        let '(i2, errs2, m2) := acc2 in
        {| updated_cart := updated_cart acc ++ [i2]; errors := errs2;
           cart_modified := m2 |}
  end.

Definition validate_loop (d : db) (c : list cart_item) (acc : validation)
    : validation :=
  fold_left (validate_item d) c acc.

Definition validate_cart (d : db) (user : Z) : db * bool :=
  let v := validate_loop d (get_user_cart d user)
             {| updated_cart := []; errors := []; cart_modified := false |} in
  let d' := if cart_modified v then update_user_cart d user (updated_cart v)
            else d in
  (d', match errors v with [] => true | _ :: _ => false end).

(** [prepare_order_data]: the summary is taken before the validation. *)
Definition prepare_order_data (d : db) (user : Z)
    : db * option cart_summary :=
  let summary := get_cart_summary d user in
  if is_empty summary then (d, None)
  else
    let '(d', is_valid) := validate_cart d user in
    if is_valid then (d', Some summary) else (d', None).

(** *** discount_manager, admin_panel and the handlers of main *)

Inductive reply : Type :=
| UnableToProcessOrder
| PaymentInstructions (amount : Q) (order_id : Z) (comment : string)
| NoPendingPayment
| HandlerRaised (e : exc)
| Unfinished
| PaymentConfirmed (order_id : Z) (h : pyval)
| PaymentNotFoundYet
| OrderCancelled
| NoPendingOrderToCancel.

Definition waiting_order (st : option string) (sd : state_data) : option Z :=
  match st, sd_order_id sd with
  | Some s, Some oid =>
      if String.eqb s "WAITING_PAYMENT" && negb (oid =? 0) then Some oid
      else None
  | _, _ => None
  end.

(** *** Vocabulary of the statements about the store *)

(** User [u] has an open payment for order [oid]. *)
Definition waits_for (d : db) (u oid : Z) : Prop :=
  exists s, user_sessions d !! u = Some s /\
            waiting_order (Some (state s)) (data s) = Some oid.

(** The open payments of a store are for pending orders, one user each. *)
Record sound (d : db) : Prop := {
  waiting_is_pending :
    forall u oid, waits_for d u oid ->
                  exists o, get_order d oid = Some o /\ status o = pending;
  waiting_is_exclusive :
    forall u v oid, waits_for d u oid -> waits_for d v oid -> u = v
}.

(** What a handler does to [orders] and [user_sessions]. *)
Inductive step (d d' : db) : Prop :=
| step_quiet :
    orders d' = orders d -> user_sessions d' = user_sessions d -> step d d'
| step_session u st sd :
    orders d' = orders d ->
    user_sessions d' = <[u := {| state := st; data := sd |}]> (user_sessions d) ->
    (forall oid, waiting_order (Some st) sd = Some oid -> waits_for d u oid) ->
    step d d'
| step_forget u :
    orders d' = orders d ->
    user_sessions d' = delete u (user_sessions d) ->
    step d d'
| step_open u o sd :
    status o = pending ->
    orders d' = orders d ++ [o] ->
    sd_order_id sd = Some (Z.of_nat (S (length (orders d)))) ->
    user_sessions d'
    = <[u := {| state := "WAITING_PAYMENT"; data := sd |}]> (user_sessions d) ->
    step d d'
| step_close u oid st h :
    waits_for d u oid ->
    0 < oid ->
    orders d' = alter (set_status st h) (Z.to_nat (oid - 1)) (orders d) ->
    user_sessions d' = delete u (user_sessions d) ->
    step d d'.

(** Two stores that differ in [users] at most. *)
Definition same_but_users (d d' : db) : Prop :=
  d' = with_users d (users d').

(** The usage ledger holds a row for the code [c] and the user. *)
Definition has_used (d : db) (c : string) (user : Z) : Prop :=
  exists cid, In (cid, c) (map (fun r => (id r, code r)) (discount_codes d)) /\
              used_by d cid user = true.

(** The ledger only grows and the codes keep their ids. *)
Definition ledger_extends (d d' : db) : Prop :=
  map (fun r => (id r, code r)) (discount_codes d')
  = map (fun r => (id r, code r)) (discount_codes d) /\
  exists rows, discount_usage d' = discount_usage d ++ rows.

Section Bot.

(** [TON_WALLET_ADDRESS], Python's [int] on a str, the decimal rendering
    of an int in an f-string, and [str.upper]. *)
Variable wallet_address : string.
Variable int_of_str : string -> option Z.
Variable str_of_int : Z -> string.
Variable upper : string -> string.

(** [DiscountManager.apply_discount]. *)
Definition apply_discount (d : db) (now : Z) (c : string) (user : Z)
    (total : Q) : bool * verdict * pyfloat :=
  match validate_discount_code d now (upper c) user with
  | (true, msg, Some r) =>
      let amount :=
        if String.eqb (discount_type r) "percentage"
        then F64.mul (Fin total) (F64.div_int (discount_value r) 100)
        else Fin (Utils.min (discount_value r) total) in
      (true, msg, F64.min amount (Fin total))
  | (_, msg, _) => (false, msg, Fin 0)
  end.

Definition get_discount_info (d : db) (c : string) : option discount :=
  get_discount_code d (upper c).

(** [handle_discount_code_input]: a valid code is kept in the session.
    The amounts of the store are finite. The one amount that is not, the
    [-inf] of a cart total and a code value of opposite signs whose product
    overflows, is not kept. *)
Definition handle_discount_code_input (d : db) (now : Z) (user : Z)
    (c : string) : db :=
  let summary := get_cart_summary d user in
  match apply_discount d now c user (total_price_sum summary) with
  | (true, _, Fin amount) =>
      set_user_state d user "CHECKOUT"
        {| sd_order_id := None; sd_amount := None; sd_comment := None;
           sd_discount_code := Some (upper c);
           sd_discount_amount := Some amount |}
  | (_, _, _) => d
  end.

Definition remove_discount (d : db) (user : Z) : db :=
  match user_sessions d !! user with
  | Some s =>
      match sd_discount_code (data s) with
      | Some c =>
          if String.eqb c "" then d
          else set_user_state d user (state s)
                 {| sd_order_id := sd_order_id (data s);
                    sd_amount := sd_amount (data s);
                    sd_comment := sd_comment (data s);
                    sd_discount_code := None;
                    sd_discount_amount := None |}
      | None => d
      end
  | None => d
  end.

(** [MoonFitBot.process_payment]. Its messages are sent after the last
    write to the store. *)
Definition process_payment (d : db) (user : Z) : db * reply :=
  match prepare_order_data d user with
  | (d1, None) => (d1, UnableToProcessOrder)
  | (d1, Some order_data) =>
      let '(_, sd) := get_user_state d1 user in
      let dcode := sd_discount_code sd in
      let damount := match sd_discount_amount sd with
                     | Some a => a
                     | None => 0%Q
                     end in
      let final := (total_price_sum order_data - damount)%Q in
      let '(d2, order_id) :=
        create_order d1 user (items order_data) (total_price_sum order_data)
          dcode damount final in
      let comment := Ton.order_comment str_of_int order_id user in
      (set_user_state d2 user "WAITING_PAYMENT"
         {| sd_order_id := Some order_id; sd_amount := Some final;
            sd_comment := Some comment; sd_discount_code := None;
            sd_discount_amount := None |},
       PaymentInstructions final order_id comment)
  end.

(** The writes of [check_payment_status] once the payment is verified. *)
Definition settle (d : db) (user order_id : Z) (h : pyval)
    (sd : state_data) : db :=
  let d1 := update_order_status d order_id paid (Some h) in
  let d2 := clear_cart d1 user in
  let d3 := clear_user_state d2 user in
  match sd_discount_code sd with
  | Some c =>
      if String.eqb c "" then d3
      else match get_discount_info d3 c with
           | Some r => use_discount_code d3 (id r) user order_id
           | None => d3
           end
  | None => d3
  end.

(** [MoonFitBot.check_payment_status]; [env] is what the ledger and the
    clock do during the five-second verification. *)
Definition check_payment_status (d : db) (user : Z) (env : nat -> Ton.round)
    : db * reply :=
  let '(st, sd) := get_user_state d user in
  match waiting_order st sd with
  | None => (d, NoPendingPayment)
  | Some order_id =>
      match sd_amount sd, sd_comment sd with
      | Some expected_amount, Some comment =>
          match Ton.verify_payment wallet_address int_of_str
                  expected_amount comment 5 env with
          | None => (d, Unfinished)
          | Some v =>
              if Ton.success v
              then (settle d user order_id (Ton.tx_hash v) sd,
                    PaymentConfirmed order_id (Ton.tx_hash v))
              else (d, PaymentNotFoundYet)
          end
      | _, _ => (d, HandlerRaised KeyError)
      end
  end.

(** [MoonFitBot.cancel_current_order], with the [clear_user_state] of
    [show_main_menu] it ends with. *)
Definition cancel_current_order (d : db) (user : Z) : db * reply :=
  let '(st, sd) := get_user_state d user in
  match waiting_order st sd with
  | Some order_id =>
      let d1 := update_order_status d order_id cancelled None in
      let d2 := clear_user_state d1 user in
      (clear_user_state d2 user, OrderCancelled)
  | None => (d, NoPendingOrderToCancel)
  end.

(** [AdminPanel.update_order_status]; the admin log is not kept. *)
Definition admin_update_order_status (d : db) (order_id : Z)
    (new_status : order_status) : db * bool :=
  match get_order d order_id with
  | Some _ => (update_order_status d order_id new_status None, true)
  | None => (d, false)
  end.

(** What a customer can make the bot do to the store. *)
Inductive event : Type :=
| ProcessPayment (user : Z)
| CheckPayment (user : Z) (env : nat -> Ton.round)
| CancelOrder (user : Z)
| DiscountInput (user : Z) (c : string) (now : Z)
| RemoveDiscount (user : Z)
| ClearState (user : Z)
| SetState (user : Z) (st : string) (sd : state_data)
| CartWrite (user : Z) (c : list cart_item).

Definition handle (d : db) (e : event) : db :=
  match e with
  | ProcessPayment u => fst (process_payment d u)
  | CheckPayment u env => fst (check_payment_status d u env)
  | CancelOrder u => fst (cancel_current_order d u)
  | DiscountInput u c now => handle_discount_code_input d now u c
  | RemoveDiscount u => remove_discount d u
  | ClearState u => clear_user_state d u
  | SetState u st sd => set_user_state d u st sd
  | CartWrite u c => update_user_cart d u c
  end.

(** Only [process_payment] opens a [WAITING_PAYMENT] session. *)
Definition customer_event (e : event) : Prop :=
  match e with
  | SetState _ st _ => st <> "WAITING_PAYMENT"
  | _ => True
  end.

Definition run (d : db) (es : list event) : db := fold_left handle es d.

End Bot.

End Gen2.

(** ** Sample data

    Concrete instances of the parameters and small ledgers and stores, on
    which the statements below are evaluated. *)

Module Sample.

Definition wallet : string := "UQBjcatsfBR_MJBtzaxjkmrl9HS4aAQsWkAGGvSDf10_onwi".

Definition digit (c : Ascii.ascii) : option Z :=
  let n := Z.of_N (Ascii.N_of_ascii c) in
  if (48 <=? n) && (n <=? 57) then Some (n - 48) else None.

Fixpoint digits (s : string) (acc : Z) : option Z :=
  match s with
  | EmptyString => Some acc
  | String c rest =>
      match digit c with
      | Some n => digits rest (10 * acc + n)
      | None => None
      end
  end.

(** [int] on a plain run of ASCII digits; anything else is refused. *)
Definition int_of_str (s : string) : option Z :=
  match s with
  | EmptyString => None
  | _ => digits s 0
  end.

(** The order and user numbers of the samples, rendered. *)
Definition str_of_int (z : Z) : string :=
  if z =? 1 then "1" else if z =? 7 then "7" else if z =? 8 then "8"
  else if z =? 42 then "42" else "0".

Definition upper (s : string) : string := s.

Definition transfer (value memo hash : string) : pyval :=
  PDict [("transaction_id", PDict [("hash", PStr hash)]);
         ("in_msg", PDict [("destination", PStr wallet);
                           ("value", PStr value);
                           ("msg_data", PDict [("@type", PStr "msg.dataText");
                                               ("text", PStr memo)])])].

(** An incoming transfer of 80 TON that carries no comment at all. *)
Definition bare_transfer : pyval :=
  PDict [("transaction_id", PDict [("hash", PStr "h0")]);
         ("in_msg", PDict [("destination", PStr wallet);
                           ("value", PStr "80000000000")])].

(** An incoming record whose [transaction_id] is null. *)
Definition null_id_record : pyval :=
  PDict [("transaction_id", PNone);
         ("in_msg", PDict [("destination", PStr wallet)])].

Definition paying_42_7 : pyval := transfer "80000000000" "ORDER_42_7" "h1".

Definition ledger_reply (txs : list pyval) : Ton.fetch_event :=
  Ton.Response 200 (Ton.BodyJson (PDict [("ok", PBool true);
                                         ("result", PList txs)])).

Definition steady (ev : Ton.fetch_event) : nat -> Ton.round :=
  fun _ => {| Ton.fetch := ev; Ton.fetch_us := 250000; Ton.oversleep_us := 0 |}.

Definition ledger_down : nat -> Ton.round :=
  fun k => match k with
           | O => {| Ton.fetch := Ton.ConnectionFailed; Ton.fetch_us := 30000000;
                     Ton.oversleep_us := 0 |}
           | S _ => steady (ledger_reply [paying_42_7]) k
           end.

(** A second-generation store: user 7 holds two tees of 40 each, and the
    code SAVE20 (20 off, one use in all) is on offer. *)
Definition tee : Gen2.product :=
  {| Gen2.name := "Moon tee"; Gen2.type := "tshirt"; Gen2.price := 40 # 1;
     Gen2.stock_quantity := 10; Gen2.active := true |}.

Definition two_tees : Gen2.cart_item :=
  {| Gen2.product_id := 1; Gen2.item_name := "Moon tee";
     Gen2.item_type := "tshirt"; Gen2.item_price := 40 # 1;
     Gen2.quantity := 2; Gen2.total_price := 80 # 1 |}.

Definition save20 (limit : option Z) : Gen2.discount :=
  {| Gen2.id := 1; Gen2.code := "SAVE20"; Gen2.discount_type := "fixed";
     Gen2.discount_value := 20 # 1; Gen2.usage_limit := limit;
     Gen2.used_count := 0; Gen2.expiry_date := None;
     Gen2.code_active := true |}.

Definition shop2 (limit : option Z) : Gen2.db :=
  {| Gen2.users := {[ 7 := [two_tees] ]};
     Gen2.products := {[ 1 := tee ]};
     Gen2.orders := [];
     Gen2.discount_codes := [save20 limit];
     Gen2.discount_usage := [];
     Gen2.user_sessions := ∅ |}.

(** The order that [process_payment] creates for user 7 in [shop2], and
    the same order once cancelled. *)
Definition first_order (st : order_status) : Gen2.order :=
  {| Gen2.user_id := 7; Gen2.order_products := [two_tees];
     Gen2.total_amount := 80 # 1; Gen2.discount_code := None;
     Gen2.discount_amount := 0; Gen2.final_amount := 80 # 1;
     Gen2.status := st; Gen2.payment_hash := None |}.

Definition paying_1_7 : pyval := transfer "80000000000" "ORDER_1_7" "h7".

Definition ledger_paid : nat -> Ton.round :=
  steady (ledger_reply [paying_1_7]).

Definition ledger_empty : nat -> Ton.round := steady (ledger_reply []).

(** A first-generation store: user 7 has one cart row with two tees. *)
Definition tee1 : Gen1.product :=
  {| Gen1.name := "Moon tee"; Gen1.type := "tshirt"; Gen1.price := 40 # 1;
     Gen1.stock_quantity := 10 |}.

Definition shop1 : Gen1.db :=
  {| Gen1.products := {[ 1 := tee1 ]};
     Gen1.carts := [{| Gen1.row_user_id := 7;
                       Gen1.cart_data :=
                         [("1", {| Gen1.product_id := 1;
                                   Gen1.quantity := 2 |})] |}];
     Gen1.orders := [] |}.

Definition rate : Q := 1 # 1000.

End Sample.

(** ** Further vocabulary of the matcher *)

Module Clock.

(** The clock at the loop test of round [k]: the rounds before it have
    all run to their sleep. *)
Fixpoint elapsed_before (env : nat -> Ton.round) (k : nat) : Z :=
  match k with
  | O => 0
  | S j => elapsed_before env j + Ton.round_us (env j)
  end.

End Clock.

(** ** Further vocabulary of the second-generation store *)

Module Orders.

(** What an order records of the checkout that created it. *)
Definition same_snapshot (o o' : Gen2.order) : Prop :=
  Gen2.user_id o' = Gen2.user_id o /\
  Gen2.order_products o' = Gen2.order_products o /\
  Gen2.total_amount o' = Gen2.total_amount o /\
  Gen2.discount_code o' = Gen2.discount_code o /\
  Gen2.discount_amount o' = Gen2.discount_amount o /\
  Gen2.final_amount o' = Gen2.final_amount o.

(** [sum(item['total_price'] for item in cart)]. *)
Definition lines_total (c : list Gen2.cart_item) : Q :=
  fold_left (fun acc i => (acc + Gen2.total_price i)%Q) c 0%Q.

(** The total is the sum of the lines and the final amount is the total
    less the discount. *)
Definition well_priced (o : Gen2.order) : Prop :=
  Gen2.total_amount o = lines_total (Gen2.order_products o) /\
  Gen2.final_amount o
  = (Gen2.total_amount o - Gen2.discount_amount o)%Q.

(** A cart line that [validate_cart] has nothing to say about. *)
Definition clean (d : Gen2.db) (i : Gen2.cart_item) : Prop :=
  exists p,
    Gen2.get_product d (Gen2.product_id i) = Some p /\
    Gen2.active p = true /\
    (Gen2.stock_quantity p <? Gen2.quantity i) = false /\
    Qltb Gen2.price_tolerance (Qabs (Gen2.price p - Gen2.item_price i))
    = false.

End Orders.

(** ** Further sample data *)

Module Sample2.

(** User 7 has entered SAVE20 at the checkout of [Sample.shop2]. *)
Definition with_code : Gen2.db :=
  Gen2.handle_discount_code_input Sample.upper (Sample.shop2 (Some 5)) 0 7
    "SAVE20".

Definition paying_60 : pyval :=
  Sample.transfer "60000000000" "ORDER_1_7" "h9".

Definition ledger_paid_60 : nat -> Ton.round :=
  Sample.steady (Sample.ledger_reply [paying_60]).

(** The session that [process_payment] opens for that checkout. *)
Definition waiting_60 : Gen2.state_data :=
  {| Gen2.sd_order_id := Some 1; Gen2.sd_amount := Some (60 # 1);
     Gen2.sd_comment := Some "ORDER_1_7"; Gen2.sd_discount_code := None;
     Gen2.sd_discount_amount := None |}.

(** A store whose only user holds 1200 tees. *)
Definition bulk_tees : Gen2.cart_item :=
  Gen2.with_quantity Sample.two_tees 1200.

Definition bulk_shop : Gen2.db :=
  {| Gen2.users := {[ 7 := [bulk_tees] ]};
     Gen2.products := {[ 1 := Sample.tee ]};
     Gen2.orders := [];
     Gen2.discount_codes := [];
     Gen2.discount_usage := [];
     Gen2.user_sessions := ∅ |}.



End Sample2.

(** ** cart_manager_1753438860467.py: the cart operations *)

Module Cart2.

Import Gen2.

Inductive outcome : Set :=
| Done
| ProductNotFound
| NotEnoughStock
| StockLimit
| ItemNotFound.

(** The [for item in cart] loop of [add_to_cart], with its [else]. *)
Inductive merged : Type :=
| Merged (c : list cart_item)
| OverStock
| NotInCart.

Fixpoint merge_line (pid quantity_added stock : Z) (cart : list cart_item)
    : merged :=
  match cart with
  | [] => NotInCart
  | item :: rest =>
      if product_id item =? pid then
        let new_quantity := quantity item + quantity_added in
        if stock <? new_quantity then OverStock
        else Merged (with_quantity item new_quantity :: rest)
      else
        match merge_line pid quantity_added stock rest with
        | Merged c => Merged (item :: c)
        | OverStock => OverStock
        | NotInCart => NotInCart
        end
  end.

Definition new_line (pid : Z) (p : product) (q : Z) : cart_item :=
  {| product_id := pid; item_name := name p; item_type := type p;
     item_price := price p; quantity := q;
     total_price := (price p * inject_Z q)%Q |}.

Definition add_to_cart (d : db) (user pid q : Z) : db * outcome :=
  match get_product d pid with
  | None => (d, ProductNotFound)
  | Some p =>
      if stock_quantity p <? q then (d, NotEnoughStock)
      else
        let cart := get_user_cart d user in
        match merge_line pid q (stock_quantity p) cart with
        | OverStock => (d, StockLimit)
        | Merged c => (update_user_cart d user c, Done)
        | NotInCart =>
            (update_user_cart d user (cart ++ [new_line pid p q]), Done)
        end
  end.

(** The loop of [remove_from_cart]: the first line of the product is
    popped when its quantity is at most [q], reduced by [q] otherwise. *)
Fixpoint take_out (pid q : Z) (cart : list cart_item)
    : option (list cart_item) :=
  match cart with
  | [] => None
  | item :: rest =>
      if product_id item =? pid then
        if quantity item <=? q then Some rest
        else Some (with_quantity item (quantity item - q) :: rest)
      else
        match take_out pid q rest with
        | Some c => Some (item :: c)
        | None => None
        end
  end.

Definition remove_from_cart (d : db) (user pid q : Z) : db * outcome :=
  match take_out pid q (get_user_cart d user) with
  | Some c => (update_user_cart d user c, Done)
  | None => (d, ItemNotFound)
  end.

Fixpoint set_line (pid q : Z) (cart : list cart_item)
    : option (list cart_item) :=
  match cart with
  | [] => None
  | item :: rest =>
      if product_id item =? pid then Some (with_quantity item q :: rest)
      else
        match set_line pid q rest with
        | Some c => Some (item :: c)
        | None => None
        end
  end.

Definition update_item_quantity (d : db) (user pid new_quantity : Z)
    : db * outcome :=
  if new_quantity <=? 0 then remove_from_cart d user pid 999
  else
    match get_product d pid with
    | None => (d, ProductNotFound)
    | Some p =>
        if stock_quantity p <? new_quantity then (d, NotEnoughStock)
        else
          match set_line pid new_quantity (get_user_cart d user) with
          | Some c => (update_user_cart d user c, Done)
          | None => (d, ItemNotFound)
          end
    end.

(** [get_cart_item_quantity]. *)
Fixpoint get_cart_item_quantity_of (pid : Z) (cart : list cart_item) : Z :=
  match cart with
  | [] => 0
  | item :: rest =>
      if product_id item =? pid then quantity item
      else get_cart_item_quantity_of pid rest
  end.

Definition get_cart_item_quantity (d : db) (user pid : Z) : Z :=
  get_cart_item_quantity_of pid (get_user_cart d user).

Definition is_product_in_cart (d : db) (user pid : Z) : bool :=
  existsb (fun item => product_id item =? pid) (get_user_cart d user).

(** *** Vocabulary *)

(** A line whose total is its quantity times its price. *)
Definition line_ok (i : cart_item) : Prop :=
  (total_price i == inject_Z (quantity i) * item_price i)%Q.



End Cart2.

(** ** utils.py: sequences

    A str is the list of its characters; the three helpers below only
    slice, measure and concatenate, so they are stated for lists of any
    element. *)

Module Text.

Section Sequences.

Context {A : Type}.

Definition len (s : list A) : Z := Z.of_nat (length s).

(** [s[:k]]: a negative [k] counts from the end. *)
Definition slice_to (s : list A) (k : Z) : list A :=
  if 0 <=? k then take (Z.to_nat k) s else take (Z.to_nat (len s + k)) s.

(** [s[k:]]: a negative [k] counts from the end. *)
Definition slice_from (s : list A) (k : Z) : list A :=
  if 0 <=? k then drop (Z.to_nat k) s else drop (Z.to_nat (len s + k)) s.

(** [c * n]: nothing when [n] is not positive. *)
Definition times (c : list A) (n : Z) : list A :=
  concat (replicate (Z.to_nat n) c).

Definition is_nil (s : list A) : bool :=
  match s with
  | [] => true
  | _ :: _ => false
  end.

Definition truncate_text (text : list A) (max_length : Z) (suffix : list A)
    : list A :=
  if is_nil text || (len text <=? max_length) then text
  else slice_to text (max_length - len suffix) ++ suffix.

Definition mask_sensitive_data (data mask_char : list A) (visible_chars : Z)
    : list A :=
  if is_nil data || (len data <=? visible_chars) then data
  else times mask_char (len data - visible_chars)
       ++ slice_from data (- visible_chars).

(** [len(range(0, n, step))] for a positive step. *)
Definition range_count (n step : nat) : nat := ((n + step - 1) / step)%nat.

(** [[lst[i:i + chunk_size] for i in range(0, len(lst), chunk_size)]]:
    [range] raises on a zero step and is empty for a negative one. *)
Definition chunk_list (lst : list A) (chunk_size : Z) : res (list (list A)) :=
  if chunk_size =? 0 then Raise ValueError
  else if chunk_size <? 0 then Ok []
  else
    let size := Z.to_nat chunk_size in
    Ok (map (fun j => take size (drop (j * size) lst))
          (seq 0 (range_count (length lst) size))).

End Sequences.

End Text.

(** ** utils.py: RateLimiter

    Timestamps are the floats of [datetime.now().timestamp()], taken as
    exact rationals; they are only subtracted once and compared. *)

Module Limiter.

Record RateLimiter := {
  user_timestamps : gmap Z (gmap string (list Q));
  global_timestamps : list Q
}.

(** [RateLimiter()] *)
Definition new : RateLimiter :=
  {| user_timestamps := ∅; global_timestamps := [] |}.

(** [ts > window_start] *)
Definition newer (window_start ts : Q) : bool := Qltb window_start ts.

Definition len (l : list Q) : Z := Z.of_nat (length l).

(** The list at [user_timestamps[user_id][operation]], created empty when
    either key is missing. *)
Definition timestamps_of (r : RateLimiter) (user_id : Z) (operation : string)
    : list Q :=
  default [] (default ∅ (user_timestamps r !! user_id) !! operation).

Definition is_allowed (r : RateLimiter) (now : Q) (user_id : Z)
    (operation : string) (user_limit global_limit : Z) (window_seconds : Z)
    : RateLimiter * bool :=
  let window_start := (now - inject_Z window_seconds)%Q in
  let globals := List.filter (newer window_start) (global_timestamps r) in
  let of_user := default ∅ (user_timestamps r !! user_id) in
  let mine :=
    List.filter (newer window_start) (default [] (of_user !! operation)) in
  let user_count := len mine in
  let global_count := len globals in
  if (user_limit <=? user_count) || (global_limit <=? global_count) then
    ({| user_timestamps :=
          <[user_id := <[operation := mine]> of_user]> (user_timestamps r);
        global_timestamps := globals |}, false)
  else
    ({| user_timestamps :=
          <[user_id := <[operation := mine ++ [now]]> of_user]>
            (user_timestamps r);
        global_timestamps := globals ++ [now] |}, true).

(** *** Calls and their history *)

Record call := {
  at_time : Q;
  user_id : Z;
  operation : string;
  user_limit : Z;
  global_limit : Z
}.

Section Window.

Variable window_seconds : Z.

Definition ask (r : RateLimiter) (c : call) : RateLimiter * bool :=
  is_allowed r (at_time c) (user_id c) (operation c) (user_limit c)
    (global_limit c) window_seconds.

(** The answers to a sequence of calls on one limiter, in order. *)
Fixpoint answers (r : RateLimiter) (calls : list call) : list bool :=
  match calls with
  | [] => []
  | c :: rest => let (r', b) := ask r c in b :: answers r' rest
  end.

(** What the limiter is for, said on the full history of calls and their
    answers, nothing being forgotten: the times of the calls granted so
    far (to everybody, to one user for one operation), the recent ones
    among them, and the answer they call for. *)
Definition granted (past : list (call * bool)) : list Q :=
  map (fun e => at_time (fst e)) (List.filter snd past).

Definition same_key (u : Z) (op : string) (e : call * bool) : bool :=
  (user_id (fst e) =? u) && String.eqb (operation (fst e)) op.

Definition granted_to (u : Z) (op : string) (past : list (call * bool))
    : list Q :=
  granted (List.filter (same_key u op) past).

Definition recent (c : call) (times : list Q) : list Q :=
  List.filter (newer (at_time c - inject_Z window_seconds)%Q) times.

Definition due (past : list (call * bool)) (c : call) : bool :=
  (len (recent c (granted_to (user_id c) (operation c) past)) <? user_limit c)
  && (len (recent c (granted past)) <? global_limit c).

Fixpoint due_answers (past : list (call * bool)) (calls : list call)
    : list bool :=
  match calls with
  | [] => []
  | c :: rest => due past c :: due_answers (past ++ [(c, due past c)]) rest
  end.

(** The clock never goes back from one call to the next. *)
Fixpoint clock_from (t : Q) (calls : list call) : Prop :=
  match calls with
  | [] => True
  | c :: rest => (t <= at_time c)%Q /\ clock_from (at_time c) rest
  end.

Definition clock_ok (calls : list call) : Prop :=
  match calls with
  | [] => True
  | c :: rest => clock_from (at_time c) rest
  end.

(** What the limiter remembers agrees with the history on every window
    starting at [from] or later. *)
Definition remembers (r : RateLimiter) (past : list (call * bool)) (from : Q)
    : Prop :=
  forall s : Q, (from <= s)%Q ->
    List.filter (newer s) (global_timestamps r)
    = List.filter (newer s) (granted past) /\
    forall u op,
      List.filter (newer s) (timestamps_of r u op)
      = List.filter (newer s) (granted_to u op past).

End Window.

(** Sample calls: three users, at most two calls each and three altogether
    per window. *)
Definition knock (t : Z) (u : Z) : call :=
  {| at_time := inject_Z t; user_id := u; operation := "default";
     user_limit := 2; global_limit := 3 |}.

Definition knocks : list call :=
  [knock 0 7; knock 10 7; knock 20 7; knock 30 8; knock 40 9; knock 65 7;
   knock 65 9].

End Limiter.

(** ** utils.py: escape_markdown

    A str as the list of its code points. *)

Module Markdown.

Definition backslash : Z := 92.

(** [text.replace(char, by)] for a one-character [char]: every occurrence,
    left to right. *)
Definition replace_char (char : Z) (by_these : list Z) (text : list Z)
    : list Z :=
  flat_map (fun x => if x =? char then by_these else [x]) text.

(** ['_', '*', '`', '['] *)
Definition escape_chars : list Z := [95; 42; 96; 91].

Definition escape_markdown (text : list Z) : list Z :=
  match text with
  | [] => []
  | _ :: _ =>
      fold_left (fun t char => replace_char char [backslash; char] t)
        escape_chars text
  end.

Definition needs_escape (x : Z) : bool := existsb (Z.eqb x) escape_chars.

(** Every character to escape stands right after a backslash. *)
Definition escaped (text : list Z) : Prop :=
  forall (i : nat) (x : Z),
    text !! i = Some x -> needs_escape x = true ->
    exists j : nat, i = S j /\ text !! j = Some backslash.

End Markdown.

(** * Properties *)

Lemma Qltb_lt (a b : Q) : Qltb a b = true <-> (a < b)%Q.
Proof.
  unfold Qltb. rewrite negb_true_iff, <- not_true_iff_false, Qle_bool_iff.
  split; [apply Qnot_le_lt | apply Qlt_not_le].
Qed.

Lemma Qltb_ge (a b : Q) : Qltb a b = false <-> (b <= a)%Q.
Proof.
  unfold Qltb. rewrite negb_false_iff. apply Qle_bool_iff.
Qed.

Lemma eq_str_true (v : pyval) (s : string) :
  eq_str v s = true -> v = PStr s.
Proof.
  destruct v; simpl; try discriminate.
  intros H. apply String.eqb_eq in H. now subst.
Qed.

(** ** Floats *)

Module F64Facts.

Lemma units_eq : Zpos F64.units = 2 ^ 1074.
Proof. unfold F64.units. now rewrite Pos2Z.inj_pow. Qed.

Lemma round_pos_chosen (n d : positive) :
  exists e m',
    F64.chosen n d e m' /\
    F64.round_pos n d
    = if 2 ^ 1024 * 2 ^ 1074 <=? m' * 2 ^ e then PosInf
      else Fin (Qred (m' * 2 ^ e # F64.units)).
Proof.
  unfold F64.round_pos. rewrite units_eq.
  set (N := Zpos n * 2 ^ 1074).
  set (e := Z.max 0 (Z.log2 (N / Zpos d) - 52)).
  set (D := Zpos d * 2 ^ e).
  assert (He : 0 <= e) by (unfold e; lia).
  assert (HD : 0 < D).
  { unfold D. apply Z.mul_pos_pos; [lia|]. now apply Z.pow_pos_nonneg. }
  pose proof (Z.div_mod N D ltac:(lia)) as Hdm.
  pose proof (Z.mod_pos_bound N D HD) as Hr.
  set (m := N / D) in *. set (r := N mod D) in *.
  set (up := (D <? 2 * r) || ((2 * r =? D) && Z.odd m)).
  exists e, (if up then m + 1 else m). split; [|reflexivity].
  split; [reflexivity| |].
  - change (m <= if up then m + 1 else m). destruct up; lia.
  - change (2 * Z.abs ((if up then m + 1 else m) * D - N) <= D).
    destruct up eqn:Hup.
    + assert (D <= 2 * r).
      { unfold up in Hup. apply orb_true_iff in Hup as [H|H].
        - apply Z.ltb_lt in H. lia.
        - apply andb_true_iff in H as [H _]. apply Z.eqb_eq in H. lia. }
      replace ((m + 1) * D - N) with (D - r) by lia. lia.
    + assert (2 * r <= D).
      { unfold up in Hup. apply orb_false_iff in Hup as [H _].
        apply Z.ltb_ge in H. lia. }
      replace (m * D - N) with (- r) by lia. lia.
Qed.

Lemma chosen_nonneg n d e m' : F64.chosen n d e m' -> 0 <= e /\ 0 <= m'.
Proof.
  intros [He Hfloor _]. split; [lia|].
  assert (0 <= 2 ^ e) by (apply Z.pow_nonneg; lia).
  etransitivity; [|exact Hfloor].
  apply Z.div_pos; [lia|].
  apply Z.mul_pos_pos; [lia|]. apply Z.pow_pos_nonneg; lia.
Qed.

(** The rounding of a number that is not negative is not negative. *)
Lemma round_pos_sign (n d : positive) :
  F64.round_pos n d = PosInf \/
  exists q, F64.round_pos n d = Fin q /\ (0 <= q)%Q.
Proof.
  destruct (round_pos_chosen n d) as (e & m' & Hc & ->).
  destruct (chosen_nonneg _ _ _ _ Hc) as [He Hm].
  destruct (_ <=? _); [now left|right].
  eexists. split; [reflexivity|].
  rewrite Qred_correct. unfold Qle. simpl.
  assert (0 <= 2 ^ e) by (apply Z.pow_nonneg; lia). nia.
Qed.

Lemma round_sign (x : Q) :
  (0 <= x)%Q ->
  F64.round x = PosInf \/ exists q, F64.round x = Fin q /\ (0 <= q)%Q.
Proof.
  destruct x as [[|n|n] d]; unfold F64.round; simpl Qnum; simpl Qden.
  - intros _. right. exists 0%Q. split; [reflexivity|apply Qle_refl].
  - intros _. apply round_pos_sign.
  - unfold Qle. simpl. lia.
Qed.

Lemma abs_neg (a : pyfloat) : F64.abs (F64.neg a) = F64.abs a.
Proof.
  destruct a as [[a b]| | |]; try reflexivity.
  cbn [F64.neg F64.abs]. unfold Qabs, Qopp. cbn [Qnum Qden].
  now rewrite Z.abs_opp.
Qed.

(** [round_pos] and the Standard Library's division agree on the probes,
    and the tolerance of the matcher is the float [0.001]. *)
Example round_pos_agrees_with_spec :
  forallb (fun p => F64.same_float (F64.round_pos (fst p) (snd p))
                      (F64.spec_quotient (fst p) (snd p))) F64.probes
  = true /\
  F64.round (1 # 1000) = Fin Ton.amount_tolerance.
Proof. split; vm_compute; reflexivity. Qed.

(** *** The tolerance of the matcher *)

Lemma chosen_above_tolerance n d e m' :
  F64.chosen n d e m' ->
  1152921504606847 * Zpos d <= Zpos n * 2 ^ 60 ->
  1152921504606847 * 2 ^ 1014 <= m' * 2 ^ e.
Proof.
  intros [He Hfloor _] Hx.
  set (T := 1152921504606847) in *.
  set (P := 2 ^ 1014).
  assert (HP : 0 < P) by (now apply Z.pow_pos_nonneg).
  assert (Hu : 2 ^ 1074 = 2 ^ 60 * P)
    by (unfold P; now rewrite <- Z.pow_add_r).
  rewrite Hu in He, Hfloor.
  set (N := Zpos n * (2 ^ 60 * P)) in *.
  assert (HN : Zpos d * (T * P) <= N) by (unfold N; nia).
  assert (HF : T * P <= N / Zpos d) by (apply Z.div_le_lower_bound; lia).
  set (F := N / Zpos d) in *.
  assert (HTP : 0 < T * P) by (unfold T; lia).
  assert (HL : 1064 <= Z.log2 F).
  { transitivity (Z.log2 (T * P)); [|apply Z.log2_le_mono; exact HF].
    unfold T, P. vm_compute. discriminate. }
  assert (He' : e = Z.log2 F - 52) by lia.
  assert (HFl : 2 ^ Z.log2 F <= F) by (apply Z.log2_spec; lia).
  assert (Hpow : 2 ^ Z.log2 F = 2 ^ 52 * 2 ^ e).
  { rewrite <- Z.pow_add_r by lia. f_equal. lia. }
  assert (H2e : 0 < 2 ^ e) by (apply Z.pow_pos_nonneg; lia).
  assert (Hm : N / (Zpos d * 2 ^ e) = F / 2 ^ e).
  { unfold F. rewrite Z.div_div by lia. reflexivity. }
  rewrite Hm in Hfloor.
  destruct (Z.eq_dec e 1012) as [->|Hne].
  - assert (4 * T <= F / 2 ^ 1012).
    { apply Z.div_le_lower_bound; [lia|].
      replace (2 ^ 1012 * (4 * T)) with (T * P); [exact HF|].
      unfold P. change 1014 with (2 + 1012). rewrite Z.pow_add_r by lia.
      change (2 ^ 2) with 4. ring. }
    replace (T * P) with (4 * T * 2 ^ 1012).
    + apply Z.mul_le_mono_nonneg_r; lia.
    + unfold P. change 1014 with (2 + 1012). rewrite Z.pow_add_r by lia.
      change (2 ^ 2) with 4. ring.
  - assert (2 ^ 52 <= F / 2 ^ e).
    { apply Z.div_le_lower_bound; [lia|]. lia. }
    assert (2 ^ 1013 <= 2 ^ e) by (apply Z.pow_le_mono_r; lia).
    assert (HP' : 2 ^ 1013 * 2 = P).
    { unfold P. change 1014 with (1013 + 1). rewrite Z.pow_add_r by lia.
      reflexivity. }
    assert (T * 2 <= 2 ^ 52) by (unfold T; vm_compute; discriminate).
    transitivity (2 ^ 52 * 2 ^ 1013).
    + rewrite <- HP'. nia.
    + apply Z.mul_le_mono_nonneg; try lia.
Qed.

Lemma round_pos_above_tolerance (n d : positive) :
  (Ton.amount_tolerance <= Zpos n # d)%Q ->
  F64.round_pos n d = PosInf \/
  exists q, F64.round_pos n d = Fin q /\ (Ton.amount_tolerance <= q)%Q.
Proof.
  intros Hx.
  destruct (round_pos_chosen n d) as (e & m' & Hc & ->).
  destruct (_ <=? _); [now left|right].
  eexists. split; [reflexivity|].
  rewrite Qred_correct.
  assert (Hz : 1152921504606847 * Zpos d <= Zpos n * 2 ^ 60).
  { unfold Qle, Ton.amount_tolerance in Hx. simpl in Hx. exact Hx. }
  pose proof (chosen_above_tolerance _ _ _ _ Hc Hz) as Hm.
  unfold Qle, Ton.amount_tolerance. cbn [Qnum Qden].
  rewrite units_eq.
  change (2 ^ 1074) with (2 ^ 1014 * 2 ^ 60) at 1.
  change (Zpos 1152921504606846976) with (2 ^ 60).
  assert (0 < 2 ^ 60) by reflexivity.
  rewrite Z.mul_assoc. apply Z.mul_le_mono_nonneg_r; lia.
Qed.

(** A difference that the matcher's test accepts after rounding is below
    the tolerance before rounding too: the tolerance is a float. *)
Lemma round_below_tolerance (x : Q) :
  F64.lt (F64.abs (F64.round x)) (Fin Ton.amount_tolerance) = true ->
  (Qabs x < Ton.amount_tolerance)%Q.
Proof.
  assert (Hcase : forall n d,
    F64.lt (F64.abs (F64.round_pos n d)) (Fin Ton.amount_tolerance) = true ->
    (Zpos n # d < Ton.amount_tolerance)%Q).
  { intros n d H. destruct (Qlt_le_dec (Zpos n # d) Ton.amount_tolerance) as [|Hge];
      [assumption|exfalso].
    destruct (round_pos_above_tolerance n d Hge) as [Hr|(q & Hr & Hq)];
      rewrite Hr in H; [discriminate|].
    cbn [F64.abs F64.lt] in H. apply Qltb_lt in H.
    apply (Qlt_irrefl Ton.amount_tolerance).
    eapply Qle_lt_trans; [exact Hq|].
    eapply Qle_lt_trans; [apply Qle_Qabs|exact H]. }
  destruct x as [[|n|n] d]; unfold F64.round; cbn [Qnum Qden].
  - intros _. reflexivity.
  - apply Hcase.
  - intros H. change (Qabs (Z.neg n # d)) with (Zpos n # d).
    apply Hcase. now rewrite <- abs_neg.
Qed.

(** *** One rounding *)

Lemma chosen_close n d e m' :
  F64.chosen n d e m' ->
  F64.close_to (Zpos n # d) (m' * 2 ^ e # F64.units).
Proof.
  intros Hc. destruct (chosen_nonneg _ _ _ _ Hc) as [He0 Hm0].
  destruct Hc as [He Hfloor Hnear].
  assert (H2e : 0 < 2 ^ e) by (now apply Z.pow_pos_nonneg).
  assert (Hu : 0 < 2 ^ 1074) by (now apply Z.pow_pos_nonneg).
  unfold F64.close_to.
  (* the distance is at most half a unit of the last place *)
  assert (Hdist : (Qabs ((m' * 2 ^ e # F64.units) - (Zpos n # d))
                   <= 2 ^ e # (2 * F64.units))%Q).
  { apply Qabs_Qle_condition. unfold Qle, Qminus, Qplus, Qopp.
    cbn [Qnum Qden]. rewrite !Pos2Z.inj_mul, !units_eq.
    set (U := 2 ^ 1074) in *. set (E := 2 ^ e) in *.
    set (dd := Zpos d) in *. assert (0 < dd) by (unfold dd; lia).
    split; nia. }
  eapply Qle_trans; [exact Hdist|].
  unfold F64.half_ulp.
  destruct (Z.eq_dec e 0) as [->|Hne].
  - eapply Qle_trans; [|apply Q.le_max_r].
    unfold Qle. cbn [Qnum Qden]. unfold F64.units.
    rewrite !Pos2Z.inj_mul, !Pos2Z.inj_pow.
    change (2 ^ 0) with 1. change (2 ^ 1075) with (2 * 2 ^ 1074). lia.
  - eapply Qle_trans; [|apply Q.le_max_l].
    set (F := Zpos n * 2 ^ 1074 / Zpos d) in *.
    assert (HF : 0 < F) by (destruct (Z.log2 F) eqn:?; destruct F; simpl in *; lia).
    assert (HFl : 2 ^ Z.log2 F <= F) by (apply Z.log2_spec; lia).
    assert (Hpow : 2 ^ Z.log2 F = 2 ^ 52 * 2 ^ e).
    { rewrite <- Z.pow_add_r by lia. f_equal. lia. }
    assert (HFd : F * Zpos d <= Zpos n * 2 ^ 1074).
    { unfold F. rewrite Z.mul_comm. apply Z.mul_div_le. lia. }
    assert (Hx0 : (0 <= Zpos n # d)%Q) by (unfold Qle; cbn [Qnum Qden]; lia).
    rewrite (Qabs_pos _ Hx0).
    unfold Qle, Qmult. cbn [Qnum Qden].
    rewrite !Pos2Z.inj_mul, !units_eq, Pos2Z.inj_pow.
    change (2 ^ 53) with (2 * 2 ^ 52).
    set (U := 2 ^ 1074) in *. set (E := 2 ^ e) in *.
    set (dd := Zpos d) in *. assert (0 < dd) by (unfold dd; lia).
    set (nn := Zpos n) in *. set (K := 2 ^ 52) in *.
    assert (0 < K) by (unfold K; lia).
    nia.
Qed.

Lemma round_pos_close (n d : positive) (q : Q) :
  F64.round_pos n d = Fin q -> F64.close_to (Zpos n # d) q.
Proof.
  destruct (round_pos_chosen n d) as (e & m' & Hc & ->).
  destruct (_ <=? _); [discriminate|]. intros [= <-].
  pose proof (chosen_close _ _ _ _ Hc) as H.
  unfold F64.close_to in *. now rewrite Qred_correct.
Qed.

(** A finite result is within half a unit in the last place of the exact
    one. *)
Lemma round_close (x y : Q) : F64.round x = Fin y -> F64.close_to x y.
Proof.
  destruct x as [[|n|n] d]; unfold F64.round; cbn [Qnum Qden].
  - intros [= <-]. unfold F64.close_to, F64.half_ulp.
    eapply Qle_trans; [|apply Q.le_max_r]. unfold Qle. simpl. lia.
  - apply round_pos_close.
  - destruct (F64.round_pos n d) as [q| | |] eqn:Hr; try discriminate.
    intros [= <-]. apply round_pos_close in Hr.
    unfold F64.close_to, F64.half_ulp in *.
    change (Qabs (Z.neg n # d)) with (Qabs (Zpos n # d)).
    assert (Heq : (- q - (Z.neg n # d) == - (q - (Zpos n # d)))%Q).
    { change (Z.neg n # d) with (- (Zpos n # d))%Q. ring. }
    now rewrite Heq, Qabs_opp.
Qed.

(** *** Overflow *)

(** A finite result is below [2 ** 1024]. *)
Lemma round_pos_bounded (n d : positive) (q : Q) :
  F64.round_pos n d = Fin q -> (q < inject_Z (2 ^ 1024))%Q.
Proof.
  destruct (round_pos_chosen n d) as (e & m' & Hc & ->).
  destruct (Z.leb_spec (2 ^ 1024 * 2 ^ 1074) (m' * 2 ^ e)); [discriminate|].
  intros [= <-]. rewrite Qred_correct.
  unfold Qlt, inject_Z. cbn [Qnum Qden]. rewrite units_eq. lia.
Qed.

(** A number below [2 ** 1023] does not overflow. *)
Lemma round_pos_finite (n d : positive) :
  Zpos n < 2 ^ 1023 * Zpos d ->
  exists q, F64.round_pos n d = Fin q.
Proof.
  intros Hx.
  destruct (round_pos_chosen n d) as (e & m' & Hc & ->).
  destruct (chosen_nonneg _ _ _ _ Hc) as [He0 Hm0].
  destruct Hc as [He _ Hnear].
  destruct (Z.leb_spec (2 ^ 1024 * 2 ^ 1074) (m' * 2 ^ e)) as [Hover|];
    [exfalso|eauto].
  set (U := 2 ^ 1074) in *. assert (HU : 0 < U) by (now apply Z.pow_pos_nonneg).
  set (A := 2 ^ 1023 * U).
  assert (HA : 2 ^ 1024 * U = 2 * A).
  { unfold A. change 1024 with (1 + 1023). rewrite Z.pow_add_r by lia.
    change (2 ^ 1) with 2. ring. }
  rewrite HA in Hover.
  assert (HN : Zpos n * U < A * Zpos d) by (unfold A; nia).
  set (F := Zpos n * U / Zpos d) in *.
  assert (HF : F < A).
  { apply Z.div_lt_upper_bound; [lia|]. lia. }
  assert (HE : 2 ^ e <= 2 ^ 2044).
  { apply Z.pow_le_mono_r; [lia|].
    destruct (Z.le_gt_cases F 0) as [H0|H0].
    - destruct F; simpl in He; lia.
    - assert (Z.log2 F < 2097); [|lia].
      apply Z.log2_lt_pow2; [assumption|].
      replace (2 ^ 2097) with A; [assumption|].
      unfold A, U. now rewrite <- Z.pow_add_r. }
  assert (HEA : 2 ^ 2044 < A).
  { unfold A, U. rewrite <- Z.pow_add_r by lia.
    apply Z.pow_lt_mono_r; lia. }
  set (E := 2 ^ e) in *. assert (0 < E) by (now apply Z.pow_pos_nonneg).
  set (dd := Zpos d) in *. assert (0 < dd) by (unfold dd; lia).
  set (nn := Zpos n) in *.
  assert (2 * (m' * (dd * E) - nn * U) <= dd * E) by lia.
  assert (2 * A * dd <= m' * E * dd) by nia.
  nia.
Qed.

Lemma float_bounded (x : Q) :
  F64.is_float x -> (Qabs x < inject_Z (2 ^ 1024))%Q.
Proof.
  intros (y & Hr & Hy). rewrite <- Hy. clear Hy.
  destruct x as [[|n|n] d]; unfold F64.round in Hr; cbn [Qnum Qden] in Hr.
  - injection Hr as <-. reflexivity.
  - pose proof (round_pos_bounded _ _ _ Hr) as Hb.
    destruct (round_pos_sign n d) as [H|(q & H & Hq)]; rewrite H in Hr;
      [discriminate|]. injection Hr as ->.
    now rewrite Qabs_pos.
  - destruct (F64.round_pos n d) as [q| | |] eqn:Hq; try discriminate.
    injection Hr as <-. rewrite Qabs_opp.
    pose proof (round_pos_bounded _ _ _ Hq) as Hb.
    destruct (round_pos_sign n d) as [H|(q' & H & Hq')]; rewrite H in Hq;
      [discriminate|]. injection Hq as ->.
    now rewrite Qabs_pos.
Qed.

(** A hundredth of a positive float is a float again, and not negative. *)
Lemma hundredth_is_finite (value : Q) :
  (0 < value)%Q -> F64.is_float value ->
  exists rate, F64.div_int value 100 = Fin rate /\ (0 <= rate)%Q /\
               F64.close_to (value / (100 # 1)) rate.
Proof.
  intros Hpos Hfl. pose proof (float_bounded _ Hfl) as Hb.
  rewrite Qabs_pos in Hb by now apply Qlt_le_weak.
  unfold F64.div_int.
  assert (Hq : (0 < value / (100 # 1))%Q).
  { unfold Qdiv. apply Qmult_lt_0_compat; [assumption|reflexivity]. }
  destruct (value / (100 # 1))%Q as [[|n|n] d] eqn:Hv;
    try (exfalso; revert Hq; unfold Qlt; cbn [Qnum Qden]; lia).
  assert (Hfin : exists q, F64.round_pos n d = Fin q).
  { apply round_pos_finite.
    destruct value as [vn vd]. unfold Qdiv, Qmult, Qinv in Hv.
    cbn [Qnum Qden] in Hv. injection Hv as Hn Hd.
    unfold Qlt, inject_Z in Hb. cbn [Qnum Qden] in Hb.
    assert (0 < 2 ^ 1023) by (now apply Z.pow_pos_nonneg).
    change (2 ^ 1024) with (2 * 2 ^ 1023) in Hb.
    rewrite <- Hn, <- Hd, Pos2Z.inj_mul. lia. }
  destruct Hfin as [q Hr]. exists q. unfold F64.round. cbn [Qnum Qden].
  split; [exact Hr|]. split.
  - destruct (round_pos_sign n d) as [H|(q' & H & Hq')]; rewrite H in Hr;
      [discriminate|]. now injection Hr as <-.
  - now apply round_pos_close.
Qed.

End F64Facts.

Module TonFacts.

Section Matcher.

Variable wallet_address : string.
Variable int_of_str : string -> option Z.

Local Abbreviation incoming := (Ton._is_incoming_transaction wallet_address).
Local Abbreviation amount_of := (Ton._get_transaction_amount int_of_str).
Local Abbreviation check := (Ton.check_transaction wallet_address int_of_str).
Local Abbreviation scan := (Ton.scan_transactions wallet_address int_of_str).
Local Abbreviation round_of := (Ton.poll_round wallet_address int_of_str).
Local Abbreviation poll := (Ton.poll wallet_address int_of_str).
Local Abbreviation verify_payment := (Ton.verify_payment wallet_address int_of_str).

Local Abbreviation is_match := (Ton.is_match wallet_address int_of_str).

Lemma check_transaction_found expected comment tx h :
  check expected comment tx = Ok (Some h) ->
  is_match expected comment tx h.
Proof.
  unfold Ton.check_transaction. intros H.
  destruct (incoming tx) eqn:Hin; cbn [negb] in H; [|discriminate].
  destruct (Ton.transaction_hash tx) as [h'|e] eqn:Hh; cbn [Py.bind] in H;
    [|discriminate].
  destruct (Ton.amount_close _ _) eqn:Hamt; cbn [andb] in H; [|discriminate].
  destruct (eq_str _ comment) eqn:Hmemo; [|discriminate].
  injection H as ->.
  split; [exact Hin|]. split; [|split; [now apply eq_str_true|exact Hh]].
  now apply F64Facts.round_below_tolerance.
Qed.

Lemma scan_transactions_found expected comment txs h :
  scan expected comment txs = Ok (Some h) ->
  exists tx, In tx txs /\ check expected comment tx = Ok (Some h).
Proof.
  induction txs as [|tx rest IH]; simpl; [discriminate|].
  destruct (check expected comment tx) as [[h'|]|e] eqn:Hc; simpl.
  - intros [= ->]. exists tx. auto.
  - intros H. destruct (IH H) as (tx' & Hin & Htx'). exists tx'. auto.
  - discriminate.
Qed.

Lemma poll_success expected comment timeout env fuel k elapsed v :
  poll expected comment timeout env fuel k elapsed = Some v ->
  Ton.success v = true ->
  exists j, Ton.rounds_before v = S j /\
            round_of expected comment (Ton.fetch (env j))
            = Ok (Some (Ton.tx_hash v)).
Proof.
  revert k elapsed. induction fuel as [|fuel IH]; intros k elapsed; simpl.
  - discriminate.
  - destruct (elapsed <? timeout * 1000000).
    + destruct (round_of expected comment (Ton.fetch (env k)))
        as [[h|]|e] eqn:Hr.
      * intros [= <-] _. simpl. now exists k.
      * apply IH.
      * apply IH.
    + intros [= <-]. simpl. discriminate.
Qed.

Lemma round_found expected comment ev h :
  round_of expected comment ev = Ok (Some h) ->
  exists txs tx,
    Py.iter (Ton.get_transaction_history ev) = Ok txs /\
    In tx txs /\ is_match expected comment tx h.
Proof.
  unfold Ton.poll_round.
  destruct (Py.iter (Ton.get_transaction_history ev)) as [txs|e]; simpl;
    [|discriminate].
  intros H. apply scan_transactions_found in H as (tx & Hin & Hc).
  exists txs, tx. auto using check_transaction_found.
Qed.

(** C1. When [verify_payment] reports success, the hash it returns is that
    of a transaction fetched in some round which is incoming, whose amount
    (the float that the division of the nano amount gives) is within the
    tolerance (the float [0.001]) of the expected amount and whose decoded
    memo is the expected memo, character for character. *)
Theorem verify_payment_reports_only_matches expected comment timeout env v :
  verify_payment expected comment timeout env = Some v ->
  Ton.success v = true ->
  exists k txs tx,
    Py.iter (Ton.get_transaction_history (Ton.fetch (env k))) = Ok txs /\
    In tx txs /\
    is_match expected comment tx (Ton.tx_hash v).
Proof.
  unfold Ton.verify_payment. intros Hrun Hok.
  destruct (poll_success _ _ _ _ _ _ _ _ Hrun Hok) as (k & _ & Hk).
  destruct (round_found _ _ _ _ Hk) as (txs & tx & ? & ? & ?).
  exists k, txs, tx. auto.
Qed.

(** A transaction whose memo differs from the expected one never makes the
    loop return, whatever its amount. *)
Lemma other_memo_is_no_match expected comment tx h :
  Ton._get_transaction_comment tx <> PStr comment ->
  check expected comment tx <> Ok (Some h).
Proof.
  intros Hne Hc. apply check_transaction_found in Hc.
  destruct Hc as (_ & _ & Hmemo & _). contradiction.
Qed.

(** C7, as amended. A transaction without a memo is never reported as the
    match of a non-empty expected memo. *)
Theorem absent_memo_matches_no_nonempty_memo expected comment tx h :
  comment <> "" ->
  Ton.memo_absent tx ->
  check expected comment tx <> Ok (Some h).
Proof.
  intros Hne Habs. apply other_memo_is_no_match.
  unfold Ton.memo_absent in Habs. rewrite Habs. congruence.
Qed.

(** *** The polling loop *)

Lemma round_us_ge (r : Ton.round) : Ton.check_interval_us <= Ton.round_us r.
Proof. unfold Ton.round_us. lia. Qed.

Lemma poll_returns expected comment timeout env fuel k elapsed :
  timeout * 1000000 - elapsed <= Z.of_nat fuel * Ton.check_interval_us ->
  exists v, poll expected comment timeout env (S fuel) k elapsed = Some v.
Proof.
  revert k elapsed. induction fuel as [|fuel IH]; intros k elapsed Hfuel.
  - simpl. destruct (Z.ltb_spec elapsed (timeout * 1000000)); [lia|].
    eauto.
  - change (poll expected comment timeout env (S (S fuel)) k elapsed)
      with (if elapsed <? timeout * 1000000 then
              match round_of expected comment (Ton.fetch (env k)) with
              | Ok (Some h) =>
                  Some {| Ton.success := true; Ton.tx_hash := h;
                          Ton.ended_at := elapsed + Z.of_N (Ton.fetch_us (env k));
                          Ton.rounds_before := S k |}
              | _ => poll expected comment timeout env (S fuel) (S k)
                       (elapsed + Ton.round_us (env k))
              end
            else Some {| Ton.success := false; Ton.tx_hash := PNone;
                         Ton.ended_at := elapsed; Ton.rounds_before := k |}).
    destruct (elapsed <? timeout * 1000000); [|eauto].
    pose proof (round_us_ge (env k)).
    destruct (round_of expected comment (Ton.fetch (env k))) as [[h|]|e];
      eauto; apply IH; lia.
Qed.

Lemma poll_gives_up_late expected comment timeout env fuel k elapsed v :
  poll expected comment timeout env fuel k elapsed = Some v ->
  Ton.success v = false ->
  timeout * 1000000 <= Ton.ended_at v /\ Ton.tx_hash v = PNone.
Proof.
  revert k elapsed. induction fuel as [|fuel IH]; intros k elapsed; simpl.
  - discriminate.
  - destruct (Z.ltb_spec elapsed (timeout * 1000000)).
    + destruct (round_of expected comment (Ton.fetch (env k))) as [[h|]|e].
      * intros [= <-]. simpl. discriminate.
      * apply IH.
      * apply IH.
    + intros [= <-] _. simpl. split; [lia|reflexivity].
Qed.

Lemma enough_fuel_is_enough (timeout : Z) :
  timeout * 1000000
  <= Z.of_nat (Z.to_nat (timeout * 1000000 / Ton.check_interval_us + 1))
     * Ton.check_interval_us.
Proof.
  unfold Ton.check_interval_us.
  destruct (Z.le_gt_cases 0 (timeout * 1000000)).
  - rewrite Z2Nat.id by (apply Z.add_nonneg_nonneg; [apply Z.div_pos|]; lia).
    pose proof (Z.mod_pos_bound (timeout * 1000000) (10 * 1000000) ltac:(lia)).
    pose proof (Z.div_mod (timeout * 1000000) (10 * 1000000) ltac:(lia)).
    lia.
  - lia.
Qed.

(** [verify_payment] always returns its tuple; when the tuple says failure
    the deadline has passed. *)
Lemma verify_payment_returns expected comment timeout env :
  exists v, verify_payment expected comment timeout env = Some v /\
            (Ton.success v = false ->
             timeout * 1000000 <= Ton.ended_at v /\ Ton.tx_hash v = PNone).
Proof.
  unfold Ton.verify_payment, Ton.enough_fuel.
  destruct (poll_returns expected comment timeout env
              (Z.to_nat (timeout * 1000000 / Ton.check_interval_us + 1)) O 0)
    as [v Hv].
  - pose proof (enough_fuel_is_enough timeout). lia.
  - exists v. split; [exact Hv|]. eauto using poll_gives_up_late.
Qed.

(** *** Failed fetches *)

Lemma str_is_not_incoming (s : string) : incoming (PStr s) = false.
Proof. reflexivity. Qed.

Lemma scan_of_strs expected comment (txs : list pyval) :
  Forall (fun tx => exists s, tx = PStr s) txs ->
  scan expected comment txs = Ok None.
Proof.
  induction 1 as [|tx rest [s ->] _ IH]; simpl; [reflexivity|].
  exact IH.
Qed.

Lemma chars_are_strs (s : string) :
  Forall (fun tx => exists t, tx = PStr t) (Py.chars s).
Proof. induction s; simpl; constructor; eauto. Qed.

Lemma keys_are_strs (d : list (string * pyval)) :
  Forall (fun tx => exists t, tx = PStr t) (map (fun kv => PStr (fst kv)) d).
Proof. induction d; simpl; constructor; eauto. Qed.

Lemma round_without_list expected comment (v : pyval) :
  Ton.is_list v = false ->
  Ton.no_match (let* transactions := Py.iter v in
            scan expected comment transactions).
Proof.
  destruct v as [| | | |s|l|d]; simpl; try exact (fun _ => I).
  - intros _. now rewrite (scan_of_strs _ _ _ (chars_are_strs s)).
  - discriminate.
  - intros _. now rewrite (scan_of_strs _ _ _ (keys_are_strs d)).
Qed.

Lemma failed_fetch_round expected comment ev :
  Ton.fetch_failure ev = true ->
  Ton.no_match (round_of expected comment ev).
Proof.
  unfold Ton.poll_round, Ton.get_transaction_history.
  destruct ev as [|status body]; simpl; [exact (fun _ => I)|].
  destruct (status =? 200); simpl; [|exact (fun _ => I)].
  destruct body as [data|]; simpl; [|exact (fun _ => I)].
  destruct data as [| | | | | |d]; simpl; try exact (fun _ => I).
  destruct (Py.lookup_key "ok" d) as [ok|]; simpl; [|exact (fun _ => I)].
  destruct (truthy ok); simpl.
  - destruct (Py.lookup_key "result" d) as [result|]; simpl;
      [|discriminate].
    intros H. now apply round_without_list, negb_true_iff.
  - destruct (Py.lookup_key "result" d); exact (fun _ => I).
Qed.

(** C5. A round whose fetch fails ends neither the loop nor the call: the
    loop goes on with the next round after the sleep, and [verify_payment]
    returns its tuple (it never raises), not from the failed round, and with
    a failure only once the deadline has passed. *)
Theorem failed_fetch_keeps_polling expected comment timeout env k :
  Ton.fetch_failure (Ton.fetch (env k)) = true ->
  (forall fuel elapsed,
      elapsed < timeout * 1000000 ->
      poll expected comment timeout env (S fuel) k elapsed
      = poll expected comment timeout env fuel (S k)
          (elapsed + Ton.round_us (env k))) /\
  exists v,
    verify_payment expected comment timeout env = Some v /\
    ~ (Ton.success v = true /\ Ton.rounds_before v = S k) /\
    (Ton.success v = false -> timeout * 1000000 <= Ton.ended_at v).
Proof.
  intros Hfail. pose proof (failed_fetch_round expected comment _ Hfail) as Hr.
  split.
  - intros fuel elapsed Hlt. simpl.
    destruct (Z.ltb_spec elapsed (timeout * 1000000)); [|lia].
    destruct (round_of expected comment (Ton.fetch (env k))) as [[h|]|e];
      [destruct Hr|reflexivity|reflexivity].
  - destruct (verify_payment_returns expected comment timeout env)
      as (v & Hv & Hlate).
    exists v. split; [exact Hv|]. split.
    + intros [Hok Hk]. unfold Ton.verify_payment in Hv.
      destruct (poll_success _ _ _ _ _ _ _ _ Hv Hok) as (j & Hj & Hfound).
      assert (j = k) as -> by congruence.
      rewrite Hfound in Hr. exact Hr.
    + intros Hno. now apply Hlate.
Qed.

(** *** Malformed records *)

(** A record that is no object: not incoming, amount 0, empty comment. *)
Lemma helpers_on_non_dict (tx : pyval) :
  (forall d, tx <> PDict d) ->
  incoming tx = false /\
  amount_of tx = 0%Q /\
  Ton._get_transaction_comment tx = PStr "".
Proof.
  intros H. destruct tx; try (repeat split; reflexivity).
  now destruct (H d).
Qed.

(** A [value] that [int] refuses: amount 0. *)
Lemma amount_of_bad_value (d m : list (string * pyval)) (s : string) :
  Py.lookup_key "in_msg" d = Some (PDict m) ->
  Py.lookup_key "value" m = Some (PStr s) ->
  int_of_str s = None ->
  amount_of (PDict d) = 0%Q.
Proof.
  intros Hd Hm Hs. unfold Ton._get_transaction_amount,
    Ton._get_transaction_amount_body. simpl.
  rewrite Hd. simpl. rewrite Hm. simpl. now rewrite Hs.
Qed.

(** No [in_msg]: not incoming and an empty comment. *)
Lemma helpers_without_in_msg (d : list (string * pyval)) :
  Py.lookup_key "in_msg" d = None ->
  incoming (PDict d) = false /\
  Ton._get_transaction_comment (PDict d) = PStr "".
Proof.
  intros Hd. unfold Ton._is_incoming_transaction,
    Ton._is_incoming_transaction_body, Ton._get_transaction_comment,
    Ton._get_transaction_comment_body. simpl. rewrite Hd. now simpl.
Qed.

(** The loop body raises exactly on an incoming record whose
    [transaction_id] chain raises. *)
Lemma check_transaction_raises expected comment tx :
  Py.raises (check expected comment tx)
  = incoming tx && Py.raises (Ton.transaction_hash tx).
Proof.
  unfold Ton.check_transaction. destruct (incoming tx); simpl; [|reflexivity].
  destruct (Ton.transaction_hash tx) as [h|e]; simpl; [|reflexivity].
  now destruct (Ton.amount_close _ _ && eq_str _ comment).
Qed.

(** The memos the bot asks for are never empty. *)
Lemma order_comment_nonempty (str_of_int : Z -> string) (order_id user : Z) :
  Ton.order_comment str_of_int order_id user <> "".
Proof. unfold Ton.order_comment. simpl. discriminate. Qed.

(** A record that is not incoming never ends a round. *)
Lemma not_incoming_is_skipped expected comment tx rest :
  incoming tx = false ->
  scan expected comment (tx :: rest) = scan expected comment rest.
Proof.
  intros H. simpl. unfold Ton.check_transaction. now rewrite H.
Qed.

End Matcher.

(** *** The matcher on the sample ledgers *)

Local Abbreviation W := Sample.wallet.
Local Abbreviation parse := Sample.int_of_str.

(** Two transfers of the same amount; only the second carries the memo of
    order 42 of user 7, and it is the one reported. *)
Example same_amount_other_memo :
  Ton.verify_payment W parse (80 # 1) "ORDER_42_7" 5
    (Sample.steady (Sample.ledger_reply
       [Sample.transfer "80000000000" "ORDER_42_8" "h2"; Sample.paying_42_7]))
  = Some {| Ton.success := true; Ton.tx_hash := PStr "h1";
            Ton.ended_at := 250000; Ton.rounds_before := 1 |}.
Proof. vm_compute. reflexivity. Qed.

(** A transfer of 59.999 for an expected 60: the amount is the float
    nearest to 59.999, a little above it, the difference to 60 is below
    the float [0.001], and the transfer is reported, although the amount
    on the ledger is a full thousandth short. *)
Example thousandth_short_is_reported :
  Ton._get_transaction_amount parse
    (Sample.transfer "59999000000" "ORDER_1_7" "h3")
  = (8444108563831325 # 140737488355328)%Q /\
  Ton.check_transaction W parse (60 # 1) "ORDER_1_7"
    (Sample.transfer "59999000000" "ORDER_1_7" "h3")
  = Ok (Some (PStr "h3")) /\
  Ton.check_transaction W parse (60 # 1) "ORDER_1_7"
    (Sample.transfer "59998000000" "ORDER_1_7" "h3")
  = Ok None.
Proof. repeat split; vm_compute; reflexivity. Qed.

(** An amount too large for a float: the division raises OverflowError
    and the helper answers 0. *)
Example huge_value_counts_as_zero :
  Ton._get_transaction_amount parse
    (PDict [("in_msg",
             PDict [("destination", PStr W); ("value", PInt (10 ^ 400))])])
  = 0%Q.
Proof. vm_compute. reflexivity. Qed.

Lemma verify_payment_reports_only_matches_witness :
  exists k txs tx,
    Py.iter (Ton.get_transaction_history
               (Ton.fetch (Sample.steady (Sample.ledger_reply
                  [Sample.transfer "80000000000" "ORDER_42_8" "h2";
                   Sample.paying_42_7]) k))) = Ok txs /\
    In tx txs /\
    Ton.is_match W parse (80 # 1) "ORDER_42_7" tx (PStr "h1").
Proof.
  apply (verify_payment_reports_only_matches W parse (80 # 1) "ORDER_42_7" 5
           (Sample.steady (Sample.ledger_reply
              [Sample.transfer "80000000000" "ORDER_42_8" "h2";
               Sample.paying_42_7]))
           {| Ton.success := true; Ton.tx_hash := PStr "h1";
              Ton.ended_at := 250000; Ton.rounds_before := 1 |}).
  - vm_compute. reflexivity.
  - reflexivity.
Defined.

(** C7, as stated, fails: a transfer without any comment is reported as the
    match of the empty expected memo. *)
Lemma absent_memo_matches_empty_memo :
  Ton.memo_absent Sample.bare_transfer /\
  Ton.check_transaction W parse (80 # 1) "" Sample.bare_transfer
  = Ok (Some (PStr "h0")).
Proof. split; vm_compute; reflexivity. Qed.

Lemma absent_memo_matches_no_nonempty_memo_witness :
  Ton.check_transaction W parse (80 # 1) "ORDER_42_7" Sample.bare_transfer
  <> Ok (Some (PStr "h0")).
Proof.
  apply (absent_memo_matches_no_nonempty_memo W parse (80 # 1) "ORDER_42_7"
           Sample.bare_transfer (PStr "h0")).
  - discriminate.
  - vm_compute. reflexivity.
Defined.

Lemma failed_fetch_keeps_polling_witness :
  (forall fuel elapsed,
      elapsed < 1800 * 1000000 ->
      Ton.poll W parse (80 # 1) "ORDER_42_7" 1800 Sample.ledger_down
        (S fuel) 0 elapsed
      = Ton.poll W parse (80 # 1) "ORDER_42_7" 1800 Sample.ledger_down
          fuel 1 (elapsed + Ton.round_us (Sample.ledger_down O))) /\
  exists v,
    Ton.verify_payment W parse (80 # 1) "ORDER_42_7" 1800 Sample.ledger_down
    = Some v /\
    ~ (Ton.success v = true /\ Ton.rounds_before v = 1%nat) /\
    (Ton.success v = false -> 1800 * 1000000 <= Ton.ended_at v).
Proof.
  apply (failed_fetch_keeps_polling W parse (80 # 1) "ORDER_42_7" 1800
           Sample.ledger_down O).
  reflexivity.
Defined.

(** After the failed first fetch the payment is found in the second round,
    forty seconds into the call. *)
Example found_after_failed_fetch :
  Ton.verify_payment W parse (80 # 1) "ORDER_42_7" 1800 Sample.ledger_down
  = Some {| Ton.success := true; Ton.tx_hash := PStr "h1";
            Ton.ended_at := 40250000; Ton.rounds_before := 2 |}.
Proof. vm_compute. reflexivity. Qed.

(** C10. An incoming record whose [transaction_id] is null raises in the
    loop body of [verify_payment], outside the three helpers: the round is
    abandoned, the payment that follows it in the batch is not looked at,
    and with that batch in every round the call times out although the
    payment is in the ledger. Without the record it is found at once. *)
Theorem null_transaction_id_aborts_round :
  Ton._is_incoming_transaction W Sample.null_id_record = true /\
  (Ton._get_transaction_amount parse Sample.null_id_record == 0)%Q /\
  Ton._get_transaction_comment Sample.null_id_record = PStr "" /\
  Ton.poll_round W parse (80 # 1) "ORDER_42_7"
    (Sample.ledger_reply [Sample.null_id_record; Sample.paying_42_7])
  = Raise AttributeError /\
  Ton.poll_round W parse (80 # 1) "ORDER_42_7"
    (Sample.ledger_reply [Sample.paying_42_7])
  = Ok (Some (PStr "h1")) /\
  Ton.verify_payment W parse (80 # 1) "ORDER_42_7" 30
    (Sample.steady (Sample.ledger_reply
       [Sample.null_id_record; Sample.paying_42_7]))
  = Some {| Ton.success := false; Ton.tx_hash := PNone;
            Ton.ended_at := 30750000; Ton.rounds_before := 3 |}.
Proof. repeat split; vm_compute; reflexivity. Qed.

Section Amounts.

Variable MIN_TON_AMOUNT : Q.

(** C9. [validate_amount] accepts exactly the amounts from
    [MIN_TON_AMOUNT] to 1000; above 1000 an amount that passed the minimum
    test is refused as too large. *)
Theorem validate_amount_range (amount : Q) :
  (fst (Ton.validate_amount MIN_TON_AMOUNT amount) = true <->
   (MIN_TON_AMOUNT <= amount)%Q /\ (amount <= 1000 # 1)%Q) /\
  ((MIN_TON_AMOUNT <= amount)%Q -> (1000 # 1 < amount)%Q ->
   Ton.validate_amount MIN_TON_AMOUNT amount
   = (false, "Payment amount too large")).
Proof.
  unfold Ton.validate_amount.
  destruct (Qltb amount MIN_TON_AMOUNT) eqn:Hmin.
  - apply Qltb_lt in Hmin. simpl. split; [split; [discriminate|]|].
    + intros [H _]. now apply Qle_not_lt in H.
    + intros H. now apply Qle_not_lt in H.
  - apply Qltb_ge in Hmin.
    destruct (Qltb (1000 # 1) amount) eqn:Hmax; simpl.
    + apply Qltb_lt in Hmax. split; [split; [discriminate|]|reflexivity].
      intros [_ H]. now apply Qle_not_lt in H.
    + apply Qltb_ge in Hmax. split; [split; [auto|reflexivity]|].
      intros _ H. now apply Qle_not_lt in Hmax.
Qed.

End Amounts.

End TonFacts.

(** ** Discount amounts *)

Module DiscountFacts.

Lemma min_cases (a b : Q) :
  ((b < a)%Q /\ Utils.min a b = b) \/ ((a <= b)%Q /\ Utils.min a b = a).
Proof.
  unfold Utils.min. destruct (Qltb b a) eqn:H.
  - left. now apply Qltb_lt in H.
  - right. now apply Qltb_ge in H.
Qed.

Lemma min_idempotent (a b : Q) : Utils.min (Utils.min a b) b = Utils.min a b.
Proof.
  destruct (min_cases a b) as [[Hlt ->]|[Hle ->]].
  - unfold Utils.min. destruct (Qltb b b) eqn:H; [|reflexivity].
    apply Qltb_lt in H. now apply Qlt_irrefl in H.
  - unfold Utils.min. destruct (Qltb b a) eqn:H; [|reflexivity].
    apply Qltb_lt in H. now apply Qlt_not_le in H.
Qed.

Lemma clamp_of_nonneg (raw subtotal : Q) :
  (0 <= raw)%Q -> (0 <= subtotal)%Q ->
  (Utils.min raw subtotal == Qmax 0 (Qmin raw subtotal))%Q /\
  (0 <= Utils.min raw subtotal)%Q /\
  (Utils.min raw subtotal <= subtotal)%Q.
Proof.
  intros Hraw Hsub.
  destruct (min_cases raw subtotal) as [[Hlt ->]|[Hle ->]].
  - rewrite Q.min_r by now apply Qlt_le_weak.
    rewrite Q.max_r by assumption.
    split; [reflexivity|split; [assumption|apply Qle_refl]].
  - rewrite Q.min_l by assumption. rewrite Q.max_r by assumption.
    split; [reflexivity|split; assumption].
Qed.

(** [min] of two finite floats is the [min] of their values. *)
Lemma min_of_finite (a b : Q) :
  F64.min (Fin a) (Fin b) = Fin (Utils.min a b).
Proof. unfold F64.min, Utils.min. cbn [F64.lt]. now destruct (Qltb b a). Qed.

Lemma percentage_cases (subtotal value : Q) :
  (0 <= subtotal)%Q -> (0 < value)%Q -> F64.is_float value ->
  F64.mul (Fin subtotal) (F64.div_int value 100) = PosInf \/
  exists raw,
    F64.mul (Fin subtotal) (F64.div_int value 100) = Fin raw /\
    (0 <= raw)%Q /\ Utils.percentage_of subtotal value raw.
Proof.
  intros Hs Hv Hfl.
  destruct (F64Facts.hundredth_is_finite value Hv Hfl)
    as (rate & Hrate & Hrate0 & Hclose).
  rewrite Hrate. cbn [F64.mul].
  destruct (F64Facts.round_sign (subtotal * rate))
    as [Hinf|(raw & Hraw & Hraw0)].
  - now apply Qmult_le_0_compat.
  - now left.
  - right. exists raw. split; [exact Hraw|]. split; [exact Hraw0|].
    exists rate. split; [exact Hrate|]. split; [exact Hclose|].
    cbn [F64.mul]. split; [exact Hraw|].
    now apply F64Facts.round_close.
Qed.

Section Evaluator.

Variable upper : string -> string.

(** [apply_discount] on a code that the validation accepts computes what
    [calculate_discount] computes for the row of the code. *)
Lemma apply_discount_amount d now c user total msg r :
  Gen2.validate_discount_code d now (upper c) user = (true, msg, Some r) ->
  Gen2.apply_discount upper d now c user total
  = (true, msg,
     Utils.calculate_discount total (Gen2.discount_type r)
       (Gen2.discount_value r)).
Proof.
  intros Hvalid. unfold Gen2.apply_discount. rewrite Hvalid.
  unfold Utils.calculate_discount.
  destruct (String.eqb (Gen2.discount_type r) "percentage");
    [reflexivity|].
  now rewrite !min_of_finite, min_idempotent.
Qed.

(** C4, as amended. For a subtotal that is not negative and a code whose
    value is a positive float, [calculate_discount] returns a finite
    amount between zero and the subtotal, so the final amount is not
    negative, whether it is taken exactly or as the float
    [subtotal - discount]. For a fixed code the amount is the one of the
    specification, the value clamped to the subtotal. For a percentage
    code it is the subtotal when the product overflows, and otherwise the
    product clamped to the subtotal, where the product is
    [subtotal * (value / 100)] in floats: a hundredth of the value,
    rounded, times the subtotal, rounded again. [apply_discount] answers
    with the same amount for every code its validation accepts. *)
Theorem discount_is_clamped_in_floats (subtotal value : Q)
    (discount_type : string) :
  (0 <= subtotal)%Q -> (0 < value)%Q -> F64.is_float value ->
  exists discount : Q,
    Utils.calculate_discount subtotal discount_type value = Fin discount /\
    (0 <= discount)%Q /\ (discount <= subtotal)%Q /\
    (0 <= subtotal - discount)%Q /\
    F64.is_negative (F64.sub (Fin subtotal) (Fin discount)) = false /\
    (discount_type <> "percentage" ->
     (discount == Utils.spec_discount subtotal discount_type value)%Q) /\
    (discount_type = "percentage" ->
     (F64.mul (Fin subtotal) (F64.div_int value 100) = PosInf /\
      discount = subtotal) \/
     exists raw, Utils.percentage_of subtotal value raw /\
                 (discount == Qmax 0 (Qmin raw subtotal))%Q) /\
    forall d now c user msg r,
      Gen2.validate_discount_code d now (upper c) user
      = (true, msg, Some r) ->
      Gen2.discount_type r = discount_type ->
      Gen2.discount_value r = value ->
      Gen2.apply_discount upper d now c user subtotal
      = (true, msg, Fin discount).
Proof.
  intros Hs Hv Hfl.
  assert (Hshape : exists discount,
    Utils.calculate_discount subtotal discount_type value = Fin discount /\
    (0 <= discount)%Q /\ (discount <= subtotal)%Q /\
    (discount_type <> "percentage" ->
     (discount == Utils.spec_discount subtotal discount_type value)%Q) /\
    (discount_type = "percentage" ->
     (F64.mul (Fin subtotal) (F64.div_int value 100) = PosInf /\
      discount = subtotal) \/
     exists raw, Utils.percentage_of subtotal value raw /\
                 (discount == Qmax 0 (Qmin raw subtotal))%Q)).
  { unfold Utils.calculate_discount, Utils.spec_discount.
    destruct (String.eqb_spec discount_type "percentage") as [->|Hne].
    - destruct (percentage_cases subtotal value Hs Hv Hfl)
        as [Hinf|(raw & Hraw & Hraw0 & Hpct)].
      + rewrite Hinf. exists subtotal. cbn [F64.min F64.lt].
        split; [reflexivity|]. split; [exact Hs|]. split; [apply Qle_refl|].
        split; [congruence|]. intros _. left. now split.
      + rewrite Hraw, min_of_finite.
        destruct (clamp_of_nonneg raw subtotal Hraw0 Hs) as (Heq & H0 & Hle).
        exists (Utils.min raw subtotal).
        split; [reflexivity|]. split; [exact H0|]. split; [exact Hle|].
        split; [congruence|]. intros _. right. exists raw. now split.
    - rewrite min_of_finite.
      destruct (clamp_of_nonneg value subtotal (Qlt_le_weak _ _ Hv) Hs)
        as (Heq & H0 & Hle).
      exists (Utils.min value subtotal).
      split; [reflexivity|]. split; [exact H0|]. split; [exact Hle|].
      split; [intros _; exact Heq|]. intros H. contradiction. }
  destruct Hshape as (discount & Hcalc & H0 & Hle & Hfixed & Hpct).
  exists discount.
  assert (Hfinal : (0 <= subtotal - discount)%Q) by lra.
  split; [exact Hcalc|]. split; [exact H0|]. split; [exact Hle|].
  split; [exact Hfinal|]. split; [|split; [exact Hfixed|split; [exact Hpct|]]].
  - cbn [F64.sub].
    destruct (F64Facts.round_sign _ Hfinal) as [->|(q & -> & Hq)];
      [reflexivity|].
    cbn [F64.is_negative]. apply Qltb_ge. exact Hq.
  - intros d now c user msg r Hvalid <- <-.
    rewrite (apply_discount_amount _ _ _ _ _ _ _ Hvalid). now rewrite Hcalc.
Qed.

End Evaluator.

(** The scenario of the specification: subtotal 100, code of fixed value
    20, final amount 80. *)
Lemma discount_is_clamped_in_floats_witness :
  exists discount : Q,
    Utils.calculate_discount (100 # 1) "fixed" (20 # 1) = Fin discount /\
    (0 <= discount)%Q /\ (discount <= 100 # 1)%Q /\
    (0 <= (100 # 1) - discount)%Q /\
    F64.is_negative (F64.sub (Fin (100 # 1)) (Fin discount)) = false /\
    ("fixed" <> "percentage" ->
     (discount == Utils.spec_discount (100 # 1) "fixed" (20 # 1))%Q) /\
    ("fixed" = "percentage" ->
     (F64.mul (Fin (100 # 1)) (F64.div_int (20 # 1) 100) = PosInf /\
      discount = (100 # 1)) \/
     exists raw, Utils.percentage_of (100 # 1) (20 # 1) raw /\
                 (discount == Qmax 0 (Qmin raw (100 # 1)))%Q) /\
    forall d now c user msg r,
      Gen2.validate_discount_code d now (Sample.upper c) user
      = (true, msg, Some r) ->
      Gen2.discount_type r = "fixed" ->
      Gen2.discount_value r = (20 # 1) ->
      Gen2.apply_discount Sample.upper d now c user (100 # 1)
      = (true, msg, Fin discount).
Proof.
  apply (discount_is_clamped_in_floats Sample.upper (100 # 1) (20 # 1)
           "fixed").
  - discriminate.
  - reflexivity.
  - exists (20 # 1)%Q. split; [vm_compute|]; reflexivity.
Defined.

(** C4, as stated, fails: seven percent of 100 is computed as
    [100 * (7 / 100)], and the float nearest to seven hundredths times 100
    rounds to the float after 7, not to the 7 of the specification. *)
Lemma seven_percent_of_100_is_not_7 :
  F64.is_float (7 # 1) /\
  Utils.calculate_discount (100 # 1) "percentage" (7 # 1)
  = Fin (7881299347898369 # 1125899906842624) /\
  (Utils.spec_discount (100 # 1) "percentage" (7 # 1) == 7 # 1)%Q /\
  ~ (7881299347898369 # 1125899906842624
     == Utils.spec_discount (100 # 1) "percentage" (7 # 1))%Q.
Proof.
  split; [exists (7 # 1)%Q; split; [vm_compute|]; reflexivity|].
  split; [vm_compute; reflexivity|].
  split; [vm_compute; reflexivity|].
  vm_compute. discriminate.
Qed.

Example fixed_20_off_100 :
  Utils.calculate_discount (100 # 1) "fixed" (20 # 1) = Fin (20 # 1) /\
  Utils.calculate_discount (100 # 1) "percentage" (150 # 1)
  = Fin (100 # 1) /\
  Utils.calculate_discount (10 # 1) "fixed" (20 # 1) = Fin (10 # 1) /\
  Utils.calculate_discount (100 # 1) "percentage" (20 # 1) = Fin (20 # 1).
Proof. repeat split; vm_compute; reflexivity. Qed.

End DiscountFacts.

(** ** The second-generation store *)

Module Gen2Facts.

Import Gen2.

(** *** Orders and sessions under the primitive writes *)

Lemma get_order_positive d oid o : get_order d oid = Some o -> 0 < oid.
Proof.
  unfold get_order. destruct (Z.ltb_spec 0 oid); [auto|discriminate].
Qed.

Lemma get_order_row d oid :
  0 < oid -> get_order d oid = orders d !! Z.to_nat (oid - 1).
Proof.
  unfold get_order. destruct (Z.ltb_spec 0 oid); [reflexivity|lia].
Qed.

Lemma get_order_same_orders d d' oid :
  orders d' = orders d -> get_order d' oid = get_order d oid.
Proof. unfold get_order. now intros ->. Qed.

Lemma get_order_app d d' o oid o0 :
  orders d' = orders d ++ [o] ->
  get_order d oid = Some o0 -> get_order d' oid = Some o0.
Proof.
  unfold get_order. intros ->. destruct (0 <? oid); [|discriminate].
  intros H. now apply lookup_app_l_Some.
Qed.

Lemma get_order_fresh d oid o :
  get_order d oid = Some o -> oid <> Z.of_nat (S (length (orders d))).
Proof.
  intros H. pose proof (get_order_positive _ _ _ H) as Hpos.
  rewrite get_order_row in H by assumption.
  apply lookup_lt_Some in H. lia.
Qed.

Lemma get_order_new d d' o :
  orders d' = orders d ++ [o] ->
  get_order d' (Z.of_nat (S (length (orders d)))) = Some o.
Proof.
  intros Ho. rewrite get_order_row by lia. rewrite Ho.
  replace (Z.to_nat (Z.of_nat (S (length (orders d))) - 1))
    with (length (orders d)) by lia.
  now apply list_lookup_middle.
Qed.

Lemma get_order_alter_same d d' oid f o :
  0 < oid ->
  orders d' = alter f (Z.to_nat (oid - 1)) (orders d) ->
  get_order d oid = Some o -> get_order d' oid = Some (f o).
Proof.
  intros Hpos Ho. rewrite !get_order_row by assumption. rewrite Ho.
  intros H. rewrite list_lookup_alter_eq. now rewrite H.
Qed.

Lemma get_order_alter_other d d' oid oid' f :
  0 < oid -> oid' <> oid ->
  orders d' = alter f (Z.to_nat (oid - 1)) (orders d) ->
  get_order d' oid' = get_order d oid'.
Proof.
  intros Hpos Hne Ho. unfold get_order. rewrite Ho.
  destruct (Z.ltb_spec 0 oid'); [|reflexivity].
  apply list_lookup_alter_ne. lia.
Qed.

Lemma waits_for_same_sessions d d' u oid :
  user_sessions d' = user_sessions d ->
  waits_for d' u oid <-> waits_for d u oid.
Proof. unfold waits_for. now intros ->. Qed.

Lemma waits_for_insert d d' u st sd v oid :
  user_sessions d' = <[u := {| state := st; data := sd |}]> (user_sessions d) ->
  waits_for d' v oid <->
  (v = u /\ waiting_order (Some st) sd = Some oid) \/
  (v <> u /\ waits_for d v oid).
Proof.
  unfold waits_for. intros ->. destruct (decide (v = u)) as [->|Hne].
  - rewrite lookup_insert_eq. split.
    + intros (s & [= <-] & H). left. auto.
    + intros [[_ H]|[Hne _]]; [eauto|contradiction].
  - rewrite lookup_insert_ne by congruence. split.
    + intros H. right. auto.
    + intros [[Heq _]|[_ H]]; [contradiction|exact H].
Qed.

Lemma waits_for_delete d d' u v oid :
  user_sessions d' = delete u (user_sessions d) ->
  waits_for d' v oid <-> v <> u /\ waits_for d v oid.
Proof.
  unfold waits_for. intros ->. destruct (decide (v = u)) as [->|Hne].
  - rewrite lookup_delete_eq. split.
    + intros (s & [=] & _).
    + intros [H _]. contradiction.
  - rewrite lookup_delete_ne by congruence. split; [auto|now intros [_ H]].
Qed.

Lemma waiting_order_state st sd oid :
  waiting_order (Some st) sd = Some oid ->
  st = "WAITING_PAYMENT" /\ sd_order_id sd = Some oid /\ oid <> 0.
Proof.
  unfold waiting_order. destruct (sd_order_id sd) as [o|]; [|discriminate].
  destruct (String.eqb_spec st "WAITING_PAYMENT"); simpl; [|discriminate].
  destruct (Z.eqb_spec o 0); simpl; [discriminate|].
  intros [= <-]. auto.
Qed.

(** *** Steps keep the open payments sound *)

Lemma no_sessions_sound d : user_sessions d = ∅ -> sound d.
Proof.
  intros He. split.
  - intros u oid (s & Hs & _). rewrite He, lookup_empty in Hs. discriminate.
  - intros u v oid (s & Hs & _). rewrite He, lookup_empty in Hs. discriminate.
Qed.

Lemma step_sound d d' : sound d -> step d d' -> sound d'.
Proof.
  intros [Hpend Hexcl] Hstep.
  destruct Hstep as [Ho Hs|u st sd Ho Hs Hkeep|u Ho Hs|u o sd Hpo Ho Hid Hs
                    |u oid st h Hwait Hpos Ho Hs].
  - split.
    + intros v oid Hv. apply (waits_for_same_sessions _ _ _ _ Hs) in Hv.
      rewrite (get_order_same_orders _ _ _ Ho). eauto.
    + intros v w oid Hv Hw.
      apply (waits_for_same_sessions _ _ _ _ Hs) in Hv, Hw. eauto.
  - assert (Hold : forall v oid, waits_for d' v oid -> waits_for d v oid).
    { intros v oid Hv. apply (waits_for_insert _ _ _ _ _ _ _ Hs) in Hv.
      destruct Hv as [[-> Hv]|[_ Hv]]; auto. }
    split.
    + intros v oid Hv. rewrite (get_order_same_orders _ _ _ Ho). eauto.
    + intros v w oid Hv Hw.
      apply (waits_for_insert _ _ _ _ _ _ _ Hs) in Hv, Hw.
      destruct Hv as [[-> Hv]|[Hv1 Hv]], Hw as [[-> Hw]|[Hw1 Hw]]; eauto.
  - assert (Hold : forall v oid, waits_for d' v oid -> waits_for d v oid).
    { intros v oid Hv. now apply (waits_for_delete _ _ _ _ _ Hs) in Hv. }
    split.
    + intros v oid Hv. rewrite (get_order_same_orders _ _ _ Ho). eauto.
    + eauto.
  - assert (Hnew : forall oid,
               waiting_order (Some "WAITING_PAYMENT") sd = Some oid ->
               oid = Z.of_nat (S (length (orders d)))).
    { intros oid Hoid. apply waiting_order_state in Hoid as (_ & Hoid & _).
      congruence. }
    split.
    + intros v oid Hv. apply (waits_for_insert _ _ _ _ _ _ _ Hs) in Hv.
      destruct Hv as [[-> Hv]|[_ Hv]].
      * rewrite (Hnew _ Hv). exists o. split; [|assumption].
        now apply get_order_new.
      * destruct (Hpend _ _ Hv) as (o0 & Ho0 & Hst). exists o0.
        split; [|assumption]. now apply (get_order_app d d' o).
    + intros v w oid Hv Hw.
      apply (waits_for_insert _ _ _ _ _ _ _ Hs) in Hv, Hw.
      destruct Hv as [[-> Hv]|[Hv1 Hv]], Hw as [[-> Hw]|[Hw1 Hw]];
        [reflexivity| | |eauto].
      * destruct (Hpend _ _ Hw) as (o0 & Ho0 & _).
        apply get_order_fresh in Ho0. now rewrite (Hnew _ Hv) in Ho0.
      * destruct (Hpend _ _ Hv) as (o0 & Ho0 & _).
        apply get_order_fresh in Ho0. now rewrite (Hnew _ Hw) in Ho0.
  - assert (Hold : forall v oid', waits_for d' v oid' ->
                                  waits_for d v oid' /\ oid' <> oid).
    { intros v oid' Hv. apply (waits_for_delete _ _ _ _ _ Hs) in Hv.
      destruct Hv as [Hne Hv]. split; [assumption|].
      intros ->. apply Hne. eauto. }
    split.
    + intros v oid' Hv. destruct (Hold _ _ Hv) as [Hv' Hne].
      rewrite (get_order_alter_other d d' oid oid' _ Hpos Hne Ho). eauto.
    + intros v w oid' Hv Hw.
      destruct (Hold _ _ Hv) as [Hv' _], (Hold _ _ Hw) as [Hw' _]. eauto.
Qed.

Lemma step_changes_only_pending d d' oid o o' :
  sound d -> step d d' ->
  get_order d oid = Some o -> get_order d' oid = Some o' ->
  status o' <> status o -> status o = pending.
Proof.
  intros [Hpend _] Hstep Hbefore Hafter Hch.
  destruct Hstep as [Ho Hs|u st sd Ho Hs Hkeep|u Ho Hs|u o1 sd Hpo Ho Hid Hs
                    |u oid1 st h Hw Hpos Ho Hs].
  1-3: rewrite (get_order_same_orders _ _ _ Ho) in Hafter; congruence.
  - rewrite (get_order_app d d' o1 oid o Ho Hbefore) in Hafter. congruence.
  - destruct (decide (oid = oid1)) as [->|Hne].
    + destruct (Hpend _ _ Hw) as (o0 & Ho0 & Hst). congruence.
    + rewrite (get_order_alter_other d d' oid1 oid _ Hpos Hne Ho) in Hafter.
      congruence.
Qed.

(** *** The cart validation *)

Lemma validate_item_clean d acc i :
  errors (validate_item d acc i) = [] ->
  errors acc = [] /\
  cart_modified (validate_item d acc i) = cart_modified acc.
Proof.
  unfold validate_item, dropped.
  destruct (get_product d (product_id i)) as [p|]; simpl.
  2: { intros H. now apply app_eq_nil in H as [_ H]. }
  destruct (negb (active p)); simpl.
  { intros H. now apply app_eq_nil in H as [_ H]. }
  destruct (stock_quantity p <? quantity i); simpl.
  - destruct (negb (0 <? stock_quantity p)); simpl.
    { intros H. now apply app_eq_nil in H as [_ H]. }
    destruct (Qltb _ _); simpl; intros H.
    + now apply app_eq_nil in H as [_ H].
    + now apply app_eq_nil in H as [_ H].
  - destruct (Qltb _ _); simpl; intros H.
    + now apply app_eq_nil in H as [_ H].
    + auto.
Qed.

Lemma validate_loop_clean d c acc :
  errors (validate_loop d c acc) = [] ->
  errors acc = [] /\
  cart_modified (validate_loop d c acc) = cart_modified acc.
Proof.
  unfold validate_loop. revert acc.
  induction c as [|i c IH]; intros acc; simpl; [auto|].
  intros H. destruct (IH _ H) as [Hacc Hm].
  destruct (validate_item_clean _ _ _ Hacc) as [Hacc' Hm'].
  split; congruence.
Qed.

(** A cart that passes the validation is not rewritten. *)
Lemma validate_cart_valid d user d' :
  validate_cart d user = (d', true) -> d' = d.
Proof.
  unfold validate_cart.
  set (v := validate_loop d (get_user_cart d user) _).
  destruct (errors v) eqn:He; [|discriminate].
  destruct (validate_loop_clean _ _ _ He) as [_ Hm]. fold v in Hm.
  simpl in Hm. rewrite Hm. now intros [= <-].
Qed.

Lemma same_but_users_refl d : same_but_users d d.
Proof. unfold same_but_users. now destruct d. Qed.

Lemma validate_cart_frame d user : same_but_users d (fst (validate_cart d user)).
Proof.
  unfold validate_cart. destruct (cart_modified _); simpl.
  - reflexivity.
  - apply same_but_users_refl.
Qed.

Lemma prepare_order_data_frame d user :
  same_but_users d (fst (prepare_order_data d user)).
Proof.
  unfold prepare_order_data. pose proof (validate_cart_frame d user) as H.
  destruct (is_empty _).
  - apply same_but_users_refl.
  - destruct (validate_cart d user) as [d' [|]]; exact H.
Qed.

Lemma prepare_order_data_some d user d' summary :
  prepare_order_data d user = (d', Some summary) ->
  d' = d /\ get_user_cart d user <> [] /\
  items summary = get_user_cart d user.
Proof.
  unfold prepare_order_data.
  destruct (validate_cart d user) as [d1 b] eqn:Hv.
  unfold get_cart_summary.
  destruct (get_user_cart d user) as [|i c] eqn:Hc; cbn [is_empty items];
    [discriminate|].
  destruct b; [|discriminate].
  intros [= <- <-]. apply validate_cart_valid in Hv.
  repeat split; [assumption|discriminate].
Qed.

(** *** What the handlers do to the store *)

Lemma update_order_status_orders d oid st h :
  0 < oid ->
  orders (update_order_status d oid st h)
  = alter (set_status st (keep_hash h)) (Z.to_nat (oid - 1)) (orders d).
Proof.
  intros Hpos. unfold update_order_status.
  destruct (Z.ltb_spec 0 oid); [reflexivity|lia].
Qed.

Lemma update_order_status_nonpositive d oid st h :
  oid <= 0 -> update_order_status d oid st h = d.
Proof.
  intros Hle. unfold update_order_status.
  destruct (Z.ltb_spec 0 oid); [lia|reflexivity].
Qed.

Lemma update_order_status_frame d oid st h :
  let d' := update_order_status d oid st h in
  users d' = users d /\ user_sessions d' = user_sessions d /\
  discount_codes d' = discount_codes d /\
  discount_usage d' = discount_usage d.
Proof.
  unfold update_order_status. destruct (0 <? oid); repeat split.
Qed.

Lemma waits_for_of_state d u oid :
  waiting_order (fst (get_user_state d u)) (snd (get_user_state d u))
  = Some oid ->
  waits_for d u oid.
Proof.
  unfold get_user_state, waits_for.
  destruct (user_sessions d !! u) as [s|]; simpl; [eauto|discriminate].
Qed.

Section Handlers.

Variable wallet_address : string.
Variable int_of_str : string -> option Z.
Variable str_of_int : Z -> string.
Variable upper : string -> string.

Local Abbreviation process_payment := (Gen2.process_payment str_of_int).
Local Abbreviation settle := (Gen2.settle upper).
Local Abbreviation check_payment_status :=
  (Gen2.check_payment_status wallet_address int_of_str upper).
Local Abbreviation handle :=
  (Gen2.handle wallet_address int_of_str str_of_int upper).
Local Abbreviation run :=
  (Gen2.run wallet_address int_of_str str_of_int upper).

Lemma process_payment_shape d u d' r :
  process_payment d u = (d', r) ->
  (same_but_users d d' /\ r = UnableToProcessOrder) \/
  (exists o sd amount,
      get_user_cart d u <> [] /\ status o = pending /\ user_id o = u /\
      sd_order_id sd = Some (Z.of_nat (S (length (orders d)))) /\
      d' = set_user_state (with_orders d (orders d ++ [o])) u
             "WAITING_PAYMENT" sd /\
      r = PaymentInstructions amount (Z.of_nat (S (length (orders d))))
            (Ton.order_comment str_of_int
               (Z.of_nat (S (length (orders d)))) u)).
Proof.
  unfold Gen2.process_payment.
  pose proof (prepare_order_data_frame d u) as Hframe.
  destruct (prepare_order_data d u) as [d1 [summary|]] eqn:Hp.
  - apply prepare_order_data_some in Hp as (-> & Hcart & _).
    destruct (get_user_state d u) as [st sd0]. unfold create_order.
    intros [= <- <-]. right. do 3 eexists.
    repeat split; [exact Hcart|..]; reflexivity.
  - intros [= <- <-]. left. auto.
Qed.

Lemma settle_frame d u oid h sd :
  orders (settle d u oid h sd)
  = orders (update_order_status d oid paid (Some h)) /\
  user_sessions (settle d u oid h sd) = delete u (user_sessions d) /\
  users (settle d u oid h sd) = alter (fun _ => []) u (users d) /\
  ledger_extends d (settle d u oid h sd).
Proof.
  pose proof (update_order_status_frame d oid paid (Some h))
    as (Hu & Hs & Hc & Hl).
  unfold Gen2.settle, clear_cart, clear_user_cart, update_user_cart,
    clear_user_state, use_discount_code, ledger_extends.
  assert (Hbump : forall cid l,
             map (fun r => (id r, code r)) (map (bump cid) l)
             = map (fun r => (id r, code r)) l).
  { intros cid l. rewrite map_map. apply map_ext. intros r.
    unfold bump. now destruct (id r =? cid). }
  destruct (sd_discount_code sd) as [c|]; [destruct (String.eqb c "")|];
    [|destruct (Gen2.get_discount_info upper _ c) as [r|]|]; simpl;
    rewrite ?Hu, ?Hs, ?Hc, ?Hl, ?Hbump;
    repeat split; try (exists []; now rewrite app_nil_r); eauto.
Qed.

Lemma check_payment_status_shape d u env d' r :
  check_payment_status d u env = (d', r) ->
  (d' = d /\ forall oid h, r <> PaymentConfirmed oid h) \/
  (exists oid h s,
      user_sessions d !! u = Some s /\ waits_for d u oid /\
      d' = settle d u oid h (data s) /\ r = PaymentConfirmed oid h).
Proof.
  unfold Gen2.check_payment_status.
  pose proof (waits_for_of_state d u) as Hw. unfold get_user_state in *.
  destruct (user_sessions d !! u) as [s|] eqn:Hs; cbn [fst snd] in Hw;
    cbv beta iota zeta.
  2: { intros [= <- <-]. left. split; [reflexivity|discriminate]. }
  destruct (waiting_order (Some (state s)) (data s)) as [oid|].
  2: { intros [= <- <-]. left. split; [reflexivity|discriminate]. }
  destruct (sd_amount (data s)) as [a|], (sd_comment (data s)) as [c|];
    try (intros [= <- <-]; left; split; [reflexivity|discriminate]).
  destruct (Ton.verify_payment _ _ _ _ _ _) as [v|];
    [destruct (Ton.success v)|];
    intros [= <- <-];
    [right|left; split; [reflexivity|discriminate]..].
  exists oid, (Ton.tx_hash v), s. auto.
Qed.

Lemma cancel_current_order_shape d u :
  (cancel_current_order d u = (d, NoPendingOrderToCancel)) \/
  (exists oid,
      waits_for d u oid /\
      cancel_current_order d u
      = (clear_user_state (update_order_status d oid cancelled None) u,
         OrderCancelled)).
Proof.
  unfold cancel_current_order.
  pose proof (waits_for_of_state d u) as Hw.
  destruct (get_user_state d u) as [st sd]; simpl in Hw.
  destruct (waiting_order st sd) as [oid|]; [|now left].
  right. exists oid. split; [auto|].
  f_equal. unfold clear_user_state, with_sessions; simpl.
  now rewrite delete_delete_eq.
Qed.

(** Every customer event is one of the five steps. *)
Lemma handle_step d e : customer_event e -> step d (handle d e).
Proof.
  destruct e as [u|u env|u|u c now|u|u|u st sd|u c]; simpl; intros Hev.
  - destruct (process_payment d u) as [d' r] eqn:Hp. simpl.
    apply process_payment_shape in Hp
      as [[Hd _]|(o & sd & a & _ & Ho & _ & Hid & -> & _)].
    + rewrite Hd. now apply step_quiet.
    + now apply (step_open _ _ u o sd).
  - destruct (check_payment_status d u env) as [d' r] eqn:Hc. simpl.
    apply check_payment_status_shape in Hc
      as [[-> _]|(oid & h & s & Hs & Hw & -> & _)].
    + now apply step_quiet.
    + destruct (settle_frame d u oid h (data s)) as (Ho & Hse & _).
      destruct (Z.lt_ge_cases 0 oid) as [Hpos|Hle].
      * rewrite update_order_status_orders in Ho by assumption.
        now apply (step_close _ _ u oid paid (keep_hash (Some h))).
      * rewrite update_order_status_nonpositive in Ho by lia.
        now apply (step_forget _ _ u).
  - destruct (cancel_current_order_shape d u) as [->|(oid & Hw & ->)]; simpl.
    + now apply step_quiet.
    + destruct (Z.lt_ge_cases 0 oid) as [Hpos|Hle].
      * destruct (update_order_status_frame d oid cancelled None)
          as (_ & Hs & _).
        apply (step_close _ _ u oid cancelled (keep_hash None));
          [exact Hw|exact Hpos| |].
        -- simpl. now apply update_order_status_orders.
        -- simpl. now rewrite Hs.
      * rewrite update_order_status_nonpositive by lia.
        now apply (step_forget _ _ u).
  - unfold Gen2.handle_discount_code_input.
    destruct (Gen2.apply_discount _ _ _ _ _ _) as [[[|] msg] [a| | |]];
      try now apply step_quiet.
    eapply step_session; [reflexivity|reflexivity|].
    intros oid H. apply waiting_order_state in H as (H & _). discriminate.
  - unfold remove_discount.
    destruct (user_sessions d !! u) as [s|] eqn:Hs; [|now apply step_quiet].
    destruct (sd_discount_code (data s)) as [c|]; [|now apply step_quiet].
    destruct (String.eqb c ""); [now apply step_quiet|].
    eapply step_session; [reflexivity|reflexivity|].
    intros oid H. exists s. split; [exact Hs|exact H].
  - now apply (step_forget _ _ u).
  - eapply step_session; [reflexivity|reflexivity|].
    intros oid H. apply waiting_order_state in H as (H & _). contradiction.
  - now apply step_quiet.
Qed.

Lemma run_sound d es :
  sound d -> Forall customer_event es -> sound (run d es).
Proof.
  unfold Gen2.run. revert d.
  induction es as [|e es IH]; intros d Hd Hes; simpl; [exact Hd|].
  inversion Hes as [|? ? He Hes']; subst.
  apply IH; [|exact Hes'].
  eapply step_sound; [exact Hd|now apply handle_step].
Qed.

Lemma ledger_extends_same d d' :
  discount_codes d' = discount_codes d ->
  discount_usage d' = discount_usage d ->
  ledger_extends d d'.
Proof.
  intros Hc Hu. split; [now rewrite Hc|]. exists []. now rewrite app_nil_r.
Qed.

Lemma ledger_extends_trans d1 d2 d3 :
  ledger_extends d1 d2 -> ledger_extends d2 d3 -> ledger_extends d1 d3.
Proof.
  intros [Hc (r1 & Hu)] [Hc' (r2 & Hu')]. split; [congruence|].
  exists (r1 ++ r2). rewrite Hu', Hu. now rewrite app_assoc.
Qed.

Lemma handle_ledger d e : ledger_extends d (handle d e).
Proof.
  destruct e as [u|u env|u|u c now|u|u|u st sd|u c]; simpl.
  - destruct (process_payment d u) as [d' r] eqn:Hp. simpl.
    apply process_payment_shape in Hp
      as [[Hd _]|(o & sd & a & _ & _ & _ & _ & -> & _)].
    + rewrite Hd. now apply ledger_extends_same.
    + now apply ledger_extends_same.
  - destruct (check_payment_status d u env) as [d' r] eqn:Hc. simpl.
    apply check_payment_status_shape in Hc
      as [[-> _]|(oid & h & s & _ & _ & -> & _)].
    + now apply ledger_extends_same.
    + apply settle_frame.
  - destruct (cancel_current_order_shape d u) as [->|(oid & _ & ->)]; simpl.
    + now apply ledger_extends_same.
    + destruct (update_order_status_frame d oid cancelled None)
        as (_ & _ & Hc & Hu).
      now apply ledger_extends_same.
  - unfold Gen2.handle_discount_code_input.
    destruct (Gen2.apply_discount _ _ _ _ _ _) as [[[|] msg] [a| | |]];
      now apply ledger_extends_same.
  - unfold remove_discount.
    destruct (user_sessions d !! u) as [s|]; [|now apply ledger_extends_same].
    destruct (sd_discount_code (data s)) as [c|];
      [|now apply ledger_extends_same].
    destruct (String.eqb c ""); now apply ledger_extends_same.
  - now apply ledger_extends_same.
  - now apply ledger_extends_same.
  - now apply ledger_extends_same.
Qed.

Lemma run_ledger d es : ledger_extends d (run d es).
Proof.
  unfold Gen2.run. revert d. induction es as [|e es IH]; intros d; simpl.
  - now apply ledger_extends_same.
  - eapply ledger_extends_trans; [apply handle_ledger|apply IH].
Qed.

(** *** Discount codes a user has used *)

Lemma same_code_same_row (l : list discount) (a b : discount) :
  List.NoDup (map code l) -> In a l -> In b l -> code a = code b -> a = b.
Proof.
  induction l as [|r l IH]; simpl; [contradiction|].
  intros Hnd [->|Ha] [->|Hb] Hc; inversion Hnd as [|? ? Hnot Hnd']; subst.
  - reflexivity.
  - destruct Hnot. rewrite Hc. now apply in_map.
  - destruct Hnot. rewrite <- Hc. now apply in_map.
  - now apply IH.
Qed.

Lemma has_used_row d c user r :
  List.NoDup (map code (discount_codes d)) ->
  has_used d c user ->
  get_discount_code d c = Some r ->
  used_by d (id r) user = true.
Proof.
  intros Hnd (cid & Hin & Hused) Hget.
  apply in_map_iff in Hin as (r0 & [= <- <-] & Hr0).
  apply find_some in Hget as [Hr Hcode].
  apply andb_true_iff in Hcode as [Hcode _]. apply String.eqb_eq in Hcode.
  now rewrite (same_code_same_row _ r r0 Hnd Hr Hr0 Hcode).
Qed.

Lemma has_used_extends d d' c user :
  ledger_extends d d' -> has_used d c user -> has_used d' c user.
Proof.
  intros [Hkeys (rows & Hrows)] (cid & Hin & Hused). exists cid.
  split; [now rewrite Hkeys|].
  unfold used_by in *. rewrite Hrows, existsb_app, Hused. reflexivity.
Qed.

Lemma unique_codes_extends d d' :
  ledger_extends d d' ->
  List.NoDup (map code (discount_codes d)) ->
  List.NoDup (map code (discount_codes d')).
Proof.
  intros [Hkeys _].
  assert (E : forall l, map code l = map snd (map (fun r => (id r, code r)) l)).
  { intros l. now rewrite map_map. }
  now rewrite !E, Hkeys.
Qed.

(** C3, as amended. Once the ledger holds a usage row for a code and a
    user, every later evaluation of the code for that user rejects it,
    whatever the customers did in between; the answer is "already used"
    whenever the code is still found, not expired and below its usage
    limit (the earlier tests of the evaluation win otherwise). *)
Theorem used_code_stays_rejected d es now c user :
  List.NoDup (map code (discount_codes d)) ->
  has_used d c user ->
  exists v,
    validate_discount_code (run d es) now c user = (false, v, None) /\
    forall r,
      get_discount_code (run d es) c = Some r ->
      expired r now = false -> limit_reached r = false ->
      v = AlreadyUsed.
Proof.
  intros Hnd Hused. pose proof (run_ledger d es) as Hext.
  apply (has_used_extends _ _ _ _ Hext) in Hused.
  apply (unique_codes_extends _ _ Hext) in Hnd.
  unfold validate_discount_code.
  destruct (get_discount_code (run d es) c) as [r|] eqn:Hget.
  - rewrite (has_used_row _ _ _ _ Hnd Hused Hget).
    destruct (expired r now) eqn:He; [|destruct (limit_reached r) eqn:Hl];
      eexists; (split; [reflexivity|]); intros r' [= <-]; congruence.
  - eexists. split; [reflexivity|]. discriminate.
Qed.

(** *** Confirming a payment *)

Lemma settle_usage d u oid h sd :
  exists rows,
    discount_usage (settle d u oid h sd) = discount_usage d ++ rows /\
    (length rows <= 1)%nat.
Proof.
  pose proof (update_order_status_frame d oid paid (Some h))
    as (_ & _ & _ & Hl).
  unfold Gen2.settle, use_discount_code.
  destruct (sd_discount_code sd) as [c|]; [destruct (String.eqb c "")|];
    [|destruct (Gen2.get_discount_info upper _ c) as [r|]|]; simpl;
    rewrite Hl; try (exists []; rewrite app_nil_r; split; [reflexivity|simpl; lia]).
  eexists. split; [reflexivity|simpl; lia].
Qed.


(** C6. When a call of [check_payment_status] confirms the payment, the
    order of the session becomes paid, the cart of the user is emptied and
    at most one usage row is written; a second call right after it finds
    no pending payment and leaves the store as it is: no further usage row,
    no further increment of the used count, no second clearing. *)
Theorem second_confirmation_is_noop d u env1 env2 d1 oid h :
  check_payment_status d u env1 = (d1, PaymentConfirmed oid h) ->
  (forall o, get_order d oid = Some o ->
             exists o1, get_order d1 oid = Some o1 /\ status o1 = paid) /\
  get_user_cart d1 u = [] /\
  (exists rows, discount_usage d1 = discount_usage d ++ rows /\
                (length rows <= 1)%nat) /\
  check_payment_status d1 u env2 = (d1, NoPendingPayment).
Proof.
  intros Hc. apply check_payment_status_shape in Hc
    as [[_ Hno]|(oid' & h' & s & Hs & Hw & -> & [= <- <-])].
  { now destruct (Hno oid h). }
  destruct (settle_frame d u oid h (data s)) as (Ho & Hse & Hu & _).
  split; [|split; [|split]].
  - intros o Hget. pose proof (get_order_positive _ _ _ Hget) as Hpos.
    rewrite update_order_status_orders in Ho by assumption.
    eexists. split; [exact (get_order_alter_same _ _ _ _ _ Hpos Ho Hget)|].
    reflexivity.
  - unfold get_user_cart. rewrite Hu, lookup_alter_eq.
    now destruct (users d !! u).
  - apply settle_usage.
  - unfold Gen2.check_payment_status, get_user_state.
    now rewrite Hse, lookup_delete_eq.
Qed.

(** *** Cancelling *)

(** C8, as amended. In every sequence of customer operations that starts
    from a store without open sessions, a further customer operation
    changes the status of an order only if the order is pending: an order
    is cancelled from pending only, and a paid order stays paid. *)
Theorem customers_change_only_pending_orders d es e oid o o' :
  user_sessions d = ∅ ->
  Forall customer_event es ->
  customer_event e ->
  get_order (run d es) oid = Some o ->
  get_order (handle (run d es) e) oid = Some o' ->
  status o' <> status o ->
  status o = pending.
Proof.
  intros Hinit Hes He. apply step_changes_only_pending.
  - apply run_sound; [now apply no_sessions_sound|exact Hes].
  - now apply handle_step.
Qed.

(** *** Starting a checkout *)






End Handlers.

(** *** The handlers on the sample store *)

Local Abbreviation W := Sample.wallet.
Local Abbreviation parse := Sample.int_of_str.
Local Abbreviation render := Sample.str_of_int.
Local Abbreviation up := Sample.upper.
Local Abbreviation run := (Gen2.run W parse render up).

(** C3, as stated, fails: after user 7 has used SAVE20, whose limit is one
    use, the evaluation for user 7 answers "usage limit reached". *)
Lemma used_code_hits_the_limit_first :
  Gen2.has_used (use_discount_code (Sample.shop2 (Some 1)) 1 7 1) "SAVE20" 7 /\
  validate_discount_code (use_discount_code (Sample.shop2 (Some 1)) 1 7 1)
    0 "SAVE20" 7
  = (false, UsageLimitReached, None).
Proof.
  split; [|vm_compute; reflexivity].
  exists 1. split; [left|]; reflexivity.
Qed.

Lemma used_code_stays_rejected_witness :
  exists v,
    validate_discount_code
      (run (use_discount_code (Sample.shop2 (Some 5)) 1 7 1)
         [ProcessPayment 7]) 0 "SAVE20" 7
    = (false, v, None) /\
    forall r,
      get_discount_code
        (run (use_discount_code (Sample.shop2 (Some 5)) 1 7 1)
           [ProcessPayment 7]) "SAVE20" = Some r ->
      expired r 0 = false -> limit_reached r = false ->
      v = AlreadyUsed.
Proof.
  apply (used_code_stays_rejected W parse render up
           (use_discount_code (Sample.shop2 (Some 5)) 1 7 1)
           [ProcessPayment 7] 0 "SAVE20" 7).
  - simpl. constructor; [intros []|constructor].
  - exists 1. split; [left|]; reflexivity.
Defined.

Example used_code_with_headroom :
  validate_discount_code (use_discount_code (Sample.shop2 (Some 5)) 1 7 1)
    0 "SAVE20" 7
  = (false, AlreadyUsed, None) /\
  fst (fst (validate_discount_code
              (use_discount_code (Sample.shop2 (Some 5)) 1 7 1)
              0 "SAVE20" 8)) = true.
Proof. split; vm_compute; reflexivity. Qed.

Lemma second_confirmation_is_noop_witness :
  (forall o,
      get_order (run (Sample.shop2 None) [ProcessPayment 7]) 1 = Some o ->
      exists o1,
        get_order (run (Sample.shop2 None)
                     [ProcessPayment 7; CheckPayment 7 Sample.ledger_paid]) 1
        = Some o1 /\ status o1 = paid) /\
  get_user_cart (run (Sample.shop2 None)
                   [ProcessPayment 7; CheckPayment 7 Sample.ledger_paid]) 7
  = [] /\
  (exists rows,
      discount_usage (run (Sample.shop2 None)
                        [ProcessPayment 7; CheckPayment 7 Sample.ledger_paid])
      = discount_usage (run (Sample.shop2 None) [ProcessPayment 7]) ++ rows /\
      (length rows <= 1)%nat) /\
  Gen2.check_payment_status W parse up
    (run (Sample.shop2 None)
       [ProcessPayment 7; CheckPayment 7 Sample.ledger_paid]) 7
    Sample.ledger_empty
  = (run (Sample.shop2 None)
       [ProcessPayment 7; CheckPayment 7 Sample.ledger_paid],
     NoPendingPayment).
Proof.
  apply (second_confirmation_is_noop W parse up
           (run (Sample.shop2 None) [ProcessPayment 7]) 7
           Sample.ledger_paid Sample.ledger_empty
           (run (Sample.shop2 None)
              [ProcessPayment 7; CheckPayment 7 Sample.ledger_paid])
           1 (PStr "h7")).
  vm_compute. reflexivity.
Defined.

(** C8, as stated, fails: [update_order_status] writes whatever status it
    is given. A paid order is cancelled through the admin panel, and
    [cancel_current_order] cancels the paid order of a session that is
    still waiting; the first generation's [update_order_status] does the
    same. *)
Lemma paid_order_can_be_cancelled :
  option_map status
    (get_order (run (Sample.shop2 None)
                  [ProcessPayment 7; CheckPayment 7 Sample.ledger_paid]) 1)
  = Some paid /\
  option_map status
    (get_order
       (fst (admin_update_order_status
               (run (Sample.shop2 None)
                  [ProcessPayment 7; CheckPayment 7 Sample.ledger_paid])
               1 cancelled)) 1)
  = Some cancelled /\
  option_map status
    (get_order
       (fst (admin_update_order_status
               (run (Sample.shop2 None) [ProcessPayment 7]) 1 paid)) 1)
  = Some paid /\
  option_map status
    (get_order
       (fst (cancel_current_order
               (fst (admin_update_order_status
                       (run (Sample.shop2 None) [ProcessPayment 7]) 1 paid))
               7)) 1)
  = Some cancelled /\
  option_map Gen1.status
    (Gen1.get_order
       (fst (Gen1.update_order_status
               (fst (Gen1.update_order_status
                       (fst (Gen1.create_order Sample.shop1 7 [] (80 # 1)))
                       1 paid (Some "h7")))
               1 cancelled None)) 1)
  = Some cancelled.
Proof. repeat split; vm_compute; reflexivity. Qed.

Lemma customers_change_only_pending_orders_witness :
  status (Sample.first_order pending) = pending.
Proof.
  apply (customers_change_only_pending_orders W parse render up
           (Sample.shop2 None) [ProcessPayment 7] (CancelOrder 7) 1
           (Sample.first_order pending) (Sample.first_order cancelled)).
  - reflexivity.
  - repeat constructor.
  - exact I.
  - vm_compute. reflexivity.
  - vm_compute. reflexivity.
  - discriminate.
Defined.

End Gen2Facts.

(** ** Starting a checkout and the cart *)

Module CheckoutFacts.

Lemma find_app_some {A} (f : A -> bool) (l l' : list A) (x : A) :
  List.find f l = Some x -> List.find f (l ++ l') = Some x.
Proof.
  induction l as [|a l IH]; simpl; [discriminate|].
  destruct (f a); auto.
Qed.

(** A user who has a row in [carts] reads that row back after any
    [update_cart]: the new row comes after it. *)
Lemma get_cart_after_update_cart d user c v :
  Gen1.get_cart d v <> [] ->
  Gen1.get_cart (fst (Gen1.update_cart d user c)) v = Gen1.get_cart d v.
Proof.
  unfold Gen1.get_cart. simpl.
  destruct (List.find _ (Gen1.carts d)) as [r|] eqn:Hf; [|congruence].
  intros _. now rewrite (find_app_some _ _ _ _ Hf).
Qed.

Section Both.

Variable wallet_address : string.
Variable int_of_str : string -> option Z.
Variable str_of_int : Z -> string.
Variable upper : string -> string.
Variable TON_CONVERSION_RATE : Q.

Local Abbreviation start_checkout :=
  (Gen1.start_checkout TON_CONVERSION_RATE str_of_int).

Lemma start_checkout_shape d u d' amount oid c :
  start_checkout d u true = (d', Gen1.PaymentInstructions amount oid c) ->
  Gen1.get_cart_items d u <> [] /\
  Gen1.carts d'
  = Gen1.carts d ++ [{| Gen1.row_user_id := u; Gen1.cart_data := [] |}] /\
  exists o, Gen1.get_order d' oid = Some o /\ Gen1.status o = pending /\
            Gen1.user_id o = u.
Proof.
  unfold Gen1.start_checkout.
  destruct (Gen1.get_cart_items d u) as [|i l] eqn:Hi; [discriminate|].
  unfold Gen1.create_order.
  destruct (Z.eqb_spec (Z.of_nat (S (length (Gen1.orders d)))) 0);
    [discriminate|].
  simpl. intros [= <- _ <- _]. split; [discriminate|]. split; [reflexivity|].
  assert (Hrow : Z.to_nat (Z.of_nat (S (length (Gen1.orders d))) - 1)
                 = length (Gen1.orders d)) by lia.
  eexists.
  split; [unfold Gen1.get_order; simpl; rewrite Hrow;
          now apply list_lookup_middle|].
  split; reflexivity.
Qed.

(** What [get_cart] returns for the user is the same before and after
    [start_checkout]: the empty row that [clear_cart] adds is never the
    user's first row. *)
Lemma start_checkout_read_back d u sent :
  Gen1.get_cart (fst (start_checkout d u sent)) u = Gen1.get_cart d u.
Proof.
  unfold Gen1.start_checkout, Gen1.get_cart_items.
  destruct (Gen1.get_cart d u) as [|e c] eqn:Hc.
  - simpl. now rewrite Hc.
  - destruct (Gen1.cart_items d (e :: c)); [simpl; now rewrite Hc|].
    unfold Gen1.create_order.
    destruct (Z.of_nat _ =? 0); [simpl; exact Hc|].
    destruct sent; [|simpl; exact Hc].
    unfold Gen1.clear_cart, Gen1.db_clear_cart. simpl.
    unfold Gen1.get_cart in *. simpl.
    destruct (List.find _ (Gen1.carts d)) as [r|] eqn:Hf; [|discriminate].
    now rewrite (find_app_some _ _ _ _ Hf).
Qed.


End Both.

(** The first generation's [start_checkout] for user 7, whose cart holds
    two tees: the instructions of order 1, and one more cart row, empty,
    behind the row that [get_cart] goes on reading. *)
Example start_checkout_adds_a_cart_row :
  Gen1.get_cart_items Sample.shop1 7 <> [] /\
  snd (Gen1.start_checkout Sample.rate Sample.str_of_int Sample.shop1 7 true)
  = Gen1.PaymentInstructions ((80 # 1) * Sample.rate) 1 "ORDER_1_7" /\
  Gen1.carts
    (fst (Gen1.start_checkout Sample.rate Sample.str_of_int Sample.shop1 7 true))
  = Gen1.carts Sample.shop1
    ++ [{| Gen1.row_user_id := 7; Gen1.cart_data := [] |}].
Proof.
  split; [vm_compute; discriminate|]. split; vm_compute; reflexivity.
Qed.


End CheckoutFacts.

(** ** More on the matcher *)

Module MatcherFacts.

Section Matcher.

Variable wallet_address : string.
Variable int_of_str : string -> option Z.

Local Abbreviation check := (Ton.check_transaction wallet_address int_of_str).
Local Abbreviation scan := (Ton.scan_transactions wallet_address int_of_str).
Local Abbreviation round_of := (Ton.poll_round wallet_address int_of_str).
Local Abbreviation poll := (Ton.poll wallet_address int_of_str).
Local Abbreviation verify_payment :=
  (Ton.verify_payment wallet_address int_of_str).


Lemma elapsed_before_ge env k :
  Z.of_nat k * Ton.check_interval_us <= Clock.elapsed_before env k.
Proof.
  induction k as [|k IH]; simpl Clock.elapsed_before; [simpl; lia|].
  pose proof (TonFacts.round_us_ge (env k)). lia.
Qed.

Lemma elapsed_before_mono env j k :
  (j <= k)%nat -> Clock.elapsed_before env j <= Clock.elapsed_before env k.
Proof.
  induction 1 as [|k _ IH]; [lia|]. simpl.
  pose proof (TonFacts.round_us_ge (env k)). unfold Ton.check_interval_us in *.
  lia.
Qed.

Lemma poll_reaches expected comment timeout env k h n :
  forall j fuel,
    (j + n = k)%nat -> (n < fuel)%nat ->
    (forall i, (j <= i < k)%nat ->
               Ton.no_match (round_of expected comment (Ton.fetch (env i)))) ->
    Clock.elapsed_before env k < timeout * 1000000 ->
    round_of expected comment (Ton.fetch (env k)) = Ok (Some h) ->
    poll expected comment timeout env fuel j (Clock.elapsed_before env j)
    = Some {| Ton.success := true; Ton.tx_hash := h;
              Ton.ended_at := Clock.elapsed_before env k
                              + Z.of_N (Ton.fetch_us (env k));
              Ton.rounds_before := S k |}.
Proof.
  induction n as [|n IH]; intros j fuel Hjk Hfuel Hnone Hlate Hfound.
  - assert (j = k) as -> by lia.
    destruct fuel as [|fuel]; [lia|]. simpl.
    destruct (Z.ltb_spec (Clock.elapsed_before env k) (timeout * 1000000));
      [|lia].
    now rewrite Hfound.
  - destruct fuel as [|fuel]; [lia|]. simpl.
    pose proof (elapsed_before_mono env j k ltac:(lia)).
    destruct (Z.ltb_spec (Clock.elapsed_before env j) (timeout * 1000000));
      [|lia].
    pose proof (Hnone j ltac:(lia)) as Hj.
    assert (Hnext : poll expected comment timeout env fuel (S j)
                      (Clock.elapsed_before env (S j)) = _)
      by (apply (IH (S j) fuel); [lia|lia| |assumption|assumption];
          intros i Hi; apply Hnone; lia).
    simpl Clock.elapsed_before in Hnext.
    destruct (round_of expected comment (Ton.fetch (env j))) as [[h'|]|e];
      [destruct Hj|exact Hnext|exact Hnext].
Qed.

Lemma passing_record_is_reported expected comment tx h :
  Ton._is_incoming_transaction wallet_address tx = true ->
  Ton.amount_close (Ton._get_transaction_amount int_of_str tx) expected
  = true ->
  Ton._get_transaction_comment tx = PStr comment ->
  Ton.transaction_hash tx = Ok h ->
  check expected comment tx = Ok (Some h).
Proof.
  intros Hin Hamount Hmemo Hhash. unfold Ton.check_transaction.
  rewrite Hin, Hamount, Hmemo, Hhash. cbn [negb Py.bind eq_str andb].
  now rewrite String.eqb_refl.
Qed.

(** X2. A payment that is in the ledger is found. When the rounds before
    round [k] report nothing, round [k] starts before the deadline and the
    list it fetches holds a record that is incoming, passes the amount
    test, carries the expected memo and has a hash, behind records that
    the loop passes over without raising, then [verify_payment] returns
    success with that hash, at the end of the fetch of round [k]. *)
Theorem payment_in_ledger_is_found expected comment timeout env k pre tx
    post h :
  (forall i, (i < k)%nat ->
             Ton.no_match (round_of expected comment (Ton.fetch (env i)))) ->
  Clock.elapsed_before env k < timeout * 1000000 ->
  Ton.get_transaction_history (Ton.fetch (env k))
  = PList (pre ++ tx :: post) ->
  Forall (fun t => Ton.check_transaction wallet_address int_of_str
                     expected comment t = Ok None) pre ->
  Ton._is_incoming_transaction wallet_address tx = true ->
  Ton.amount_close (Ton._get_transaction_amount int_of_str tx) expected
  = true ->
  Ton._get_transaction_comment tx = PStr comment ->
  Ton.transaction_hash tx = Ok h ->
  verify_payment expected comment timeout env
  = Some {| Ton.success := true; Ton.tx_hash := h;
            Ton.ended_at := Clock.elapsed_before env k
                            + Z.of_N (Ton.fetch_us (env k));
            Ton.rounds_before := S k |}.
Proof.
  intros Hnone Hlate Hbatch Hpre Hin Hamount Hmemo Hhash.
  assert (Hscan : scan expected comment (pre ++ tx :: post) = Ok (Some h)).
  { clear Hbatch. induction Hpre as [|t pre Ht _ IH]; cbn [app].
    - cbn [Ton.scan_transactions].
      now rewrite (passing_record_is_reported _ _ _ _ Hin Hamount Hmemo
                     Hhash).
    - cbn [Ton.scan_transactions]. rewrite Ht. exact IH. }
  assert (Hfound : round_of expected comment (Ton.fetch (env k))
                   = Ok (Some h)).
  { unfold Ton.poll_round. rewrite Hbatch. exact Hscan. }
  unfold Ton.verify_payment.
  apply (poll_reaches expected comment timeout env k h k O);
    [lia| |intros i Hi; apply Hnone; lia|assumption|assumption].
  unfold Ton.enough_fuel. pose proof (elapsed_before_ge env k) as Hk.
  unfold Ton.check_interval_us in *.
  assert (Z.of_nat k <= timeout * 1000000 / (10 * 1000000)).
  { apply Z.div_le_lower_bound; lia. }
  lia.
Qed.

Lemma poll_round_count expected comment timeout env fuel k elapsed v :
  poll expected comment timeout env fuel k elapsed = Some v ->
  Z.of_nat k * Ton.check_interval_us <= elapsed ->
  (k = O \/ (Z.of_nat k - 1) * Ton.check_interval_us < timeout * 1000000) ->
  (Z.of_nat (Ton.rounds_before v) - 1) * Ton.check_interval_us
  < Z.max 0 (timeout * 1000000).
Proof.
  revert k elapsed. induction fuel as [|fuel IH]; intros k elapsed; simpl.
  - discriminate.
  - destruct (Z.ltb_spec elapsed (timeout * 1000000)) as [Hlt|Hge].
    + intros Hrun Hk Hprev.
      assert (Hnext : poll expected comment timeout env fuel (S k)
                        (elapsed + Ton.round_us (env k)) = Some v ->
                      (Z.of_nat (Ton.rounds_before v) - 1)
                      * Ton.check_interval_us < Z.max 0 (timeout * 1000000)).
      { intros H. apply (IH _ _ H).
        - pose proof (TonFacts.round_us_ge (env k)). lia.
        - right. lia. }
      destruct (round_of expected comment (Ton.fetch (env k))) as [[h|]|e];
        [|auto|auto].
      injection Hrun as <-. simpl Ton.rounds_before. lia.
    + intros [= <-] Hk Hprev. simpl Ton.rounds_before.
      unfold Ton.check_interval_us in *. destruct Hprev as [->|Hprev]; lia.
Qed.

(** X3. The number of fetches is bounded by the timeout: a round is only
    started while the clock is below the deadline, and every round lasts
    at least the ten seconds of its sleep. With a timeout that is not
    positive nothing is fetched and the call fails at once. *)
Theorem fetches_are_bounded expected comment timeout env v :
  verify_payment expected comment timeout env = Some v ->
  (Z.of_nat (Ton.rounds_before v) - 1) * Ton.check_interval_us
  < Z.max 0 (timeout * 1000000) /\
  (timeout <= 0 -> Ton.rounds_before v = O /\ Ton.success v = false) /\
  (timeout <= 10 -> (Ton.rounds_before v <= 1)%nat).
Proof.
  unfold Ton.verify_payment. intros Hrun.
  pose proof (poll_round_count _ _ _ _ _ _ _ _ Hrun ltac:(simpl; lia)
                ltac:(now left)) as Hb.
  split; [exact Hb|]. unfold Ton.check_interval_us in Hb. split.
  - intros Hle. assert (Hr : Ton.rounds_before v = O) by lia.
    split; [exact Hr|].
    destruct (Ton.success v) eqn:Hs; [|reflexivity].
    destruct (TonFacts.poll_success _ _ _ _ _ _ _ _ _ _ Hrun Hs)
      as (j & Hj & _). congruence.
  - lia.
Qed.

End Matcher.


Lemma payment_in_ledger_is_found_witness :
  Ton.verify_payment Sample.wallet Sample.int_of_str (80 # 1) "ORDER_42_7"
    1800 Sample.ledger_down
  = Some {| Ton.success := true; Ton.tx_hash := PStr "h1";
            Ton.ended_at := Clock.elapsed_before Sample.ledger_down 1
                            + Z.of_N (Ton.fetch_us (Sample.ledger_down 1%nat));
            Ton.rounds_before := 2 |}.
Proof.
  apply (payment_in_ledger_is_found Sample.wallet Sample.int_of_str (80 # 1)
           "ORDER_42_7" 1800 Sample.ledger_down 1 [] Sample.paying_42_7 []
           (PStr "h1")).
  - intros i Hi. assert (i = O) as -> by lia. exact I.
  - vm_compute. reflexivity.
  - reflexivity.
  - constructor.
  - vm_compute. reflexivity.
  - vm_compute. reflexivity.
  - vm_compute. reflexivity.
  - vm_compute. reflexivity.
Defined.

Lemma fetches_are_bounded_witness :
  (Z.of_nat 2 - 1) * Ton.check_interval_us < Z.max 0 (1800 * 1000000) /\
  (1800 <= 0 -> 2%nat = O /\ true = false) /\
  (1800 <= 10 -> (2 <= 1)%nat).
Proof.
  apply (fetches_are_bounded Sample.wallet Sample.int_of_str (80 # 1)
           "ORDER_42_7" 1800 Sample.ledger_down
           {| Ton.success := true; Ton.tx_hash := PStr "h1";
              Ton.ended_at := 40250000; Ton.rounds_before := 2 |}).
  vm_compute. reflexivity.
Defined.

End MatcherFacts.

(** ** More on the second-generation store *)

Module StoreFacts.

Import Gen2.

(** *** The cart validation settles *)

Lemma validate_item_of_clean d acc i :
  Orders.clean d i ->
  validate_item d acc i
  = {| updated_cart := updated_cart acc ++ [i]; errors := errors acc;
       cart_modified := cart_modified acc |}.
Proof.
  intros (p & Hp & Ha & Hs & Hpr). unfold validate_item.
  rewrite Hp, Ha. cbn [negb]. rewrite Hs. cbn [andb].
  cbv beta iota zeta. now rewrite Hpr.
Qed.

Lemma same_price_is_close (p : Q) :
  Qltb price_tolerance (Qabs (p - p)) = false.
Proof.
  apply Qltb_ge. assert (E : (p - p == 0)%Q) by ring.
  rewrite E. discriminate.
Qed.

(** Whatever [validate_item] keeps is clean, and an error is never added
    without marking the cart as modified. *)
Lemma validate_item_keeps_clean d acc i :
  Forall (Orders.clean d) (updated_cart acc) ->
  (errors acc <> [] -> cart_modified acc = true) ->
  Forall (Orders.clean d) (updated_cart (validate_item d acc i)) /\
  (errors (validate_item d acc i) <> [] ->
   cart_modified (validate_item d acc i) = true).
Proof.
  intros Hclean Herr. unfold validate_item.
  assert (Hdrop : forall e,
             Forall (Orders.clean d) (updated_cart (dropped acc e)) /\
             (errors (dropped acc e) <> [] ->
              cart_modified (dropped acc e) = true)).
  { intros e. split; [exact Hclean|reflexivity]. }
  destruct (get_product d (product_id i)) as [p|] eqn:Hp; [|apply Hdrop].
  destruct (active p) eqn:Ha; cbn [negb]; [|apply Hdrop].
  assert (Hkeep : forall i' (errs : list cart_error) (m : bool),
             product_id i' = product_id i ->
             (stock_quantity p <? quantity i') = false ->
             Qltb price_tolerance (Qabs (price p - item_price i')) = false ->
             (errs <> [] -> m = true) ->
             Forall (Orders.clean d)
               (updated_cart {| updated_cart := updated_cart acc ++ [i'];
                                errors := errs; cart_modified := m |}) /\
             (errors {| updated_cart := updated_cart acc ++ [i'];
                        errors := errs; cart_modified := m |} <> [] ->
              cart_modified {| updated_cart := updated_cart acc ++ [i'];
                               errors := errs; cart_modified := m |} = true)).
  { intros i' errs m Hid Hst Hprice Hm. cbn [updated_cart errors cart_modified].
    split; [|exact Hm]. apply Forall_app. split; [exact Hclean|].
    repeat constructor. exists p. rewrite Hid. auto. }
  destruct (stock_quantity p <? quantity i) eqn:Hs; cbn [andb].
  - destruct (0 <? stock_quantity p) eqn:Hpos; cbn [negb]; [|apply Hdrop].
    cbv beta iota zeta. cbn [item_price with_quantity].
    destruct (Qltb price_tolerance (Qabs (price p - item_price i))) eqn:Hpr;
      apply Hkeep; try reflexivity.
    + apply Z.ltb_irrefl.
    + apply same_price_is_close.
    + apply Z.ltb_irrefl.
    + exact Hpr.
  - cbv beta iota zeta.
    destruct (Qltb price_tolerance (Qabs (price p - item_price i))) eqn:Hpr;
      apply Hkeep; try reflexivity.
    + exact Hs.
    + apply same_price_is_close.
    + exact Hs.
    + exact Hpr.
    + exact Herr.
Qed.

Lemma validate_loop_keeps_clean d c acc :
  Forall (Orders.clean d) (updated_cart acc) ->
  (errors acc <> [] -> cart_modified acc = true) ->
  Forall (Orders.clean d) (updated_cart (validate_loop d c acc)) /\
  (errors (validate_loop d c acc) <> [] ->
   cart_modified (validate_loop d c acc) = true).
Proof.
  unfold validate_loop. revert acc.
  induction c as [|i c IH]; intros acc Hclean Herr; simpl; [auto|].
  destruct (validate_item_keeps_clean d acc i Hclean Herr) as [H1 H2].
  now apply IH.
Qed.

Lemma validate_loop_of_clean d c acc :
  Forall (Orders.clean d) c ->
  validate_loop d c acc
  = {| updated_cart := updated_cart acc ++ c; errors := errors acc;
       cart_modified := cart_modified acc |}.
Proof.
  unfold validate_loop. intros Hc. revert acc.
  induction Hc as [|i c Hi _ IH]; intros acc; simpl.
  - rewrite app_nil_r. now destruct acc.
  - rewrite (validate_item_of_clean d acc i Hi), IH. simpl.
    now rewrite <- app_assoc.
Qed.

Lemma clean_same_products d d' i :
  products d' = products d -> Orders.clean d i -> Orders.clean d' i.
Proof.
  unfold Orders.clean, get_product. now intros ->.
Qed.

(** X4. [validate_cart] settles the cart: validating once more right after
    finds nothing to report and writes nothing. *)
Theorem validate_cart_settles d user :
  validate_cart (fst (validate_cart d user)) user
  = (fst (validate_cart d user), true).
Proof.
  unfold validate_cart at 2 3.
  set (v := validate_loop d (get_user_cart d user)
              {| updated_cart := []; errors := []; cart_modified := false |}).
  destruct (validate_loop_keeps_clean d (get_user_cart d user)
              {| updated_cart := []; errors := []; cart_modified := false |})
    as [Hclean Herr]; [constructor|easy|]. fold v in Hclean, Herr.
  destruct (cart_modified v) eqn:Hm; cbn [fst].
  - assert (Hcart : get_user_cart (update_user_cart d user (updated_cart v))
                      user = updated_cart v).
    { unfold get_user_cart at 1, update_user_cart. simpl.
      rewrite lookup_alter_eq.
      destruct (users d !! user) as [c|] eqn:Hu; [reflexivity|].
      subst v. unfold get_user_cart in Hm. rewrite Hu in Hm. discriminate. }
    unfold validate_cart. rewrite Hcart.
    rewrite (validate_loop_of_clean _ (updated_cart v)).
    + reflexivity.
    + eapply Forall_impl; [exact Hclean|].
      intros i. now apply clean_same_products.
  - unfold validate_cart. fold v. rewrite Hm.
    destruct (errors v) as [|e l]; [reflexivity|].
    now specialize (Herr ltac:(discriminate)).
Qed.

(** *** Orders along a run *)

Section Runs.

Variable wallet_address : string.
Variable int_of_str : string -> option Z.
Variable str_of_int : Z -> string.
Variable upper : string -> string.

Local Abbreviation process_payment := (Gen2.process_payment str_of_int).
Local Abbreviation check_payment_status :=
  (Gen2.check_payment_status wallet_address int_of_str upper).
Local Abbreviation handle :=
  (Gen2.handle wallet_address int_of_str str_of_int upper).
Local Abbreviation run :=
  (Gen2.run wallet_address int_of_str str_of_int upper).

(** What a successful [process_payment] writes. *)
Lemma process_payment_creates d u d' amount oid c :
  process_payment d u = (d', PaymentInstructions amount oid c) ->
  exists o,
    orders d' = orders d ++ [o] /\
    Orders.well_priced o /\
    order_products o = get_user_cart d u /\
    user_id o = u /\ status o = pending /\ final_amount o = amount /\
    oid = Z.of_nat (S (length (orders d))) /\
    user_sessions d'
    = <[u := {| state := "WAITING_PAYMENT";
                data := {| sd_order_id := Some oid;
                           sd_amount := Some amount;
                           sd_comment := Some c;
                           sd_discount_code := None;
                           sd_discount_amount := None |} |}]>
        (user_sessions d) /\
    users d' = users d /\
    discount_codes d' = discount_codes d /\
    discount_usage d' = discount_usage d.
Proof.
  unfold Gen2.process_payment.
  destruct (prepare_order_data d u) as [d1 [summary|]] eqn:Hp;
    [|discriminate].
  pose proof Hp as Hsum. apply Gen2Facts.prepare_order_data_some in Hp
    as (-> & Hcart & Hitems).
  assert (Htotal : total_price_sum summary = Orders.lines_total (items summary)).
  { unfold prepare_order_data in Hsum.
    destruct (is_empty (get_cart_summary d u)); [discriminate|].
    destruct (validate_cart d u) as [d2 [|]]; [|discriminate].
    injection Hsum as _ <-. unfold get_cart_summary.
    destruct (get_user_cart d u); [contradiction|reflexivity]. }
  destruct (get_user_state d u) as [st sd0]. unfold create_order.
  intros [= <- <- <- <-]. eexists. split; [reflexivity|].
  split; [split; [exact Htotal|reflexivity]|].
  split; [exact Hitems|]. repeat split.
Qed.

(** What an event does to the table of orders. *)
Lemma handle_orders d e :
  orders (handle d e) = orders d \/
  (exists i st h, orders (handle d e) = alter (set_status st h) i (orders d)) \/
  (exists o, orders (handle d e) = orders d ++ [o] /\ Orders.well_priced o).
Proof.
  destruct e as [u|u env|u|u c now|u|u|u st sd|u c]; simpl.
  - destruct (process_payment d u) as [d' r] eqn:Hp. simpl.
    destruct r as [|amount oid c| | | | | | |];
      try (apply Gen2Facts.process_payment_shape in Hp
             as [[-> _]|(o & sd & a & _ & _ & _ & _ & _ & [=])];
           now left).
    apply process_payment_creates in Hp as (o & Ho & Hw & _).
    right. right. eauto.
  - destruct (check_payment_status d u env) as [d' r] eqn:Hc. simpl.
    apply Gen2Facts.check_payment_status_shape in Hc
      as [[-> _]|(oid & h & s & _ & _ & -> & _)]; [now left|].
    destruct (Gen2Facts.settle_frame upper d u oid h (data s)) as (Ho & _).
    rewrite Ho. unfold update_order_status.
    destruct (0 <? oid); [right; left; simpl; eauto|now left].
  - destruct (Gen2Facts.cancel_current_order_shape d u)
      as [->|(oid & _ & ->)]; [now left|].
    simpl. unfold update_order_status.
    destruct (0 <? oid); [right; left; simpl; eauto|now left].
  - unfold Gen2.handle_discount_code_input.
    destruct (Gen2.apply_discount _ _ _ _ _ _) as [[[|] msg] [a| | |]];
      now left.
  - unfold remove_discount.
    destruct (user_sessions d !! u) as [s|]; [|now left].
    destruct (sd_discount_code (data s)) as [c|]; [|now left].
    destruct (String.eqb c ""); now left.
  - now left.
  - now left.
  - now left.
Qed.

Lemma get_order_after d e oid o :
  get_order d oid = Some o ->
  exists o', get_order (handle d e) oid = Some o' /\ Orders.same_snapshot o o'.
Proof.
  intros Hget. pose proof (Gen2Facts.get_order_positive _ _ _ Hget) as Hpos.
  assert (Hsame : Orders.same_snapshot o o) by (repeat split).
  destruct (handle_orders d e) as [Ho|[(i & st & h & Ho)|(o1 & Ho & _)]].
  - exists o. split; [|exact Hsame].
    now rewrite (Gen2Facts.get_order_same_orders _ _ _ Ho).
  - rewrite Gen2Facts.get_order_row in * by assumption. rewrite Ho.
    destruct (decide (i = Z.to_nat (oid - 1))) as [->|Hne].
    + rewrite list_lookup_alter_eq, Hget. simpl. eexists.
      split; [reflexivity|]. repeat split.
    + rewrite list_lookup_alter_ne by assumption. eauto.
  - exists o. split; [|exact Hsame].
    now apply (Gen2Facts.get_order_app d _ o1).
Qed.

(** X5. An order is never lost and its snapshot never changes: whatever
    the customers do afterwards, the order keeps its user, its lines, its
    total, its discount and its final amount. *)
Theorem order_snapshot_is_kept d es oid o :
  get_order d oid = Some o ->
  exists o', get_order (run d es) oid = Some o' /\ Orders.same_snapshot o o'.
Proof.
  unfold Gen2.run. revert d o.
  induction es as [|e es IH]; intros d o Hget; simpl.
  - exists o. split; [exact Hget|repeat split].
  - destruct (get_order_after d e oid o Hget) as (o1 & Hget1 & Hs1).
    destruct (IH _ _ Hget1) as (o2 & Hget2 & Hs2).
    exists o2. split; [exact Hget2|].
    unfold Orders.same_snapshot in *. intuition congruence.
Qed.



(** X7. In a store that started without sessions, every open payment is
    for an existing pending order, and no two users wait for the same
    order. *)
Theorem open_payments_are_sound d es :
  user_sessions d = ∅ ->
  Forall (Gen2.customer_event) es ->
  sound (run d es).
Proof.
  intros Hinit Hes.
  apply Gen2Facts.run_sound; [now apply Gen2Facts.no_sessions_sound|exact Hes].
Qed.

(** X8. The checkout flow never records a discount usage: the session that
    [process_payment] opens carries no discount code, so whatever
    [check_payment_status] answers afterwards, the usage ledger and the
    used counts are what they were before the checkout. *)
Theorem checkout_records_no_usage d u d1 amount oid c env d2 r :
  process_payment d u = (d1, PaymentInstructions amount oid c) ->
  check_payment_status d1 u env = (d2, r) ->
  discount_usage d2 = discount_usage d /\
  discount_codes d2 = discount_codes d.
Proof.
  intros Hp Hc.
  apply process_payment_creates in Hp
    as (o & _ & _ & _ & _ & _ & _ & _ & Hs & _ & Hcodes & Husage).
  apply Gen2Facts.check_payment_status_shape in Hc
    as [[-> _]|(oid' & h & s & Hsess & _ & -> & _)]; [auto|].
  rewrite Hs, lookup_insert_eq in Hsess. injection Hsess as <-.
  pose proof (Gen2Facts.update_order_status_frame d1 oid' paid (Some h))
    as (_ & _ & Hc1 & Hu1).
  unfold Gen2.settle. simpl. rewrite Hc1, Hu1. auto.
Qed.

(** X9. A code that has been used once by a user is refused to that user
    right after: [use_discount_code] followed by [validate_discount_code]
    for the same user never answers valid. *)
Theorem used_once_then_refused d now c u oid r :
  List.NoDup (map code (discount_codes d)) ->
  get_discount_code d c = Some r ->
  fst (fst (validate_discount_code (use_discount_code d (id r) u oid)
              now c u)) = false.
Proof.
  intros Hnd Hget.
  assert (Hext : ledger_extends d (use_discount_code d (id r) u oid)).
  { split; [|simpl; eauto]. simpl. rewrite map_map. apply map_ext.
    intros r'. unfold bump. now destruct (id r' =? id r). }
  assert (Hused : has_used (use_discount_code d (id r) u oid) c u).
  { apply find_some in Hget as [Hin Hcode].
    apply andb_true_iff in Hcode as [Hcode _]. apply String.eqb_eq in Hcode.
    exists (id r). split.
    - destruct Hext as [-> _]. apply in_map_iff. exists r. now rewrite Hcode.
    - unfold used_by. simpl. rewrite existsb_app. simpl.
      rewrite !Z.eqb_refl. simpl. apply orb_true_r. }
  apply (Gen2Facts.unique_codes_extends _ _ Hext) in Hnd.
  unfold validate_discount_code.
  destruct (get_discount_code (use_discount_code d (id r) u oid) c)
    as [r'|] eqn:Hget'; [|reflexivity].
  rewrite (Gen2Facts.has_used_row _ _ _ _ Hnd Hused Hget').
  destruct (expired r' now); [reflexivity|].
  now destruct (limit_reached r').
Qed.

End Runs.

(** *** The runs of the sample store *)

Local Abbreviation W := Sample.wallet.
Local Abbreviation parse := Sample.int_of_str.
Local Abbreviation render := Sample.str_of_int.
Local Abbreviation up := Sample.upper.
Local Abbreviation run := (Gen2.run W parse render up).

Lemma order_snapshot_is_kept_witness :
  exists o',
    get_order
      (run (run (Sample.shop2 None) [ProcessPayment 7])
         [CheckPayment 7 Sample.ledger_paid; ProcessPayment 7; CancelOrder 7])
      1 = Some o' /\
    Orders.same_snapshot (Sample.first_order pending) o'.
Proof.
  apply (order_snapshot_is_kept W parse render up
           (run (Sample.shop2 None) [ProcessPayment 7])
           [CheckPayment 7 Sample.ledger_paid; ProcessPayment 7; CancelOrder 7]
           1 (Sample.first_order pending)).
  vm_compute. reflexivity.
Defined.


Lemma open_payments_are_sound_witness :
  sound (run (Sample.shop2 None) [ProcessPayment 7; ProcessPayment 7]).
Proof.
  apply (open_payments_are_sound W parse render up (Sample.shop2 None)
           [ProcessPayment 7; ProcessPayment 7]).
  - reflexivity.
  - repeat constructor.
Defined.

(** The order of the sample checkout carries the code SAVE20 and is paid
    at 60, yet the code shows no use afterwards. *)
Example discounted_order_leaves_no_trace :
  option_map (fun o => (discount_code o, final_amount o, status o))
    (get_order (run Sample2.with_code
                  [ProcessPayment 7; CheckPayment 7 Sample2.ledger_paid_60]) 1)
  = Some (Some "SAVE20", 60 # 1, paid) /\
  map used_count
    (discount_codes (run Sample2.with_code
                       [ProcessPayment 7;
                        CheckPayment 7 Sample2.ledger_paid_60]))
  = [0].
Proof. split; vm_compute; reflexivity. Qed.

Lemma checkout_records_no_usage_witness :
  discount_usage
    (run Sample2.with_code
       [ProcessPayment 7; CheckPayment 7 Sample2.ledger_paid_60])
  = discount_usage Sample2.with_code /\
  discount_codes
    (run Sample2.with_code
       [ProcessPayment 7; CheckPayment 7 Sample2.ledger_paid_60])
  = discount_codes Sample2.with_code.
Proof.
  apply (checkout_records_no_usage W parse render up Sample2.with_code 7
           (run Sample2.with_code [ProcessPayment 7]) (60 # 1) 1 "ORDER_1_7"
           Sample2.ledger_paid_60
           (run Sample2.with_code
              [ProcessPayment 7; CheckPayment 7 Sample2.ledger_paid_60])
           (PaymentConfirmed 1 (PStr "h9"))).
  - vm_compute. reflexivity.
  - vm_compute. reflexivity.
Defined.

Lemma used_once_then_refused_witness :
  fst (fst (validate_discount_code
              (use_discount_code (Sample.shop2 (Some 5))
                 (id (Sample.save20 (Some 5))) 7 1) 0 "SAVE20" 7))
  = false.
Proof.
  apply (used_once_then_refused (Sample.shop2 (Some 5)) 0 "SAVE20" 7 1
           (Sample.save20 (Some 5))).
  - simpl. constructor; [intros []|constructor].
  - reflexivity.
Defined.

End StoreFacts.

(** ** The carts of the first generation *)

Module CartRowFacts.

Lemma find_none_app {A} (f : A -> bool) (l l' : list A) :
  List.find f l = None -> List.find f (l ++ l') = List.find f l'.
Proof.
  induction l as [|a l IH]; simpl; [reflexivity|].
  destruct (f a); [discriminate|exact IH].
Qed.

Lemma find_existsb {A} (f : A -> bool) (l : list A) :
  existsb f l = match List.find f l with Some _ => true | None => false end.
Proof.
  induction l as [|a l IH]; simpl; [reflexivity|].
  destruct (f a); [reflexivity|exact IH].
Qed.

(** X10. The first cart row of a user is final. [update_cart] always adds
    a row, and [get_cart] reads the first row of the user: a user who has
    a row keeps reading it whatever is written afterwards, for instance by
    [clear_cart], which still reports success; only the first write of a
    user is ever read back. *)
Theorem first_cart_row_is_final d u c v :
  Gen1.get_cart (fst (Gen1.update_cart d u c)) v
  = (if existsb (fun r => Gen1.row_user_id r =? v) (Gen1.carts d)
     then Gen1.get_cart d v
     else if u =? v then c else []) /\
  snd (Gen1.update_cart d u c) = true /\
  Gen1.clear_cart d u = Gen1.update_cart d u [].
Proof.
  split; [|split; reflexivity].
  unfold Gen1.get_cart. simpl. rewrite find_existsb.
  destruct (List.find _ (Gen1.carts d)) as [r|] eqn:Hf.
  - now rewrite (CheckoutFacts.find_app_some _ _ _ _ Hf).
  - rewrite (find_none_app _ _ _ Hf). simpl. now destruct (u =? v).
Qed.

End CartRowFacts.

(** ** The cart operations of the second generation *)

Module CartFacts.

Import Gen2 Cart2.

Lemma get_user_cart_update d u c v :
  get_user_cart (update_user_cart d u c) v
  = if decide (v = u)
    then match users d !! u with Some _ => c | None => [] end
    else get_user_cart d v.
Proof.
  unfold get_user_cart, update_user_cart. simpl.
  destruct (decide (v = u)) as [->|Hne].
  - rewrite lookup_alter_eq. now destruct (users d !! u).
  - now rewrite lookup_alter_ne by congruence.
Qed.



Lemma line_ok_with_quantity i q : line_ok (with_quantity i q).
Proof. unfold line_ok. simpl. reflexivity. Qed.



(** *** add_to_cart *)

Lemma merge_line_merged pid q stock cart c :
  merge_line pid q stock cart = Merged c ->
  map product_id c = map product_id cart /\
  (Forall line_ok cart -> Forall line_ok c) /\
  get_cart_item_quantity_of pid c = get_cart_item_quantity_of pid cart + q /\
  get_cart_item_quantity_of pid c <= stock.
Proof.
  revert c. induction cart as [|item rest IH]; intros c; simpl;
    [discriminate|].
  destruct (product_id item =? pid) eqn:Hid.
  - destruct (Z.ltb_spec stock (quantity item + q)); [discriminate|].
    intros [= <-]. simpl. rewrite Hid.
    repeat split; [|lia].
    intros Hok. inversion Hok; subst.
    constructor; [apply line_ok_with_quantity|assumption].
  - destruct (merge_line pid q stock rest) as [c'| |]; try discriminate.
    intros [= <-]. destruct (IH c' eq_refl) as (Hids & Hok & Hq & Hs).
    simpl. rewrite Hid, Hids. repeat split; [|exact Hq|exact Hs].
    intros H. inversion H; subst. constructor; auto.
Qed.

Lemma merge_line_not_in_cart pid q stock cart :
  merge_line pid q stock cart = NotInCart ->
  ~ In pid (map product_id cart) /\
  get_cart_item_quantity_of pid cart = 0.
Proof.
  induction cart as [|item rest IH]; simpl; [auto|].
  destruct (Z.eqb_spec (product_id item) pid) as [Heq|Hne].
  - destruct (stock <? quantity item + q); discriminate.
  - destruct (merge_line pid q stock rest); try discriminate.
    intros _. destruct (IH eq_refl) as [Hnot Hq]. split; [|exact Hq].
    intros [H|H]; contradiction.
Qed.

Lemma quantity_of_appended pid cart line :
  ~ In pid (map product_id cart) -> product_id line = pid ->
  get_cart_item_quantity_of pid (cart ++ [line]) = quantity line.
Proof.
  intros Hnot Hid. induction cart as [|item rest IH]; simpl.
  - now rewrite Hid, Z.eqb_refl.
  - destruct (Z.eqb_spec (product_id item) pid) as [Heq|Hne].
    + destruct Hnot. now left.
    + apply IH. intros H. apply Hnot. now right.
Qed.


(** X11. [add_to_cart] never lets a cart line exceed the stock it saw: when
    it succeeds for a user of the store, the quantity of the product in
    the cart has grown by the quantity added and is at most the stock of
    the product; when it refuses, the store is unchanged. *)
Theorem add_to_cart_respects_stock d user pid q d' r :
  add_to_cart d user pid q = (d', r) ->
  (r <> Done -> d' = d) /\
  (r = Done -> is_Some (users d !! user) ->
   exists p,
     get_product d pid = Some p /\
     get_cart_item_quantity d' user pid
     = get_cart_item_quantity d user pid + q /\
     get_cart_item_quantity d' user pid <= stock_quantity p).
Proof.
  unfold add_to_cart, get_cart_item_quantity.
  destruct (get_product d pid) as [p|].
  2: { intros [= <- <-]. split; [reflexivity|discriminate]. }
  destruct (Z.ltb_spec (stock_quantity p) q) as [Hlt|Hge].
  { intros [= <- <-]. split; [reflexivity|discriminate]. }
  destruct (merge_line pid q (stock_quantity p) (get_user_cart d user))
    as [c| |] eqn:Hm; intros [= <- <-];
    (split; [try reflexivity; intros H; now destruct H|]);
    try discriminate; intros _ [c0 Hu]; exists p;
    (split; [reflexivity|]);
    rewrite get_user_cart_update; destruct (decide (user = user)) as [_|];
    try contradiction; rewrite Hu.
  - apply merge_line_merged in Hm as (_ & _ & Hq & Hs). auto.
  - apply merge_line_not_in_cart in Hm as [Hnot Hq].
    rewrite quantity_of_appended by (auto; reflexivity).
    rewrite Hq. simpl. split; lia.
Qed.

(** *** remove_from_cart and update_item_quantity *)





(** *** validate_cart *)





Lemma take_out_quantity pid q cart :
  List.NoDup (map product_id cart) ->
  In pid (map product_id cart) ->
  exists c,
    take_out pid q cart = Some c /\
    (get_cart_item_quantity_of pid cart <= q ->
     ~ In pid (map product_id c)) /\
    (q < get_cart_item_quantity_of pid cart ->
     get_cart_item_quantity_of pid c = get_cart_item_quantity_of pid cart - q).
Proof.
  induction cart as [|item rest IH]; simpl; [contradiction|].
  intros Hnd Hin. inversion Hnd as [|? ? Hnot Hrest]; subst.
  destruct (Z.eqb_spec (product_id item) pid) as [Heq|Hne].
  - destruct (Z.leb_spec (quantity item) q) as [Hle|Hgt].
    + exists rest. split; [reflexivity|]. split; [|lia].
      intros _. now rewrite <- Heq.
    + eexists. split; [reflexivity|]. split; [lia|].
      intros _. simpl. destruct (Z.eqb_spec (product_id item) pid);
        [reflexivity|contradiction].
  - destruct Hin as [Hin|Hin]; [contradiction|].
    destruct (IH Hrest Hin) as (c & -> & Hgone & Hleft).
    eexists. split; [reflexivity|]. simpl. split.
    + intros Hk [H|H]; [contradiction|now apply Hgone].
    + destruct (Z.eqb_spec (product_id item) pid); [contradiction|exact Hleft].
Qed.

Lemma not_in_cart pid (cart : list cart_item) :
  ~ In pid (map product_id cart) ->
  existsb (fun item => product_id item =? pid) cart = false.
Proof.
  induction cart as [|item rest IH]; simpl; [reflexivity|].
  intros Hnot. destruct (Z.eqb_spec (product_id item) pid) as [Heq|Hne].
  - destruct Hnot. now left.
  - apply IH. intros H. apply Hnot. now right.
Qed.

(** X13. Setting the quantity of a line to zero (or below) goes through
    [remove_from_cart] with the fixed quantity 999: the line disappears
    when it holds at most 999 pieces, and otherwise stays in the cart with
    999 pieces less. *)
Theorem update_to_zero_takes_999 d user pid n :
  n <= 0 ->
  is_Some (users d !! user) ->
  List.NoDup (map product_id (get_user_cart d user)) ->
  In pid (map product_id (get_user_cart d user)) ->
  (get_cart_item_quantity d user pid <= 999 ->
   is_product_in_cart (fst (update_item_quantity d user pid n)) user pid
   = false) /\
  (999 < get_cart_item_quantity d user pid ->
   get_cart_item_quantity (fst (update_item_quantity d user pid n)) user pid
   = get_cart_item_quantity d user pid - 999).
Proof.
  intros Hn [c0 Hu] Hnd Hin.
  unfold update_item_quantity, remove_from_cart, is_product_in_cart,
    get_cart_item_quantity.
  destruct (Z.leb_spec n 0); [|lia].
  destruct (take_out_quantity pid 999 _ Hnd Hin) as (c & -> & Hgone & Hleft).
  simpl. rewrite get_user_cart_update.
  destruct (decide (user = user)); [|contradiction]. rewrite Hu.
  split; [intros Hk; now apply not_in_cart, Hgone|exact Hleft].
Qed.

(** *** The operations on the sample stores *)


Lemma add_to_cart_respects_stock_witness :
  (Done <> Done ->
   fst (add_to_cart (Sample.shop2 None) 7 1 3) = Sample.shop2 None) /\
  (Done = Done -> is_Some (users (Sample.shop2 None) !! 7) ->
   exists p,
     get_product (Sample.shop2 None) 1 = Some p /\
     get_cart_item_quantity (fst (add_to_cart (Sample.shop2 None) 7 1 3)) 7 1
     = get_cart_item_quantity (Sample.shop2 None) 7 1 + 3 /\
     get_cart_item_quantity (fst (add_to_cart (Sample.shop2 None) 7 1 3)) 7 1
     <= stock_quantity p).
Proof.
  apply (add_to_cart_respects_stock (Sample.shop2 None) 7 1 3
           (fst (add_to_cart (Sample.shop2 None) 7 1 3)) Done).
  vm_compute. reflexivity.
Defined.


Lemma update_to_zero_takes_999_witness :
  (get_cart_item_quantity Sample2.bulk_shop 7 1 <= 999 ->
   is_product_in_cart
     (fst (update_item_quantity Sample2.bulk_shop 7 1 0)) 7 1 = false) /\
  (999 < get_cart_item_quantity Sample2.bulk_shop 7 1 ->
   get_cart_item_quantity
     (fst (update_item_quantity Sample2.bulk_shop 7 1 0)) 7 1
   = get_cart_item_quantity Sample2.bulk_shop 7 1 - 999).
Proof.
  apply (update_to_zero_takes_999 Sample2.bulk_shop 7 1 0).
  - lia.
  - vm_compute. eauto.
  - vm_compute. constructor; [intros []|constructor].
  - vm_compute. now left.
Defined.

Example bulk_line_survives_zero :
  get_cart_item_quantity
    (fst (update_item_quantity Sample2.bulk_shop 7 1 0)) 7 1 = 201.
Proof. vm_compute. reflexivity. Qed.

End CartFacts.

(** ** The sequence helpers of utils.py *)

Module TextFacts.

Import Text.

Section Sequences.

Context {A : Type}.
Implicit Types s text suffix data mask_char lst : list A.

Lemma length_times (c : list A) (n : Z) :
  length (times c n) = (Z.to_nat n * length c)%nat.
Proof.
  unfold times. induction (Z.to_nat n) as [|k IH]; simpl; [reflexivity|].
  now rewrite length_app, IH.
Qed.


(** X15. [mask_sensitive_data] with a one-character mask keeps the length
    and shows exactly the last [visible_chars] characters, for
    [0 < visible_chars < len(data)]. With [visible_chars = 0] the slice
    [data[-0:]] is the whole string: the result is the masks followed by
    the unmasked data. *)
Theorem mask_sensitive_data_shows data (m : A) visible_chars :
  (0 < visible_chars < len data ->
   mask_sensitive_data data [m] visible_chars
   = replicate (length data - Z.to_nat visible_chars) m
     ++ drop (length data - Z.to_nat visible_chars) data /\
   length (mask_sensitive_data data [m] visible_chars) = length data) /\
  (visible_chars = 0 -> data <> [] ->
   mask_sensitive_data data [m] visible_chars
   = replicate (length data) m ++ data) /\
  (len data <= visible_chars ->
   mask_sensitive_data data [m] visible_chars = data).
Proof.
  assert (Hrep : forall n, concat (replicate n [m]) = replicate n m).
  { induction n as [|n IH]; simpl; [reflexivity|]. now rewrite IH. }
  unfold mask_sensitive_data, times, slice_from, len.
  destruct (is_nil data) eqn:Hn;
    [destruct data; [simpl; repeat split; try lia; easy|discriminate]|].
  cbn [orb].
  assert (0 < length data)%nat by (destruct data; [discriminate|simpl; lia]).
  destruct (Z.leb_spec (Z.of_nat (length data)) visible_chars) as [Hle|Hgt].
  - repeat split; intros; first [reflexivity | lia].
  - split; [|split; [|lia]].
    + intros [Hpos _].
      destruct (Z.leb_spec 0 (- visible_chars)); [lia|].
      rewrite Hrep.
      replace (Z.to_nat (Z.of_nat (length data) - visible_chars))
        with (length data - Z.to_nat visible_chars)%nat by lia.
      replace (Z.to_nat (Z.of_nat (length data) + - visible_chars))
        with (length data - Z.to_nat visible_chars)%nat by lia.
      split; [reflexivity|].
      rewrite length_app, length_replicate, length_drop. lia.
    + intros -> _. simpl. rewrite Hrep, Z.sub_0_r, Nat2Z.id.
      reflexivity.
Qed.

Lemma chunks_concat (size : nat) lst (n : nat) :
  concat (map (fun j => take size (drop (j * size) lst)) (seq 0 n))
  = take (n * size) lst.
Proof.
  induction n as [|n IH]; [reflexivity|].
  rewrite seq_S, map_app, concat_app, IH. simpl.
  rewrite app_nil_r, take_take_drop. f_equal. lia.
Qed.

Lemma range_count_covers (n size : nat) :
  (0 < size)%nat -> (n <= range_count n size * size)%nat.
Proof.
  intros Hs. unfold range_count.
  pose proof (Nat.div_mod (n + size - 1) size ltac:(lia)).
  pose proof (Nat.mod_upper_bound (n + size - 1) size ltac:(lia)).
  nia.
Qed.

Lemma range_count_tight (n size j : nat) :
  (0 < size)%nat -> (j < range_count n size)%nat -> (j * size < n)%nat.
Proof.
  intros Hs. unfold range_count. intros Hj.
  pose proof (Nat.div_mod (n + size - 1) size ltac:(lia)).
  pose proof (Nat.mod_upper_bound (n + size - 1) size ltac:(lia)).
  nia.
Qed.

(** X16. [chunk_list] with a positive size loses nothing: the chunks put
    together again are the list, and no chunk is empty or longer than the
    size. With a negative size it answers with no chunk at all. *)
Theorem chunk_list_round_trip lst chunk_size :
  (0 < chunk_size ->
   exists chunks,
     chunk_list lst chunk_size = Ok chunks /\
     concat chunks = lst /\
     Forall (fun c => c <> [] /\ len c <= chunk_size) chunks) /\
  (chunk_size < 0 -> chunk_list lst chunk_size = Ok []).
Proof.
  unfold chunk_list. split.
  - intros Hpos. destruct (Z.eqb_spec chunk_size 0); [lia|].
    destruct (Z.ltb_spec chunk_size 0); [lia|].
    eexists. split; [reflexivity|]. split.
    + rewrite chunks_concat. apply take_ge.
      apply range_count_covers. lia.
    + apply Forall_map, Forall_forall. intros j Hj.
      apply elem_of_seq in Hj.
      pose proof (range_count_tight (length lst) (Z.to_nat chunk_size) j
                    ltac:(lia) ltac:(lia)) as Hlt.
      split.
      * intros Hnil. apply (f_equal length) in Hnil.
        rewrite length_take, length_drop in Hnil. simpl in Hnil. lia.
      * unfold len. rewrite length_take. lia.
  - intros Hneg. destruct (Z.eqb_spec chunk_size 0); [lia|].
    destruct (Z.ltb_spec chunk_size 0); [reflexivity|lia].
Qed.

End Sequences.

Example truncate_with_long_suffix :
  truncate_text [1; 2; 3; 4; 5; 6; 7; 8] 2 [0; 0; 0]
  = [1; 2; 3; 4; 5; 6; 7; 0; 0; 0] /\
  mask_sensitive_data [1; 2; 3; 4; 5; 6] [0] 0
  = [0; 0; 0; 0; 0; 0; 1; 2; 3; 4; 5; 6] /\
  chunk_list [1; 2; 3; 4; 5] 2 = Ok [[1; 2]; [3; 4]; [5]].
Proof. repeat split. Qed.

End TextFacts.

(** ** The rate limiter of utils.py *)

Module LimiterFacts.

Import Limiter.

Lemma filter_newer_twice (s' s : Q) (l : list Q) :
  (s' <= s)%Q ->
  List.filter (newer s) (List.filter (newer s') l) = List.filter (newer s) l.
Proof.
  intros Hle. induction l as [|a l IH]; [reflexivity|].
  cbn [List.filter]. destruct (newer s' a) eqn:Hs'.
  - cbn [List.filter]. now rewrite IH.
  - rewrite IH. destruct (newer s a) eqn:Hs; [|reflexivity].
    apply Qltb_lt in Hs. apply Qltb_ge in Hs'. exfalso.
    apply (Qlt_irrefl a). eapply Qle_lt_trans; [|exact Hs].
    eapply Qle_trans; eassumption.
Qed.

Lemma timestamps_of_insert (r : RateLimiter) (uid : Z) (opn : string)
    (m globals : list Q) (u : Z) (op : string) :
  timestamps_of
    {| user_timestamps :=
         <[uid := <[opn := m]> (default ∅ (user_timestamps r !! uid))]>
           (user_timestamps r);
       global_timestamps := globals |} u op
  = if (uid =? u) && String.eqb opn op then m else timestamps_of r u op.
Proof.
  unfold timestamps_of. cbn [user_timestamps].
  destruct (Z.eqb_spec uid u) as [->|Hu]; cbn [andb].
  - rewrite lookup_insert_eq. cbn [default from_option id].
    destruct (String.eqb_spec opn op) as [->|Hop].
    + now rewrite lookup_insert_eq.
    + now rewrite lookup_insert_ne.
  - now rewrite lookup_insert_ne.
Qed.

Lemma granted_app (past : list (call * bool)) (c : call) (b : bool) :
  granted (past ++ [(c, b)])
  = granted past ++ (if b then [at_time c] else []).
Proof.
  unfold granted. rewrite List.filter_app, map_app. cbn [List.filter snd].
  now destruct b.
Qed.

Lemma granted_to_app (u : Z) (op : string) (past : list (call * bool))
    (c : call) (b : bool) :
  granted_to u op (past ++ [(c, b)])
  = granted_to u op past
    ++ (if (user_id c =? u) && String.eqb (operation c) op && b
        then [at_time c] else []).
Proof.
  unfold granted_to. rewrite List.filter_app. cbn [List.filter].
  unfold same_key at 2. cbn [fst].
  destruct ((user_id c =? u) && String.eqb (operation c) op).
  - rewrite granted_app. reflexivity.
  - now rewrite !app_nil_r.
Qed.

Lemma new_remembers (from : Q) : remembers new [] from.
Proof. intros s _. split; [reflexivity|]. intros u op. reflexivity. Qed.

Section Window.

Variable window_seconds : Z.

Local Abbreviation window_start c := (at_time c - inject_Z window_seconds)%Q.

(** One call: the answer is the one the history calls for, and what is
    remembered afterwards agrees with the longer history. *)
Lemma ask_remembers (r : RateLimiter) (past : list (call * bool)) (from : Q)
    (c : call) :
  remembers r past from ->
  (from <= window_start c)%Q ->
  snd (ask window_seconds r c) = due window_seconds past c /\
  remembers (fst (ask window_seconds r c))
    (past ++ [(c, due window_seconds past c)]) (window_start c).
Proof.
  intros Hrem Hfrom.
  destruct (Hrem (window_start c) Hfrom) as [Hglob Huser].
  specialize (Huser (user_id c) (operation c)).
  assert (Hb : snd (ask window_seconds r c) = due window_seconds past c).
  { unfold ask, is_allowed, due, recent.
    fold (timestamps_of r (user_id c) (operation c)).
    rewrite Hglob, Huser.
    set (uc := len _). set (gc := len _).
    rewrite (Z.ltb_antisym (user_limit c) uc), (Z.ltb_antisym (global_limit c) gc).
    destruct (user_limit c <=? uc), (global_limit c <=? gc); reflexivity. }
  split; [exact Hb|].
  rewrite <- Hb. clear Hb.
  intros s Hs.
  assert (Hfs : (from <= s)%Q) by (eapply Qle_trans; eassumption).
  destruct (Hrem s Hfs) as [Hglob_s Huser_s].
  unfold ask, is_allowed.
  fold (timestamps_of r (user_id c) (operation c)).
  set (mine := List.filter _ (timestamps_of _ _ _)).
  set (globals := List.filter _ (global_timestamps r)).
  assert (Hmine : List.filter (newer s) mine
                  = List.filter (newer s)
                      (granted_to (user_id c) (operation c) past)).
  { unfold mine. rewrite filter_newer_twice by exact Hs. apply Huser_s. }
  assert (Hglobals : List.filter (newer s) globals
                     = List.filter (newer s) (granted past)).
  { unfold globals. rewrite filter_newer_twice by exact Hs. apply Hglob_s. }
  destruct ((user_limit c <=? len mine) || (global_limit c <=? len globals));
    cbn [fst snd global_timestamps]; (split; [|intros u op]).
  - rewrite granted_app, app_nil_r. exact Hglobals.
  - rewrite timestamps_of_insert, granted_to_app, andb_false_r, app_nil_r.
    destruct ((user_id c =? u) && String.eqb (operation c) op) eqn:Hkey;
      [|apply Huser_s].
    apply andb_true_iff in Hkey as [Hu Hop].
    apply Z.eqb_eq in Hu. apply String.eqb_eq in Hop. subst u op.
    exact Hmine.
  - rewrite granted_app, !List.filter_app. now rewrite Hglobals.
  - rewrite timestamps_of_insert, granted_to_app, andb_true_r.
    destruct ((user_id c =? u) && String.eqb (operation c) op) eqn:Hkey.
    + apply andb_true_iff in Hkey as [Hu Hop].
      apply Z.eqb_eq in Hu. apply String.eqb_eq in Hop. subst u op.
      rewrite !List.filter_app. now rewrite Hmine.
    + rewrite app_nil_r. apply Huser_s.
Qed.

Lemma answers_from (calls : list call) :
  forall (r : RateLimiter) (past : list (call * bool)) (t : Q),
    remembers r past (t - inject_Z window_seconds)%Q ->
    clock_from t calls ->
    answers window_seconds r calls = due_answers window_seconds past calls.
Proof.
  induction calls as [|c rest IH]; intros r past t Hrem Hclock;
    [reflexivity|].
  destruct Hclock as [Ht Hrest].
  assert (Hfrom : (t - inject_Z window_seconds <= window_start c)%Q).
  { unfold Qminus. apply Qplus_le_compat; [exact Ht|apply Qle_refl]. }
  destruct (ask_remembers r past _ c Hrem Hfrom) as [Hb Hrem'].
  cbn [answers due_answers].
  destruct (ask window_seconds r c) as [r' b] eqn:Hask.
  cbn [fst snd] in Hb, Hrem'. subst b. f_equal.
  apply (IH r' _ (at_time c)); assumption.
Qed.

(** X17. On a clock that never goes back, a rate limiter that starts
    empty answers every call as the full history demands: granted exactly
    when fewer than [user_limit] calls of the same user and operation, and
    fewer than [global_limit] calls altogether, were granted within the
    last [window_seconds]. Dropping old timestamps, and cleaning a user's
    list only when that user calls, loses nothing. *)
Theorem limiter_answers_by_history (calls : list call) :
  clock_ok calls ->
  answers window_seconds new calls = due_answers window_seconds [] calls.
Proof.
  intros Hclock. destruct calls as [|c rest]; [reflexivity|].
  apply (answers_from (c :: rest) new [] (at_time c)).
  - apply new_remembers.
  - split; [apply Qle_refl|exact Hclock].
Qed.

End Window.

Lemma limiter_answers_by_history_witness :
  clock_ok knocks /\
  answers 60 new knocks = due_answers 60 [] knocks.
Proof.
  assert (Hclock : clock_ok knocks).
  { cbn [clock_ok clock_from knocks knock at_time]. unfold Qle. simpl.
    repeat split; lia. }
  split; [exact Hclock|].
  apply (limiter_answers_by_history 60 knocks Hclock).
Defined.

Example knocks_answered :
  answers 60 new knocks = [true; true; false; true; false; true; false].
Proof. vm_compute. reflexivity. Qed.

End LimiterFacts.

(** ** escape_markdown *)

Module MarkdownFacts.

Import Markdown.

Local Abbreviation one_pass :=
  (flat_map (fun x => if needs_escape x then [backslash; x] else [x])).

Lemma replace_char_app (c : Z) (r l1 l2 : list Z) :
  replace_char c r (l1 ++ l2) = replace_char c r l1 ++ replace_char c r l2.
Proof. apply flat_map_app. Qed.

Lemma escape_one (x : Z) :
  fold_left (fun t char => replace_char char [backslash; char] t)
    escape_chars [x]
  = if needs_escape x then [backslash; x] else [x].
Proof.
  unfold needs_escape, escape_chars. cbn [existsb fold_left].
  destruct (Z.eqb_spec x 95) as [->|H1]; [reflexivity|].
  destruct (Z.eqb_spec x 42) as [->|H2]; [reflexivity|].
  destruct (Z.eqb_spec x 96) as [->|H3]; [reflexivity|].
  destruct (Z.eqb_spec x 91) as [->|H4]; [reflexivity|].
  unfold replace_char. cbn [flat_map app orb].
  apply Z.eqb_neq in H1, H2, H3, H4.
  rewrite H1. cbn [app flat_map]. rewrite H2. cbn [app flat_map].
  rewrite H3. cbn [app flat_map]. rewrite H4. reflexivity.
Qed.

Lemma escape_app (l1 l2 : list Z) :
  fold_left (fun t char => replace_char char [backslash; char] t)
    escape_chars (l1 ++ l2)
  = fold_left (fun t char => replace_char char [backslash; char] t)
      escape_chars l1
    ++ fold_left (fun t char => replace_char char [backslash; char] t)
         escape_chars l2.
Proof.
  unfold escape_chars. cbn [fold_left]. now rewrite !replace_char_app.
Qed.

Lemma escape_markdown_one_pass (text : list Z) :
  escape_markdown text = one_pass text.
Proof.
  destruct text as [|a text]; [reflexivity|].
  unfold escape_markdown. generalize (a :: text). clear a text.
  intros text. induction text as [|x text IH]; [reflexivity|].
  change (x :: text) with ([x] ++ text).
  rewrite escape_app, escape_one, IH. cbn [flat_map app].
  reflexivity.
Qed.

Lemma escaped_app (l1 l2 : list Z) :
  escaped l1 -> escaped l2 -> escaped (l1 ++ l2).
Proof.
  intros H1 H2 i x Hi Hx.
  destruct (lookup_app_Some l1 l2 i x) as [Hcases _].
  destruct (Hcases Hi) as [Hl|[Hlen Hr]].
  - destruct (H1 i x Hl Hx) as [j [-> Hj]].
    exists j. split; [reflexivity|]. now apply lookup_app_l_Some.
  - destruct (H2 _ x Hr Hx) as [j [Hij Hj]].
    exists (length l1 + j)%nat. split; [lia|].
    rewrite lookup_app_r by lia.
    now replace (length l1 + j - length l1)%nat with j by lia.
Qed.

(** X18. [escape_markdown] escapes in one pass: replacing the four
    characters one after the other never escapes a character twice, every
    ['_'], ['*'], ['`'] and ['['] of the result stands right after a
    backslash, and the result is longer than the text by the number of
    such characters. A backslash of the text itself is left as it is. *)
Theorem escape_markdown_escapes (text : list Z) :
  escape_markdown text = one_pass text /\
  escaped (escape_markdown text) /\
  length (escape_markdown text)
  = (length text + length (List.filter needs_escape text))%nat.
Proof.
  split; [apply escape_markdown_one_pass|].
  rewrite escape_markdown_one_pass. split.
  - induction text as [|x text IH]; [intros i x Hi; discriminate|].
    cbn [flat_map]. apply escaped_app; [|exact IH].
    destruct (needs_escape x) eqn:Hx.
    + intros [|[|i]] y Hy Hny; cbn in Hy; [| |discriminate].
      * injection Hy as <-. discriminate.
      * exists 0%nat. now split.
    + intros [|i] y Hy Hny; cbn in Hy; [|discriminate].
      injection Hy as <-. congruence.
  - induction text as [|x text IH]; [reflexivity|].
    cbn [flat_map List.filter]. rewrite length_app, IH.
    destruct (needs_escape x); simpl; lia.
Qed.

Example escape_markdown_sample :
  escape_markdown [97; 95; 98; 42; 92; 91] = [97; 92; 95; 98; 92; 42; 92; 92; 91].
Proof. reflexivity. Qed.

End MarkdownFacts.
